(** * A limit order book matching engine: model and verification

    Shallow embedding of the matching engine of the repository
    ([backend/order.hpp], [backend/price_level.hpp], [backend/memory_pool.hpp],
    [backend/orderbook.hpp], [backend/orderbook.cpp]).

    - machine integers are [Z] with the wrap-around written out
      ([u64], [u32], [s64]);
    - order cells live in a memory indexed by addresses; the intrusive
      [next]/[prev] links are addresses, so aliasing is modelled as it is;
    - a dereference of a null or released pointer is the error [Fault];
    - loops take fuel, running out of it is the error [OutOfFuel];
    - what the registered callbacks receive is recorded in an event log. *)

From Stdlib Require Import ZArith List Bool Lia QArith.
From stdpp Require Import gmap list.

Local Open Scope Z_scope.

(** ** Machine integers *)

Definition u64 (z : Z) : Z := z mod 2 ^ 64.
Definition u32 (z : Z) : Z := z mod 2 ^ 32.
(** Two's complement reading of the low 64 bits. *)
Definition s64 (z : Z) : Z := (z + 2 ^ 63) mod 2 ^ 64 - 2 ^ 63.

Definition in_u64 (z : Z) : Prop := 0 <= z < 2 ^ 64.
Definition in_s64 (z : Z) : Prop := - 2 ^ 63 <= z < 2 ^ 63.

(** ** Results of fallible computations *)

Inductive res (A : Type) : Type :=
| Ok (a : A)
| Fault          (* null or dangling pointer dereferenced *)
| OutOfFuel.     (* the loop bound of the model was reached *)
Arguments Ok {A} a.
Arguments Fault {A}.
Arguments OutOfFuel {A}.

Definition rbind {A B} (x : res A) (f : A -> res B) : res B :=
  match x with
  | Ok a => f a
  | Fault => Fault
  | OutOfFuel => OutOfFuel
  end.

Declare Scope res_scope.
Delimit Scope res_scope with res.
Notation "'let*' x ':=' e 'in' k" := (rbind e (fun x => k))
  (at level 10, x pattern, e at level 100, k at level 200) : res_scope.
Local Open Scope res_scope.

(** ** order.hpp *)

Abbreviation addr := N.

Inductive Side := BUY | SELL.
Inductive OrderType := LIMIT | MARKET | IOC | FOK.
Inductive OrderStatus := NEW | PARTIALLY_FILLED | FILLED | CANCELLED | REJECTED.

Definition Side_eqb (a b : Side) : bool :=
  match a, b with BUY, BUY | SELL, SELL => true | _, _ => false end.
Definition OrderType_eqb (a b : OrderType) : bool :=
  match a, b with
  | LIMIT, LIMIT | MARKET, MARKET | IOC, IOC | FOK, FOK => true
  | _, _ => false
  end.
Definition OrderStatus_eqb (a b : OrderStatus) : bool :=
  match a, b with
  | NEW, NEW | PARTIALLY_FILLED, PARTIALLY_FILLED | FILLED, FILLED
  | CANCELLED, CANCELLED | REJECTED, REJECTED => true
  | _, _ => false
  end.

Module Order.
(** [struct Order]; the [timestamp] field (wall clock) is left out. *)
Record t := mk {
  id : Z;                 (* OrderId = uint64_t *)
  price : Z;              (* Price = int64_t *)
  quantity : Z;           (* Quantity = uint64_t *)
  filled_quantity : Z;
  side : Side;
  type : OrderType;
  status : OrderStatus;
  next : option addr;
  prev : option addr
}.

(** [Order(id_, price_, qty_, side_, type_)] *)
Definition new (i p q : Z) (s : Side) (ty : OrderType) : t :=
  mk i p q 0 s ty NEW None None.

Definition remaining_quantity (o : t) : Z := u64 (quantity o - filled_quantity o).
Definition is_fully_filled (o : t) : bool := quantity o <=? filled_quantity o.

Definition with_price (v : Z) (o : t) : t :=
  mk (id o) v (quantity o) (filled_quantity o) (side o) (type o) (status o) (next o) (prev o).
Definition with_filled (v : Z) (o : t) : t :=
  mk (id o) (price o) (quantity o) v (side o) (type o) (status o) (next o) (prev o).
Definition with_status (v : OrderStatus) (o : t) : t :=
  mk (id o) (price o) (quantity o) (filled_quantity o) (side o) (type o) v (next o) (prev o).
Definition with_next (v : option addr) (o : t) : t :=
  mk (id o) (price o) (quantity o) (filled_quantity o) (side o) (type o) (status o) v (prev o).
Definition with_prev (v : option addr) (o : t) : t :=
  mk (id o) (price o) (quantity o) (filled_quantity o) (side o) (type o) (status o) (next o) v.
End Order.

Module Trade.
(** [struct Trade]; the [timestamp] field is left out. *)
Record t := mk {
  buy_order_id : Z;
  sell_order_id : Z;
  price : Z;
  quantity : Z
}.
End Trade.

(** ** The cells handed out by the order pool *)

Abbreviation memory := (gmap N Order.t).

Definition load (m : memory) (a : addr) : res Order.t :=
  match m !! a with
  | Some o => Ok o
  | None => Fault
  end.

(** [a->field = v] *)
Definition store (f : Order.t -> Order.t) (a : addr) (m : memory) : res memory :=
  let* o := load m a in Ok (<[a := f o]> m).

Definition set_next (a : addr) (v : option addr) := store (Order.with_next v) a.
Definition set_prev (a : addr) (v : option addr) := store (Order.with_prev v) a.
Definition set_status (a : addr) (v : OrderStatus) := store (Order.with_status v) a.
Definition set_price (a : addr) (v : Z) := store (Order.with_price v) a.
Definition set_filled (a : addr) (v : Z) := store (Order.with_filled v) a.

(** ** memory_pool.hpp *)

Module MemoryPool.
(** The pool as the sequence of free cells, first to be handed out first,
    and the number of blocks obtained so far.  Block [k] holds the cells
    [k * block_size .. k * block_size + block_size - 1]. *)
Record t := mk {
  free_list_ : list addr;
  blocks_ : N;
  block_size_ : N
}.

Fixpoint nodes_from (n : nat) (a : addr) : list addr :=
  match n with
  | O => []
  | S n => a :: nodes_from n (N.succ a)
  end.

Definition block_nodes (k size : N) : list addr :=
  nodes_from (N.to_nat size) (k * size)%N.

(** [allocate_block] on the path on which [new Block(block_size_)]
    returns.  The path on which the system allocator throws
    [std::bad_alloc] is in [allocate_or_throw]. *)
Definition allocate_block (p : t) : t :=
  mk (block_nodes (blocks_ p) (block_size_ p) ++ free_list_ p)
     (blocks_ p + 1)%N (block_size_ p).

(** [MemoryPool(initial_blocks)] with the template parameter [BlockSize] *)
Definition new (BlockSize : N) (initial_blocks : nat) : t :=
  Nat.iter initial_blocks allocate_block (mk [] 0%N BlockSize).

(** [if (!free_list_) allocate_block();] *)
Definition refill (p : t) : t :=
  match free_list_ p with
  | [] => allocate_block p
  | _ => p
  end.

(** [allocate]: the cell popped from the free list and the pool left.
    A block of size 0 would leave the list empty: [Fault]. *)
Definition allocate (p : t) : res (addr * t) :=
  let p := refill p in
  match free_list_ p with
  | a :: rest => Ok (a, mk rest (blocks_ p) (block_size_ p))
  | [] => Fault
  end.

(** The cell that [allocate] hands out next. *)
Definition next_cell (p : t) : option addr := head (free_list_ (refill p)).


(** [deallocate] of a cell that the pool has handed out and that is in
    use.  A second [deallocate] of the same cell writes the link of a cell
    that is in the free list; it is a misuse of the pool with undefined
    behaviour, and is not described by this function. *)
Definition deallocate (a : addr) (p : t) : t :=
  mk (a :: free_list_ p) (blocks_ p) (block_size_ p).
End MemoryPool.

(** ** price_level.hpp *)

Module PriceLevel.
(** [class PriceLevel]; its own [next]/[prev] links are never used by the
    engine and are left out. *)
Record t := mk {
  price : Z;
  total_quantity : Z;     (* Quantity = uint64_t *)
  order_count : Z;        (* uint32_t *)
  head : option addr;
  tail : option addr
}.

Definition new (p : Z) : t := mk p 0 0 None None.

Definition with_head (v : option addr) (l : t) : t :=
  mk (price l) (total_quantity l) (order_count l) v (tail l).
Definition with_tail (v : option addr) (l : t) : t :=
  mk (price l) (total_quantity l) (order_count l) (head l) v.
Definition with_totals (q c : Z) (l : t) : t :=
  mk (price l) q c (head l) (tail l).

Definition add_order (order : addr) (l : t) (m : memory) : res (t * memory) :=
  let* (l, m) :=
    match tail l with
    | Some tl =>
        let* m := set_next tl (Some order) m in
        let* m := set_prev order (Some tl) m in
        let* m := set_next order None m in
        Ok (with_tail (Some order) l, m)
    | None =>
        let l := with_head (Some order) (with_tail (Some order) l) in
        let* m := set_next order None m in
        let* m := set_prev order None m in
        Ok (l, m)
    end in
  let* o := load m order in
  Ok (with_totals (u64 (total_quantity l + Order.remaining_quantity o))
                  (u32 (order_count l + 1)) l, m).

Definition remove_order (order : addr) (l : t) (m : memory) : res (t * memory) :=
  let* o := load m order in
  let* (l, m) :=
    match Order.prev o with
    | Some p => let* m := set_next p (Order.next o) m in Ok (l, m)
    | None => Ok (with_head (Order.next o) l, m)
    end in
  let* o := load m order in
  let* (l, m) :=
    match Order.next o with
    | Some n => let* m := set_prev n (Order.prev o) m in Ok (l, m)
    | None => Ok (with_tail (Order.prev o) l, m)
    end in
  let* o := load m order in
  let l := with_totals (u64 (total_quantity l - Order.remaining_quantity o))
                       (u32 (order_count l - 1)) l in
  let* m := set_next order None m in
  let* m := set_prev order None m in
  Ok (l, m).

Definition update_quantity (order : addr) (old_remaining : Z) (l : t) (m : memory)
  : res t :=
  let* o := load m order in
  Ok (with_totals
        (u64 (u64 (total_quantity l - old_remaining) + Order.remaining_quantity o))
        (order_count l) l).

Definition is_empty (l : t) : bool := order_count l =? 0.
Definition get_best_order (l : t) : option addr := head l.
End PriceLevel.

(** ** orderbook.hpp *)

Module LevelMap.
(** [std::map<Price, PriceLevel*, Compare>] as the sequence of its entries
    in iteration order.  Each level cell is referenced by exactly one entry
    of one map, so an entry holds the level itself; a write through the
    pointer is [set]. *)
Definition t := list (Z * PriceLevel.t).

Fixpoint find (k : Z) (m : t) : option PriceLevel.t :=
  match m with
  | [] => None
  | (k', v) :: rest => if k' =? k then Some v else find k rest
  end.

(** [m[k] = v] for a key that [find] did not return; [before] is the
    comparison object ([std::greater] for bids, [std::less] for asks). *)
Fixpoint insert (before : Z -> Z -> bool) (k : Z) (v : PriceLevel.t) (m : t) : t :=
  match m with
  | [] => [(k, v)]
  | (k', v') :: rest =>
      if before k k' then (k, v) :: m else (k', v') :: insert before k v rest
  end.

(** the level found under [k] is overwritten in place *)
Fixpoint set (k : Z) (v : PriceLevel.t) (m : t) : t :=
  match m with
  | [] => []
  | (k', v') :: rest => if k' =? k then (k', v) :: rest else (k', v') :: set k v rest
  end.

Fixpoint erase (k : Z) (m : t) : t :=
  match m with
  | [] => []
  | (k', v') :: rest => if k' =? k then rest else (k', v') :: erase k rest
  end.

Definition empty (m : t) : bool := match m with [] => true | _ => false end.
End LevelMap.

Module MarketState.
(** [struct MarketState].  The fields computed in floating point from the
    trade history ([order_flow_imbalance], [vwap], [price_volatility]) and
    the [timestamp] are left out.  [mid_price] is a [double]; it is given
    as the rational it denotes (exact while the sum of the two prices is
    below 2^53 in magnitude). *)
Record t := mk {
  best_bid : Z;
  best_ask : Z;
  bid_quantity : Z;
  ask_quantity : Z;
  spread : Z;
  mid_price : Q;
  bid_levels : list (Z * Z);
  ask_levels : list (Z * Z);
  last_trade_price : Z;
  last_trade_quantity : Z
}.
End MarketState.

(** What the registered callbacks are called with, in call order. *)
Inductive Event :=
| TradeEvent (t : Trade.t)
| OrderEvent (o : Order.t)
| StateEvent (s : MarketState.t).

Definition MAX_RECENT_TRADES : nat := 100.
Definition DEPTH_LEVELS : nat := 10.

Module OrderBook.
(** [class OrderBook].  [cells] is the memory of the order cells that
    [order_pool_] has handed out; [events] is the log of callback calls.
    [next_order_id] is the file-level counter of orderbook.cpp, one for
    all the books of a process: the field holds the value that the next
    [add_order] on this book meets, and [elsewhere] is its advance by the
    orders submitted to other books.  The pool of level cells is not
    modelled (see [LevelMap]); the order pool obtains the blocks it asks for
    (see [MemoryPool.allocate_or_throw] for [std::bad_alloc]);
    [cumulative_volume_] and [cumulative_pq_] are floating-point
    accumulators and are left out. *)
Record t := mk {
  bid_levels_ : LevelMap.t;
  ask_levels_ : LevelMap.t;
  orders_ : gmap Z N;
  order_pool_ : MemoryPool.t;
  cells : memory;
  recent_trade_prices_ : list Z;
  recent_trade_quantities_ : list Z;
  next_order_id : Z;
  events : list Event
}.

Definition with_bids (v : LevelMap.t) (b : t) : t :=
  mk v (ask_levels_ b) (orders_ b) (order_pool_ b) (cells b)
     (recent_trade_prices_ b) (recent_trade_quantities_ b) (next_order_id b) (events b).
Definition with_asks (v : LevelMap.t) (b : t) : t :=
  mk (bid_levels_ b) v (orders_ b) (order_pool_ b) (cells b)
     (recent_trade_prices_ b) (recent_trade_quantities_ b) (next_order_id b) (events b).
Definition with_orders (v : gmap Z N) (b : t) : t :=
  mk (bid_levels_ b) (ask_levels_ b) v (order_pool_ b) (cells b)
     (recent_trade_prices_ b) (recent_trade_quantities_ b) (next_order_id b) (events b).
Definition with_pool (v : MemoryPool.t) (b : t) : t :=
  mk (bid_levels_ b) (ask_levels_ b) (orders_ b) v (cells b)
     (recent_trade_prices_ b) (recent_trade_quantities_ b) (next_order_id b) (events b).
Definition with_cells (v : memory) (b : t) : t :=
  mk (bid_levels_ b) (ask_levels_ b) (orders_ b) (order_pool_ b) v
     (recent_trade_prices_ b) (recent_trade_quantities_ b) (next_order_id b) (events b).
Definition with_recent (ps qs : list Z) (b : t) : t :=
  mk (bid_levels_ b) (ask_levels_ b) (orders_ b) (order_pool_ b) (cells b)
     ps qs (next_order_id b) (events b).
Definition with_next_id (v : Z) (b : t) : t :=
  mk (bid_levels_ b) (ask_levels_ b) (orders_ b) (order_pool_ b) (cells b)
     (recent_trade_prices_ b) (recent_trade_quantities_ b) v (events b).
Definition with_events (v : list Event) (b : t) : t :=
  mk (bid_levels_ b) (ask_levels_ b) (orders_ b) (order_pool_ b) (cells b)
     (recent_trade_prices_ b) (recent_trade_quantities_ b) (next_order_id b) v.

(** [OrderBook()], [order_pool_(10)] with the default block size 4096, in
    a process whose id counter stands at [next]. *)
Definition create (next : Z) : t :=
  mk [] [] ∅ (MemoryPool.new 4096 10) ∅ [] [] next [].

(** The first book of a process: the counter has its initial value 1. *)
Definition new : t := create 1.

(** [k] orders are submitted to other books of the process: the counter
    advances, nothing else of this book changes. *)
Definition elsewhere (k : Z) (b : t) : t :=
  with_next_id (u64 (next_order_id b + k)) b.

Definition levels (s : Side) (b : t) : LevelMap.t :=
  match s with BUY => bid_levels_ b | SELL => ask_levels_ b end.
Definition with_levels (s : Side) (v : LevelMap.t) (b : t) : t :=
  match s with BUY => with_bids v b | SELL => with_asks v b end.
Definition before (s : Side) : Z -> Z -> bool :=
  match s with BUY => Z.gtb | SELL => Z.ltb end.

(** The level pointer returned is the entry under ([price], [side]) of the
    book returned. *)
Definition get_or_create_level (price : Z) (side : Side) (b : t) : t :=
  match LevelMap.find price (levels side b) with
  | Some _ => b
  | None =>
      with_levels side
        (LevelMap.insert (before side) price (PriceLevel.new price) (levels side b)) b
  end.

Definition remove_level_if_empty (price : Z) (side : Side) (b : t) : t :=
  match LevelMap.find price (levels side b) with
  | Some l =>
      if PriceLevel.is_empty l
      then with_levels side (LevelMap.erase price (levels side b)) b
      else b
  | None => b
  end.

(** [level->f(...)] for the level under ([price], [side]) *)
Definition on_level (price : Z) (side : Side)
    (f : PriceLevel.t -> memory -> res (PriceLevel.t * memory)) (b : t) : res t :=
  match LevelMap.find price (levels side b) with
  | Some l =>
      let* (l', m') := f l (cells b) in
      Ok (with_cells m' (with_levels side (LevelMap.set price l' (levels side b)) b))
  | None => Fault
  end.

(** A call of every registered callback of one kind with [e]. *)
Definition notify (e : Event) (b : t) : t := with_events (events b ++ [e]) b.
Definition notify_trade (trade : Trade.t) : t -> t := notify (TradeEvent trade).
Definition notify_order_update (order : Order.t) : t -> t := notify (OrderEvent order).

Definition update_market_statistics (tr : Trade.t) (b : t) : t :=
  let ps := recent_trade_prices_ b ++ [Trade.price tr] in
  let qs := recent_trade_quantities_ b ++ [Trade.quantity tr] in
  if (MAX_RECENT_TRADES <? length ps)%nat
  then with_recent (List.tl ps) (List.tl qs) b
  else with_recent ps qs b.

Definition get_best_bid (b : t) : option Z :=
  match bid_levels_ b with [] => None | (p, _) :: _ => Some p end.
Definition get_best_ask (b : t) : option Z :=
  match ask_levels_ b with [] => None | (p, _) :: _ => Some p end.

(** Signed overflow of the sum is undefined in C++; it is given its
    two's complement value.  [/] on integers truncates toward zero. *)
Definition get_mid_price (b : t) : option Z :=
  match get_best_bid b, get_best_ask b with
  | Some bid, Some ask => Some (Z.quot (s64 (bid + ask)) 2)
  | _, _ => None
  end.

Definition get_spread (b : t) : option Z :=
  match get_best_bid b, get_best_ask b with
  | Some bid, Some ask => Some (s64 (ask - bid))
  | _, _ => None
  end.

Definition get_volume_at_price (price : Z) (side : Side) (b : t) : Z :=
  match LevelMap.find price (levels side b) with
  | Some l => PriceLevel.total_quantity l
  | None => 0
  end.

Definition depth (m : LevelMap.t) : list (Z * Z) :=
  firstn DEPTH_LEVELS (map (fun e => (fst e, PriceLevel.total_quantity (snd e))) m).
Definition top_quantity (m : LevelMap.t) : Z :=
  match m with [] => 0 | (_, l) :: _ => PriceLevel.total_quantity l end.

Definition get_market_state (b : t) : MarketState.t :=
  let best_bid := get_best_bid b in
  let best_ask := get_best_ask b in
  let (spread, mid) :=
    match best_bid, best_ask with
    | Some bid, Some ask => (s64 (ask - bid), Qmake (s64 (bid + ask)) 2)
    | _, _ => (0, 0%Q)
    end in
  MarketState.mk
    (default 0 best_bid) (default 0 best_ask)
    (top_quantity (bid_levels_ b)) (top_quantity (ask_levels_ b))
    spread mid
    (depth (bid_levels_ b)) (depth (ask_levels_ b))
    (List.last (recent_trade_prices_ b) 0)
    (List.last (recent_trade_quantities_ b) 0).

Definition fill_status (o : Order.t) : OrderStatus :=
  if Order.is_fully_filled o then FILLED else PARTIALLY_FILLED.

Definition execute_trade (passive_order aggressive_order : addr) (quantity : Z) (b : t)
  : res t :=
  let* po := load (cells b) passive_order in
  let passive_old_remaining := Order.remaining_quantity po in
  let* m := set_filled passive_order (u64 (Order.filled_quantity po + quantity)) (cells b) in
  let* ao := load m aggressive_order in
  let* m := set_filled aggressive_order (u64 (Order.filled_quantity ao + quantity)) m in
  let* po := load m passive_order in
  let* m := set_status passive_order (fill_status po) m in
  let* ao := load m aggressive_order in
  let* m := set_status aggressive_order (fill_status ao) m in
  let b := with_cells m b in
  (* update price level quantities *)
  let* po := load (cells b) passive_order in
  let lp := Order.price po in
  let ls := Order.side po in
  let b := get_or_create_level lp ls b in
  let* b := on_level lp ls
              (fun l m => let* l' := PriceLevel.update_quantity
                                       passive_order passive_old_remaining l m in
                          Ok (l', m)) b in
  (* create trade record *)
  let* po := load (cells b) passive_order in
  let* ao := load (cells b) aggressive_order in
  let trade :=
    Trade.mk
      (if Side_eqb (Order.side po) BUY then Order.id po else Order.id ao)
      (if Side_eqb (Order.side po) SELL then Order.id po else Order.id ao)
      (Order.price po)
      quantity in
  let b := update_market_statistics trade b in
  let b := notify_trade trade b in
  let b := notify_order_update po b in
  let b := notify_order_update ao b in
  (* remove filled passive order from book *)
  if Order.is_fully_filled po then
    let* b := on_level lp ls (PriceLevel.remove_order passive_order) b in
    let* po := load (cells b) passive_order in
    Ok (remove_level_if_empty (Order.price po) (Order.side po) b)
  else Ok b.

Definition opposite (s : Side) : Side :=
  match s with BUY => SELL | SELL => BUY end.

(** [break] when the incoming price does not reach the best opposite one *)
Definition no_cross (s : Side) (incoming_price level_price : Z) : bool :=
  match s with
  | BUY => incoming_price <? level_price
  | SELL => incoming_price >? level_price
  end.

(** One pass through the body of the [while] loop of [match_order], for an
    incoming order of side [s]; [true] when the loop goes on. *)
Definition match_iteration (s : Side) (incoming_order : addr) (b : t) : res (bool * t) :=
  let* inc := load (cells b) incoming_order in
  if Order.is_fully_filled inc then Ok (false, b) else
  match levels (opposite s) b with
  | [] => Ok (false, b)
  | (_, best_level) :: _ =>
      if no_cross s (Order.price inc) (PriceLevel.price best_level) then Ok (false, b) else
      match PriceLevel.get_best_order best_level with
      | None => Ok (false, b)
      | Some passive_order =>
          let* po := load (cells b) passive_order in
          let match_quantity :=
            Z.min (Order.remaining_quantity inc) (Order.remaining_quantity po) in
          let* b := execute_trade passive_order incoming_order match_quantity b in
          (* check order type constraints *)
          let* inc := load (cells b) incoming_order in
          if OrderType_eqb (Order.type inc) IOC && negb (Order.is_fully_filled inc) then
            let* m := set_status incoming_order CANCELLED (cells b) in
            Ok (false, with_cells m b)
          else if OrderType_eqb (Order.type inc) FOK && negb (Order.is_fully_filled inc) then
            let* m := set_status incoming_order REJECTED (cells b) in
            Ok (false, with_cells m b)
          else Ok (true, b)
      end
  end.

Fixpoint match_loop (fuel : nat) (s : Side) (incoming_order : addr) (b : t) : res t :=
  match fuel with
  | O => OutOfFuel
  | S fuel =>
      let* (again, b) := match_iteration s incoming_order b in
      if again then match_loop fuel s incoming_order b else Ok b
  end.

Definition match_order (fuel : nat) (incoming_order : addr) (b : t) : res t :=
  let* inc := load (cells b) incoming_order in
  match_loop fuel (Order.side inc) incoming_order b.

(** [add_order], the block under "market orders always match": the order
    takes the best available price of the opposite side, if there is one. *)
Definition use_best_price (side : Side) (type : OrderType) (order : addr) (b : t)
  : res t :=
  match type, side, ask_levels_ b, bid_levels_ b with
  | MARKET, BUY, (p, _) :: _, _ =>
      let* m := set_price order p (cells b) in Ok (with_cells m b)
  | MARKET, SELL, _, (p, _) :: _ =>
      let* m := set_price order p (cells b) in Ok (with_cells m b)
  | _, _, _, _ => Ok b
  end.

(** [add_order], the [if]/[else if] after [match_order]: a limit order with
    quantity left rests in the book; a cancelled or rejected order leaves the
    index and its cell returns to the pool; nothing is done otherwise. *)
Definition rest_or_release (id price : Z) (side : Side) (type : OrderType)
    (order : addr) (b : t) : res t :=
  let* o := load (cells b) order in
  if negb (Order.is_fully_filled o)
     && negb (OrderStatus_eqb (Order.status o) CANCELLED)
     && negb (OrderStatus_eqb (Order.status o) REJECTED)
     && OrderType_eqb type LIMIT
  then
    let b := get_or_create_level price side b in
    let* b := on_level price side (PriceLevel.add_order order) b in
    let* o := load (cells b) order in
    Ok (notify_order_update o b)
  else if OrderStatus_eqb (Order.status o) CANCELLED
          || OrderStatus_eqb (Order.status o) REJECTED
  then
    Ok (with_pool (MemoryPool.deallocate order (order_pool_ b))
          (with_cells (delete order (cells b))
             (with_orders (delete id (orders_ b)) b)))
  else Ok b.

Definition add_order (fuel : nat) (price quantity : Z) (side : Side) (type : OrderType)
    (b : t) : res (Z * t) :=
  let id := next_order_id b in
  let b := with_next_id (u64 (id + 1)) b in
  let* (order, pool) := MemoryPool.allocate (order_pool_ b) in
  let b := with_cells (<[order := Order.new id price quantity side type]> (cells b))
             (with_pool pool b) in
  let b := with_orders (<[id := order]> (orders_ b)) b in
  let* b := use_best_price side type order b in
  let* b := match_order fuel order b in
  let* b := rest_or_release id price side type order b in
  (* notify state update *)
  let b := notify (StateEvent (get_market_state b)) b in
  Ok (id, b).

Definition cancel_order (order_id : Z) (b : t) : res (bool * t) :=
  match orders_ b !! order_id with
  | None => Ok (false, b)
  | Some order =>
      let* o := load (cells b) order in
      let* b :=
        if negb (Order.is_fully_filled o) then
          let b := get_or_create_level (Order.price o) (Order.side o) b in
          let* b := on_level (Order.price o) (Order.side o)
                      (PriceLevel.remove_order order) b in
          let* o := load (cells b) order in
          Ok (remove_level_if_empty (Order.price o) (Order.side o) b)
        else Ok b in
      let* m := set_status order CANCELLED (cells b) in
      let b := with_cells m b in
      let* o := load (cells b) order in
      let b := notify_order_update o b in
      Ok (true,
          with_pool (MemoryPool.deallocate order (order_pool_ b))
            (with_cells (delete order (cells b))
               (with_orders (delete order_id (orders_ b)) b)))
  end.

Definition modify_order (fuel : nat) (order_id new_price new_quantity : Z) (b : t)
  : res (bool * t) :=
  match orders_ b !! order_id with
  | None => Ok (false, b)
  | Some old_order =>
      let* o := load (cells b) old_order in
      let side := Order.side o in
      let type := Order.type o in
      let* (_, b) := cancel_order order_id b in
      let* (_, b) := add_order fuel new_price new_quantity side type b in
      Ok (true, b)
  end.

(** The trades the trade callbacks have been called with. *)
Definition trades (b : t) : list Trade.t :=
  omap (fun e => match e with TradeEvent tr => Some tr | _ => None end) (events b).

(** [get_order]: a copy of the cell the index points to, or nothing. *)
Definition get_order (order_id : Z) (b : t) : res (option Order.t) :=
  match orders_ b !! order_id with
  | None => Ok None
  | Some order => let* o := load (cells b) order in Ok (Some o)
  end.

Definition get_order_count (b : t) : nat := size (orders_ b).
Definition get_bid_level_count (b : t) : nat := length (bid_levels_ b).
Definition get_ask_level_count (b : t) : nat := length (ask_levels_ b).
End OrderBook.

(** ** Sessions: sequences of calls of the public entry points *)

Inductive Op :=
| Add (price quantity : Z) (side : Side) (type : OrderType)
| Cancel (order_id : Z)
| Modify (order_id new_price new_quantity : Z).

Definition step (fuel : nat) (op : Op) (b : OrderBook.t) : res OrderBook.t :=
  match op with
  | Add p q s ty => let* (_, b) := OrderBook.add_order fuel p q s ty b in Ok b
  | Cancel i => let* (_, b) := OrderBook.cancel_order i b in Ok b
  | Modify i p q => let* (_, b) := OrderBook.modify_order fuel i p q b in Ok b
  end.

Fixpoint run (fuel : nat) (ops : list Op) (b : OrderBook.t) : res OrderBook.t :=
  match ops with
  | [] => Ok b
  | op :: ops => let* b := step fuel op b in run fuel ops b
  end.

(** A session on the first book of a process. *)
Definition session (ops : list Op) : res OrderBook.t := run 64 ops OrderBook.new.

(** The calls on a book in a process that has other books: between the
    calls, orders submitted to the other books advance the shared id
    counter.  [shared_run n b b']: calls on the book and advances of the
    counter take [b] to [b'], with at most [n] ids handed out. *)
Inductive shared_run : Z -> OrderBook.t -> OrderBook.t -> Prop :=
| shared_done b : shared_run 0 b b
| shared_call n fuel op b b1 b2 :
    step fuel op b = Ok b1 -> shared_run n b1 b2 -> shared_run (n + 1) b b2
| shared_other n k b b2 :
    0 <= k -> shared_run n (OrderBook.elsewhere k b) b2 -> shared_run (n + k) b b2.

Definition observe {A} (f : OrderBook.t -> A) (r : res OrderBook.t) : option A :=
  match r with Ok b => Some (f b) | _ => None end.

(** A side of the book as seen from outside: price, aggregate quantity and
    order count of each level, best first. *)
Definition side_view (m : LevelMap.t) : list (Z * Z * Z) :=
  map (fun e => (fst e, PriceLevel.total_quantity (snd e), PriceLevel.order_count (snd e))) m.

Definition order_status (order_id : Z) (b : OrderBook.t) : option OrderStatus :=
  match OrderBook.orders_ b !! order_id with
  | Some a => option_map Order.status (OrderBook.cells b !! a)
  | None => None
  end.

(** ** A price level on its own *)

(** The calls a client makes on one level.  [LFill a q] is the client's
    partial fill as in [execute_trade]: the remaining quantity is read, the
    order's [filled_quantity] advances by [q], and [update_quantity] is
    called with the old remaining quantity. *)
Inductive LevelOp :=
| LAdd (order : addr)
| LRemove (order : addr)
| LFill (order : addr) (q : Z).

Definition level_step (op : LevelOp) (st : PriceLevel.t * memory)
  : res (PriceLevel.t * memory) :=
  let (l, m) := st in
  match op with
  | LAdd a => PriceLevel.add_order a l m
  | LRemove a => PriceLevel.remove_order a l m
  | LFill a q =>
      let* o := load m a in
      let old_remaining := Order.remaining_quantity o in
      let* m := set_filled a (u64 (Order.filled_quantity o + q)) m in
      let* l := PriceLevel.update_quantity a old_remaining l m in
      Ok (l, m)
  end.

Fixpoint level_run (ops : list LevelOp) (st : PriceLevel.t * memory)
  : res (PriceLevel.t * memory) :=
  match ops with
  | [] => Ok st
  | op :: ops => let* st := level_step op st in level_run ops st
  end.

(** Head-to-tail traversal along the [next] links, at most [fuel] cells. *)
Fixpoint traverse (fuel : nat) (m : memory) (p : option addr) : option (list addr) :=
  match p with
  | None => Some []
  | Some a =>
      match fuel with
      | O => None
      | S fuel =>
          match m !! a with
          | Some o =>
              match traverse fuel m (Order.next o) with
              | Some rest => Some (a :: rest)
              | None => None
              end
          | None => None
          end
      end
  end.

(** Σ (original − filled) over a sequence of cells *)
Fixpoint sum_remaining (m : memory) (q : list addr) : Z :=
  match q with
  | [] => 0
  | a :: q =>
      match m !! a with
      | Some o => Order.quantity o - Order.filled_quantity o
      | None => 0
      end + sum_remaining m q
  end.

Fixpoint remove_first (a : addr) (q : list addr) : list addr :=
  match q with
  | [] => []
  | x :: q => if N.eqb x a then q else x :: remove_first a q
  end.

(** The queue the level stands for: orders in the order they were added,
    earliest first. *)
Definition fifo_step (op : LevelOp) (q : list addr) : list addr :=
  match op with
  | LAdd a => q ++ [a]
  | LRemove a => remove_first a q
  | LFill _ _ => q
  end.

Definition fifo_run (ops : list LevelOp) (q : list addr) : list addr :=
  fold_left (fun q op => fifo_step op q) ops q.

(** The usage contract of the level: an order is added while it is not
    linked, and removed or filled while it is. *)
Definition legal_step (m : memory) (op : LevelOp) (q : list addr) : Prop :=
  match op with
  | LAdd a => is_Some (m !! a) /\ ~ In a q
  | LRemove a => In a q
  | LFill a _ => In a q
  end.

Fixpoint legal (m : memory) (ops : list LevelOp) (q : list addr) : Prop :=
  match ops with
  | [] => True
  | op :: ops => legal_step m op q /\ legal m ops (fifo_step op q)
  end.

(** The cells [q] form the doubly linked segment that starts at [hd] after
    the predecessor [p] and stops at [nx]; [last] is its last cell, or [p]
    when it is empty. *)
Fixpoint seg (m : memory) (p hd last nx : option addr) (q : list addr) : Prop :=
  match q with
  | [] => hd = nx /\ last = p
  | a :: q =>
      hd = Some a /\
      exists o, m !! a = Some o /\ Order.prev o = p /\
                seg m (Some a) (Order.next o) last nx q
  end.

(** ** Words of the specification *)

(** [comp]: the incoming price reaches the best opposite price;
    equality crosses. *)
Definition crosses (s : Side) (incoming_price top_price : Z) : Prop :=
  match s with
  | BUY => incoming_price >= top_price
  | SELL => incoming_price <= top_price
  end.

(** A limit order at [price] on side [s] does not cross the book. *)
Definition non_crossing (s : Side) (price : Z) (b : OrderBook.t) : Prop :=
  match OrderBook.levels (OrderBook.opposite s) b with
  | [] => True
  | (_, l) :: _ => ~ crosses s price (PriceLevel.price l)
  end.

(** A level as the engine keeps it between calls: counters within their
    types, at least one order, and a tail cell that ends the list. *)
Definition level_closed (m : memory) (l : PriceLevel.t) : Prop :=
  in_u64 (PriceLevel.total_quantity l) /\
  0 < PriceLevel.order_count l < 2 ^ 32 /\
  exists tl o, PriceLevel.tail l = Some tl /\ m !! tl = Some o /\ Order.next o = None.

(** The cell the pool hands out next is not in use. *)
Definition pool_fresh (b : OrderBook.t) : Prop :=
  exists a, MemoryPool.next_cell (OrderBook.order_pool_ b) = Some a /\
            OrderBook.cells b !! a = None.

(** The invariant of a level whose linked orders are [q], head first. *)
Definition level_inv (m : memory) (l : PriceLevel.t) (q : list addr) : Prop :=
  seg m None (PriceLevel.head l) (PriceLevel.tail l) None q /\
  NoDup q /\
  PriceLevel.total_quantity l = u64 (sum_remaining m q) /\
  PriceLevel.order_count l = u32 (Z.of_nat (length q)).

(** The cell [ox] at [x] after the neighbours of [o] have been linked to
    each other. *)
Definition relink (o : Order.t) (x : addr) (ox : Order.t) : Order.t :=
  Order.mk (Order.id ox) (Order.price ox) (Order.quantity ox) (Order.filled_quantity ox)
    (Order.side ox) (Order.type ox) (Order.status ox)
    (if decide (Order.prev o = Some x) then Order.next o else Order.next ox)
    (if decide (Order.next o = Some x) then Order.prev o else Order.prev ox).

Definition book_of (r : res OrderBook.t) : OrderBook.t :=
  match r with Ok b => b | _ => OrderBook.new end.

(** Whether a computation returned, and what it returned ([d] if it did
    not). *)
Definition returns {A} (r : res A) : bool :=
  match r with Ok _ => true | _ => false end.
Definition result_of {A} (d : A) (r : res A) : A :=
  match r with Ok a => a | _ => d end.

(** ** agent/rl_agent.cpp: the orders the agent places *)

Module RLAgent.
(** [enum class Action] *)
Inductive Action :=
| HOLD | BUY_MARKET | SELL_MARKET | BUY_LIMIT_AT_BID | SELL_LIMIT_AT_ASK
| BUY_LIMIT_AGGRESSIVE | SELL_LIMIT_AGGRESSIVE | CANCEL_ALL.

(** The part of [class RLAgent] that places and tracks orders: the book it
    refers to, [active_orders_], [action_count_], the quantity of the
    position and [total_trades_].  Average price, cash, profit, reward and
    timing are computed in floating point and are left out; they feed back
    neither into the orders placed nor into the quantity of the position. *)
Record t := mk {
  orderbook_ : OrderBook.t;
  active_orders_ : list Z;
  action_count_ : Z;         (* size_t *)
  position_quantity : Z;     (* position_.quantity, int64_t *)
  total_trades_ : Z          (* size_t *)
}.

(** The loop of [update_position] over [active_orders_]: whether the trade
    involves an order of the agent, and if so whether as the buyer. *)
Fixpoint involved (ids : list Z) (trade : Trade.t) : option bool :=
  match ids with
  | [] => None
  | id :: ids =>
      if id =? Trade.buy_order_id trade then Some true
      else if id =? Trade.sell_order_id trade then Some false
      else involved ids trade
  end.

(** [position_.quantity] after a buy ([is_buy]) or a sell of [tq].  The
    quantity of a trade is unsigned: compared with a signed value or
    subtracted from one, the signed value is converted to unsigned. *)
Definition moved (is_buy : bool) (tq q : Z) : Z :=
  if is_buy then
    if q <? 0 then
      let close_qty := Z.min (s64 tq) (s64 (- q)) in
      let q := s64 (q + close_qty) in
      if tq >? u64 close_qty
      then s64 (q + s64 (u64 (tq - u64 close_qty)))
      else q
    else s64 (q + tq)
  else
    if q >? 0 then
      let close_qty := Z.min (s64 tq) q in
      let q := s64 (q - close_qty) in
      if tq >? u64 close_qty
      then s64 (q - s64 (u64 (tq - u64 close_qty)))
      else q
    else s64 (q - tq).

(** [update_position], the trade callback the constructor registers. *)
Definition update_position (trade : Trade.t) (ag : t) : t :=
  match involved (active_orders_ ag) trade with
  | None => ag
  | Some is_buy =>
      mk (orderbook_ ag) (active_orders_ ag) (action_count_ ag)
         (moved is_buy (Trade.quantity trade) (position_quantity ag))
         (u64 (total_trades_ ag + 1))
  end.

(** The calls of the trade callback during a call that takes the book
    from [b] to [b']. *)
Definition on_trades (b b' : OrderBook.t) (ag : t) : t :=
  fold_left (fun ag trade => update_position trade ag)
            (skipn (length (OrderBook.trades b)) (OrderBook.trades b')) ag.

(** [active_orders_.emplace_back(orderbook_.add_order(...))]: the
    callbacks run inside [add_order], before the id is appended. *)
Definition place (fuel : nat) (price quantity : Z) (side : Side) (type : OrderType)
    (ag : t) : res t :=
  let* (id, b) := OrderBook.add_order fuel price quantity side type (orderbook_ ag) in
  let ag := on_trades (orderbook_ ag) b ag in
  Ok (mk b (active_orders_ ag ++ [id]) (action_count_ ag)
         (position_quantity ag) (total_trades_ ag)).

(** The sum of the two best prices shifted right by one, an arithmetic
    shift of a signed 64-bit value. *)
Definition aggressive_price (best_bid best_ask : Z) : Z :=
  Z.shiftr (s64 (best_bid + best_ask)) 1.

(** [for (const OrderId id : active_orders_) orderbook_.cancel_order(id);] *)
Fixpoint cancel_all (ids : list Z) (b : OrderBook.t) : res OrderBook.t :=
  match ids with
  | [] => Ok b
  | id :: ids => let* (_, b) := OrderBook.cancel_order id b in cancel_all ids b
  end.

(** The test of the clean-up loop: the order is still known to the book
    and neither [FILLED] nor [CANCELLED]. *)
Definition still_active (b : OrderBook.t) (id : Z) : res bool :=
  let* order := OrderBook.get_order id b in
  Ok (match order with
      | Some o => negb (OrderStatus_eqb (Order.status o) FILLED)
                  && negb (OrderStatus_eqb (Order.status o) CANCELLED)
      | None => false
      end).

(** The clean-up loop, [n] passes from [read_idx] on: the entries kept are
    written back over the vector at [write_idx]. *)
Fixpoint compact (n read_idx write_idx : nat) (v : list Z) (b : OrderBook.t)
  : res (list Z * nat) :=
  match n with
  | O => Ok (v, write_idx)
  | S n =>
      match v !! read_idx with
      | None => Fault
      | Some id =>
          let* keep := still_active b id in
          if keep
          then compact n (S read_idx) (S write_idx) (<[write_idx := id]> v) b
          else compact n (S read_idx) write_idx v b
      end
  end.

(** The loop over the whole vector, then [active_orders_.resize(write_idx)]. *)
Definition cleanup (v : list Z) (b : OrderBook.t) : res (list Z) :=
  let* (v, write_idx) := compact (length v) 0 0 v b in
  Ok (take write_idx v).

(** [execute_action] up to the clean-up; the reward it returns is left out. *)
Definition execute_action (fuel : nat) (action : Action) (quantity : Z) (ag : t) : res t :=
  let best_bid := OrderBook.get_best_bid (orderbook_ ag) in
  let best_ask := OrderBook.get_best_ask (orderbook_ ag) in
  let* ag :=
    match action, best_bid, best_ask with
    | BUY_MARKET, _, Some ask => place fuel ask quantity BUY MARKET ag
    | SELL_MARKET, Some bid, _ => place fuel bid quantity SELL MARKET ag
    | BUY_LIMIT_AT_BID, Some bid, _ => place fuel bid quantity BUY LIMIT ag
    | SELL_LIMIT_AT_ASK, _, Some ask => place fuel ask quantity SELL LIMIT ag
    | BUY_LIMIT_AGGRESSIVE, Some bid, Some ask =>
        place fuel (aggressive_price bid ask) quantity BUY LIMIT ag
    | SELL_LIMIT_AGGRESSIVE, Some bid, Some ask =>
        place fuel (aggressive_price bid ask) quantity SELL LIMIT ag
    | CANCEL_ALL, _, _ =>
        let* b := cancel_all (active_orders_ ag) (orderbook_ ag) in
        Ok (mk b [] (action_count_ ag) (position_quantity ag) (total_trades_ ag))
    | _, _, _ => Ok ag
    end in
  let count := u64 (action_count_ ag + 1) in
  if count mod 10 =? 0 then
    let* v := cleanup (active_orders_ ag) (orderbook_ ag) in
    Ok (mk (orderbook_ ag) v count (position_quantity ag) (total_trades_ ag))
  else Ok (mk (orderbook_ ag) (active_orders_ ag) count
              (position_quantity ag) (total_trades_ ag)).
End RLAgent.

(** ** What the entry points do to a book *)

(** The steps by which matching changes a book: a write to the order cells,
    a write through a level pointer that keeps the level's price, a new empty
    level under an absent price, a level erased, a trade recorded and
    reported, an order update reported. *)
Inductive book_step : OrderBook.t -> OrderBook.t -> Prop :=
| step_cells m b : book_step b (OrderBook.with_cells m b)
| step_set s k l v b :
    LevelMap.find k (OrderBook.levels s b) = Some l ->
    PriceLevel.price v = PriceLevel.price l ->
    book_step b (OrderBook.with_levels s (LevelMap.set k v (OrderBook.levels s b)) b)
| step_insert s k b :
    LevelMap.find k (OrderBook.levels s b) = None ->
    book_step b
      (OrderBook.with_levels s
         (LevelMap.insert (OrderBook.before s) k (PriceLevel.new k) (OrderBook.levels s b)) b)
| step_erase s k b :
    book_step b (OrderBook.with_levels s (LevelMap.erase k (OrderBook.levels s b)) b)
| step_trade tr b :
    book_step b (OrderBook.notify_trade tr (OrderBook.update_market_statistics tr b))
| step_order_update o b : book_step b (OrderBook.notify_order_update o b).

Inductive book_steps : OrderBook.t -> OrderBook.t -> Prop :=
| steps_refl b : book_steps b b
| steps_cons b1 b2 b3 : book_step b1 b2 -> book_steps b2 b3 -> book_steps b1 b3.

(** The entries of a side come in the order of its comparison object, and
    each level sits under its own price. *)
Fixpoint side_sorted (before : Z -> Z -> bool) (m : LevelMap.t) : Prop :=
  match m with
  | [] => True
  | (k, l) :: rest =>
      PriceLevel.price l = k /\
      Forall (fun e => before k (fst e) = true) rest /\
      side_sorted before rest
  end.

Definition sides_sorted (b : OrderBook.t) : Prop :=
  side_sorted (OrderBook.before BUY) (OrderBook.bid_levels_ b) /\
  side_sorted (OrderBook.before SELL) (OrderBook.ask_levels_ b).

(** The last [n] entries of a sequence. *)
Definition last_n {A} (n : nat) (l : list A) : list A := skipn (length l - n) l.

(** The rolling trade window holds the prices and the quantities of the
    last [MAX_RECENT_TRADES] trades reported. *)
Definition window_ok (b : OrderBook.t) : Prop :=
  OrderBook.recent_trade_prices_ b
  = last_n MAX_RECENT_TRADES (map Trade.price (OrderBook.trades b)) /\
  OrderBook.recent_trade_quantities_ b
  = last_n MAX_RECENT_TRADES (map Trade.quantity (OrderBook.trades b)).

(** The free cells of a pool are distinct and lie in the blocks obtained. *)
Definition pool_ok (p : MemoryPool.t) : Prop :=
  NoDup (MemoryPool.free_list_ p) /\
  Forall (fun a => (a < MemoryPool.blocks_ p * MemoryPool.block_size_ p)%N)
         (MemoryPool.free_list_ p).

(** The book that [add_order] hands to the matching loop: the counter
    advanced, the new order in its cell [a] and in the index. *)
Definition entered (price quantity : Z) (side : Side) (type : OrderType) (a : addr)
    (pool : MemoryPool.t) (b : OrderBook.t) : OrderBook.t :=
  OrderBook.with_orders (<[OrderBook.next_order_id b := a]> (OrderBook.orders_ b))
    (OrderBook.with_cells
       (<[a := Order.new (OrderBook.next_order_id b) price quantity side type]>
          (OrderBook.cells b))
       (OrderBook.with_pool pool
          (OrderBook.with_next_id (u64 (OrderBook.next_order_id b + 1)) b))).

(** The book after an order has left the index and its cell has returned
    to the pool. *)
Definition released (id : Z) (a : addr) (b : OrderBook.t) : OrderBook.t :=
  OrderBook.with_pool (MemoryPool.deallocate a (OrderBook.order_pool_ b))
    (OrderBook.with_cells (delete a (OrderBook.cells b))
       (OrderBook.with_orders (delete id (OrderBook.orders_ b)) b)).

Definition no_state_event (e : Event) : Prop :=
  match e with StateEvent _ => False | _ => True end.

(** The ids in the index are ids handed out so far, and at most [n] were. *)
Definition ids_below (n : Z) (b : OrderBook.t) : Prop :=
  1 <= OrderBook.next_order_id b <= 1 + n /\
  forall j, is_Some (OrderBook.orders_ b !! j) -> 1 <= j < OrderBook.next_order_id b.


(** Where a cell that the pool holds or hands out comes from: the free
    list, or a block yet to be obtained. *)
Definition from_pool (p : MemoryPool.t) (x : addr) : Prop :=
  In x (MemoryPool.free_list_ p) \/
  (MemoryPool.blocks_ p * MemoryPool.block_size_ p <= x)%N.

(** The test of the agent's clean-up loop as a function of the book. *)
Definition active_in (b : OrderBook.t) (id : Z) : bool :=
  match order_status id b with
  | Some st => negb (OrderStatus_eqb st FILLED) && negb (OrderStatus_eqb st CANCELLED)
  | None => false
  end.

(** Every order in the index has its cell. *)
Definition index_closed (b : OrderBook.t) : Prop :=
  forall id a, OrderBook.orders_ b !! id = Some a -> is_Some (OrderBook.cells b !! a).

(** The quote that an action of the agent needs is missing. *)
Definition lacks_quote (action : RLAgent.Action) (b : OrderBook.t) : Prop :=
  match action with
  | RLAgent.HOLD => True
  | RLAgent.BUY_MARKET | RLAgent.SELL_LIMIT_AT_ASK => OrderBook.get_best_ask b = None
  | RLAgent.SELL_MARKET | RLAgent.BUY_LIMIT_AT_BID => OrderBook.get_best_bid b = None
  | RLAgent.BUY_LIMIT_AGGRESSIVE | RLAgent.SELL_LIMIT_AGGRESSIVE =>
      OrderBook.get_best_bid b = None \/ OrderBook.get_best_ask b = None
  | RLAgent.CANCEL_ALL => False
  end.

(** ** Well-formed books *)

(** An order without its links. *)
Definition strip (o : Order.t) : Order.t :=
  Order.with_prev None (Order.with_next None o).

(** The queues of a book: for each side and price, the cells linked at
    the level, head first; none where there is no level. *)
Definition queues : Type := Side -> Z -> list addr.

Definition upd (Q : queues) (s : Side) (k : Z) (q : list addr) : queues :=
  fun s' k' => if Side_eqb s' s && (k' =? k) then q else Q s' k'.

(** A cell linked at the level ([s], [k]): it is not the order being
    matched, it holds an order of that side and price with quantity left,
    and the index refers to it under the order's id. *)
Definition resting_ok (b : OrderBook.t) (inc : option addr) (s : Side) (k : Z) (a : addr)
  : Prop :=
  Some a <> inc /\
  exists o, OrderBook.cells b !! a = Some o /\
            Order.price o = k /\ Order.side o = s /\
            0 <= Order.filled_quantity o < Order.quantity o /\
            Order.quantity o < 2 ^ 64 /\
            OrderBook.orders_ b !! Order.id o = Some a.

(** The pool and the cells in use: the pool can grow, its free cells are
    distinct, and no free cell and no cell of a block yet to be obtained is
    in use. *)
Definition pool_sound (b : OrderBook.t) : Prop :=
  MemoryPool.block_size_ (OrderBook.order_pool_ b) <> 0%N /\
  pool_ok (OrderBook.order_pool_ b) /\
  forall x, from_pool (OrderBook.order_pool_ b) x -> OrderBook.cells b !! x = None.

(** The order types that the index of a book may hold: limit orders only,
    or any. *)
Definition limit_only (ty : OrderType) : Prop := ty = LIMIT.
Definition any_type (ty : OrderType) : Prop := True.

(** A book as the engine keeps it while no order that is in the index
    without resting is cancelled or modified.  [T] says which order types
    the index holds, [Q] which cells each level links, and [inc] is the
    order being matched, if any.  The levels are sorted; each level is a
    non-empty doubly linked list of the cells of its queue, and its
    aggregate and its count are those of the queue modulo 2^64 and 2^32;
    the cells of a queue hold orders of the level's side and price with
    quantity left; a limit order in the index with quantity left is in the
    queue of its side and price (an order of another type with quantity
    left is in the index without resting); the pool is sound; no bid level
    is at or above an ask level. *)
Record wf (T : OrderType -> Prop) (Q : queues) (inc : option addr) (b : OrderBook.t)
  : Prop := {
  wf_sorted : sides_sorted b;
  wf_level : forall s k,
    match LevelMap.find k (OrderBook.levels s b) with
    | Some l => level_inv (OrderBook.cells b) l (Q s k) /\ Q s k <> []
    | None => Q s k = []
    end;
  wf_resting : forall s k a, In a (Q s k) -> resting_ok b inc s k a;
  wf_index : forall i a,
    OrderBook.orders_ b !! i = Some a ->
    exists o, OrderBook.cells b !! a = Some o /\ Order.id o = i /\
              (Some a = inc \/ T (Order.type o)) /\
              (Order.type o = LIMIT -> Order.is_fully_filled o = false ->
               Some a = inc \/ In a (Q (Order.side o) (Order.price o)));
  wf_pool : pool_sound b;
  wf_uncrossed : forall kb ka, Q BUY kb <> [] -> Q SELL ka <> [] -> kb < ka;
  wf_filled : forall i a o,
    OrderBook.orders_ b !! i = Some a -> OrderBook.cells b !! a = Some o ->
    0 <= Order.filled_quantity o <= Order.quantity o
}.

(** The order under the id [i], if there is one, rests in the book or is
    filled: it is a limit order, or it has no quantity left.  (An order of
    another type that [add_order] left in the index with quantity left is
    linked at no level.) *)
Definition rests_or_filled (i : Z) (b : OrderBook.t) : Prop :=
  forall a o,
    OrderBook.orders_ b !! i = Some a -> OrderBook.cells b !! a = Some o ->
    Order.type o = LIMIT \/ Order.is_fully_filled o = true.

(** The number of orders resting on a side, by the counters of its levels. *)
Definition resting_count (m : LevelMap.t) : Z :=
  fold_right (fun e n => PriceLevel.order_count (snd e) + n) 0 m.

(** The calls of a session in which every order is a limit order with a
    quantity of 64 bits. *)
Definition limit_op (op : Op) : Prop :=
  match op with
  | Add _ q _ ty => ty = LIMIT /\ in_u64 q
  | Cancel _ => True
  | Modify _ _ q => in_u64 q
  end.

(** The order being matched, in its cell [a]: an order of side [s], price
    [pr] and type [ty], in the index, not filled beyond its quantity, that
    the loop has not cancelled or rejected. *)
Definition inc_ok (s : Side) (pr : Z) (ty : OrderType) (b : OrderBook.t) (a : addr)
    (io : Order.t) : Prop :=
  OrderBook.cells b !! a = Some io /\
  Order.side io = s /\ Order.price io = pr /\ Order.type io = ty /\
  0 <= Order.filled_quantity io <= Order.quantity io /\
  Order.quantity io < 2 ^ 64 /\
  Order.status io <> CANCELLED /\ Order.status io <> REJECTED /\
  OrderBook.orders_ b !! Order.id io = Some a.

(** The order being matched after the loop has stopped on it: an IOC order
    cancelled, or an FOK order rejected, with the quantity it has left. *)
Definition halted (ty : OrderType) (b : OrderBook.t) (a : addr) (io : Order.t) : Prop :=
  OrderBook.cells b !! a = Some io /\
  Order.is_fully_filled io = false /\
  OrderBook.orders_ b !! Order.id io = Some a /\
  (ty = IOC /\ Order.status io = CANCELLED \/ ty = FOK /\ Order.status io = REJECTED).

(** A bound on the passes of the matching loop that are left. *)
Definition potential (s : Side) (b : OrderBook.t) (io : Order.t) : nat :=
  Z.to_nat (resting_count (OrderBook.levels (OrderBook.opposite s) b))
  + (if Order.is_fully_filled io then 0 else 1).

(** The price at which [add_order] matches an order: for a market order the
    best price of the opposite side, if there is one; the price given
    otherwise. *)
Definition taken_price (side : Side) (type : OrderType) (price : Z) (b : OrderBook.t) : Z :=
  match type, OrderBook.levels (OrderBook.opposite side) b with
  | MARKET, (p, _) :: _ => p
  | _, _ => price
  end.

(** A trade reported for an order of side [s] and limit [pr]: a quantity
    above zero, at a price within the limit. *)
Definition fair_trade (s : Side) (pr : Z) (e : Event) : Prop :=
  match e with
  | TradeEvent t =>
      0 < Trade.quantity t /\
      match s with BUY => Trade.price t <= pr | SELL => pr <= Trade.price t end
  | OrderEvent _ => True
  | StateEvent _ => False
  end.

(** What a pass of the matching loop leaves on a well-formed book. *)
Definition pass_result (T : OrderType -> Prop) (Q : queues) (s : Side) (pr : Z)
    (ty : OrderType) (a : addr) (b : OrderBook.t) (io : Order.t) (again : bool)
    (b' : OrderBook.t) (Q' : queues) (io' : Order.t) : Prop :=
  (wf T Q' (Some a) b' /\
   (inc_ok s pr ty b' a io' \/ again = false /\ halted ty b' a io') /\
   Order.id io' = Order.id io /\ Order.quantity io' = Order.quantity io /\
   OrderBook.levels s b' = OrderBook.levels s b /\
   (forall k, Q' s k = Q s k) /\
   (forall k, Q' (OrderBook.opposite s) k <> [] -> Q (OrderBook.opposite s) k <> []) /\
   (again = true -> (potential s b' io' < potential s b io)%nat) /\
   (again = false ->
    Order.is_fully_filled io' = true \/
    (forall k, Q' (OrderBook.opposite s) k <> [] -> OrderBook.no_cross s pr k = true) \/
    halted ty b' a io') /\
   exists evs, OrderBook.events b' = OrderBook.events b ++ evs /\
               Forall (fair_trade s pr) evs).

(** An order of side [s] and price [pr] that is in the index with quantity
    left, in the cell [x]. *)
Definition live_at (b : OrderBook.t) (s : Side) (pr : Z) (x : addr) : Prop :=
  exists o, OrderBook.cells b !! x = Some o /\
            OrderBook.orders_ b !! Order.id o = Some x /\
            Order.side o = s /\ Order.price o = pr /\
            Order.is_fully_filled o = false.

(** * Verification *)

(** ** Machine arithmetic *)

Lemma u64_small z : in_u64 z -> u64 z = z.
Proof. unfold in_u64, u64. intros H. apply Z.mod_small. lia. Qed.

Lemma u32_small z : 0 <= z < 2 ^ 32 -> u32 z = z.
Proof. unfold u32. intros H. apply Z.mod_small. lia. Qed.

Lemma s64_small z : in_s64 z -> s64 z = z.
Proof. unfold in_s64, s64. intros H. rewrite Z.mod_small; lia. Qed.

Lemma u64_add_l a b : u64 (u64 a + b) = u64 (a + b).
Proof. unfold u64. apply Zplus_mod_idemp_l. Qed.

Lemma u64_add_r a b : u64 (a + u64 b) = u64 (a + b).
Proof. unfold u64. apply Zplus_mod_idemp_r. Qed.

Lemma u64_sub_l a b : u64 (u64 a - b) = u64 (a - b).
Proof. unfold u64. apply Zminus_mod_idemp_l. Qed.

Lemma u64_sub_r a b : u64 (a - u64 b) = u64 (a - b).
Proof. unfold u64. apply Zminus_mod_idemp_r. Qed.

Lemma u32_add_l a b : u32 (u32 a + b) = u32 (a + b).
Proof. unfold u32. apply Zplus_mod_idemp_l. Qed.

Lemma u32_sub_l a b : u32 (u32 a - b) = u32 (a - b).
Proof. unfold u32. apply Zminus_mod_idemp_l. Qed.

(** ** Memory steps and simplification tactics *)

Lemma allocate_next_cell p a :
  MemoryPool.next_cell p = Some a ->
  exists p', MemoryPool.allocate p = Ok (a, p').
Proof.
  unfold MemoryPool.next_cell, MemoryPool.allocate.
  destruct (MemoryPool.free_list_ (MemoryPool.refill p)) as [|x rest]; [discriminate|].
  intros [= ->]. eexists. reflexivity.
Qed.

Lemma load_ok (m : memory) a o : m !! a = Some o -> load m a = Ok o.
Proof. unfold load. intros ->. reflexivity. Qed.

Lemma store_ok f (m : memory) a o : m !! a = Some o -> store f a m = Ok (<[a := f o]> m).
Proof. unfold store. intros H. rewrite (load_ok _ _ _ H). reflexivity. Qed.

Ltac book_simpl :=
  repeat (progress
    (unfold OrderBook.with_bids, OrderBook.with_asks, OrderBook.with_orders,
       OrderBook.with_pool, OrderBook.with_cells, OrderBook.with_recent,
       OrderBook.with_next_id, OrderBook.with_events, OrderBook.notify_trade,
       OrderBook.notify_order_update, OrderBook.notify in *;
     cbn [OrderBook.bid_levels_ OrderBook.ask_levels_ OrderBook.orders_
          OrderBook.order_pool_ OrderBook.cells OrderBook.recent_trade_prices_
          OrderBook.recent_trade_quantities_ OrderBook.next_order_id OrderBook.events
          OrderBook.levels OrderBook.with_levels OrderBook.opposite
          rbind fst snd] in *)).

Ltac order_simpl :=
  unfold Order.is_fully_filled, Order.remaining_quantity, Order.new, Order.with_price,
    Order.with_filled, Order.with_status, Order.with_next, Order.with_prev in *;
  cbn [Order.id Order.price Order.quantity Order.filled_quantity Order.side Order.type
       Order.status Order.next Order.prev] in *.

Ltac solve_lookup :=
  repeat first [ rewrite lookup_insert_eq | rewrite lookup_insert_ne by congruence ];
  first [ reflexivity | eassumption ].

Ltac map_lookup :=
  repeat first [ rewrite lookup_insert_eq | rewrite lookup_insert_ne by congruence
               | rewrite lookup_delete_eq | rewrite lookup_delete_ne by congruence ].

Ltac mem_step :=
  unfold set_next, set_prev, set_status, set_price, set_filled;
  match goal with
  | |- context [load ?m ?a] => erewrite (load_ok m a) by solve_lookup
  | |- context [store ?f ?a ?m] => erewrite (store_ok f m a) by solve_lookup
  end;
  cbn [rbind].

Ltac level_simpl :=
  unfold PriceLevel.with_head, PriceLevel.with_tail, PriceLevel.with_totals,
    PriceLevel.new, PriceLevel.is_empty in *;
  cbn [PriceLevel.price PriceLevel.total_quantity PriceLevel.order_count
       PriceLevel.head PriceLevel.tail] in *.

(** ** Level maps *)

Lemma find_insert_absent before k v m :
  LevelMap.find k m = None ->
  LevelMap.find k (LevelMap.insert before k v m) = Some v.
Proof.
  induction m as [|[k' v'] m IH]; simpl.
  - intros _. rewrite Z.eqb_refl. reflexivity.
  - destruct (k' =? k) eqn:Hk; [discriminate|]. intros Hm.
    destruct (before k k'); simpl.
    + rewrite Z.eqb_refl. reflexivity.
    + rewrite Hk. apply IH, Hm.
Qed.

Lemma find_set_present k v m :
  LevelMap.find k m <> None ->
  LevelMap.find k (LevelMap.set k v m) = Some v.
Proof.
  induction m as [|[k' v'] m IH]; simpl; [congruence|].
  destruct (k' =? k) eqn:Hk; simpl; rewrite Hk; [reflexivity|]. exact IH.
Qed.

Lemma set_set k v w m : LevelMap.set k w (LevelMap.set k v m) = LevelMap.set k w m.
Proof.
  induction m as [|[k' v'] m IH]; simpl; [reflexivity|].
  destruct (k' =? k) eqn:Hk; simpl; rewrite Hk; [reflexivity|]. now rewrite IH.
Qed.

Lemma set_same k v m : LevelMap.find k m = Some v -> LevelMap.set k v m = m.
Proof.
  induction m as [|[k' v'] m IH]; simpl; [reflexivity|].
  destruct (k' =? k) eqn:Hk; [intros [= ->]; reflexivity|].
  intros H. now rewrite IH.
Qed.

Lemma erase_set_insert_absent before k v w m :
  LevelMap.find k m = None ->
  LevelMap.erase k (LevelMap.set k w (LevelMap.insert before k v m)) = m.
Proof.
  induction m as [|[k' v'] m IH]; simpl.
  - intros _. rewrite Z.eqb_refl. simpl. rewrite Z.eqb_refl. reflexivity.
  - destruct (k' =? k) eqn:Hk; [discriminate|]. intros Hm.
    destruct (before k k'); simpl.
    + rewrite Z.eqb_refl. simpl. rewrite Z.eqb_refl. reflexivity.
    + rewrite Hk. simpl. rewrite Hk. now rewrite IH.
Qed.

(** ** Queries *)

Section Queries.
Variable b : OrderBook.t.

(** C8, amended.  With both sides present and a sum that fits the price
    type, the mid-price is the sum divided by two with the quotient
    truncated toward zero: the floor for a sum that is not negative, and
    one above the floor (the higher midpoint) for a negative odd sum. *)
Theorem mid_price_truncates (bid ask : Z) :
  OrderBook.get_best_bid b = Some bid ->
  OrderBook.get_best_ask b = Some ask ->
  in_s64 (bid + ask) ->
  OrderBook.get_mid_price b = Some (Z.quot (bid + ask) 2) /\
  (0 <= bid + ask -> Z.quot (bid + ask) 2 = (bid + ask) / 2) /\
  (bid + ask < 0 -> Z.odd (bid + ask) = true ->
   Z.quot (bid + ask) 2 = (bid + ask) / 2 + 1) /\
  (bid + ask < 0 -> Z.odd (bid + ask) = false ->
   Z.quot (bid + ask) 2 = (bid + ask) / 2).
Proof.
  intros Hb Ha Hr. unfold OrderBook.get_mid_price. rewrite Hb, Ha.
  rewrite (s64_small _ Hr). split; [reflexivity|].
  set (n := bid + ask). clearbody n. clear.
  split; [|split].
  - intros Hn. apply Z.quot_div_nonneg; lia.
  - intros Hn Ho. pose proof (Zmod_odd n) as Hm. rewrite Ho in Hm.
    Z.to_euclidean_division_equations. lia.
  - intros Hn Ho. pose proof (Zmod_odd n) as Hm. rewrite Ho in Hm.
    Z.to_euclidean_division_equations. lia.
Qed.

(** C9.  Where no level exists at a price, the volume query answers 0; it
    answers 0 as well on the book in which an empty level has just been
    created at that price, so the answer does not tell the two apart. *)
Theorem volume_at_absent_price (price : Z) (side : Side) :
  LevelMap.find price (OrderBook.levels side b) = None ->
  OrderBook.get_volume_at_price price side b = 0 /\
  (let b' := OrderBook.get_or_create_level price side b in
   LevelMap.find price (OrderBook.levels side b') = Some (PriceLevel.new price) /\
   OrderBook.get_volume_at_price price side b' = 0).
Proof.
  intros Hnone. unfold OrderBook.get_volume_at_price, OrderBook.get_or_create_level.
  rewrite Hnone. split; [reflexivity|]. cbv zeta.
  destruct side; simpl in *; rewrite (find_insert_absent _ _ _ _ Hnone);
    split; reflexivity.
Qed.

(** C10.  When a side of the book is empty, the snapshot reports that
    side's best price as 0, and spread and mid-price as 0; a book whose
    best bid rests at the price 0 reports the same best bid. *)
Theorem snapshot_of_empty_side :
  OrderBook.bid_levels_ b = [] \/ OrderBook.ask_levels_ b = [] ->
  let ms := OrderBook.get_market_state b in
  (OrderBook.bid_levels_ b = [] -> MarketState.best_bid ms = 0) /\
  (OrderBook.ask_levels_ b = [] -> MarketState.best_ask ms = 0) /\
  MarketState.spread ms = 0 /\
  MarketState.mid_price ms = 0%Q /\
  observe (fun b' => (OrderBook.get_best_bid b',
                      MarketState.best_bid (OrderBook.get_market_state b')))
          (session [Add 0 5 BUY LIMIT]) = Some (Some 0, 0).
Proof.
  intros H ms. subst ms. unfold OrderBook.get_market_state,
    OrderBook.get_best_bid, OrderBook.get_best_ask.
  split; [|split; [|split; [|split]]].
  - intros ->. reflexivity.
  - intros ->. destruct (OrderBook.bid_levels_ b) as [|[? ?] ?]; reflexivity.
  - destruct H as [-> | ->]; [reflexivity|].
    destruct (OrderBook.bid_levels_ b) as [|[? ?] ?]; reflexivity.
  - destruct H as [-> | ->]; [reflexivity|].
    destruct (OrderBook.bid_levels_ b) as [|[? ?] ?]; reflexivity.
  - vm_compute. reflexivity.
Qed.
End Queries.

(** ** Submitting *)

(** The market-price block only rewrites the price of the new cell. *)
Lemma use_best_price_new side type a b o :
  OrderBook.cells b !! a = Some o ->
  exists p,
    OrderBook.use_best_price side type a b
    = Ok (OrderBook.with_cells (<[a := Order.with_price p o]> (OrderBook.cells b)) b) /\
    (type = LIMIT -> p = Order.price o).
Proof.
  intros Ha. unfold OrderBook.use_best_price.
  assert (Hid : OrderBook.with_cells
                  (<[a := Order.with_price (Order.price o) o]> (OrderBook.cells b)) b = b).
  { destruct b, o. book_simpl. unfold Order.with_price. cbn.
    rewrite insert_id; [reflexivity | assumption]. }
  destruct type, side,
    (OrderBook.ask_levels_ b) as [|[pa la] asks], (OrderBook.bid_levels_ b) as [|[pb lb] bids];
    try (exists (Order.price o); rewrite Hid; split; [reflexivity | reflexivity]);
    (eexists; unfold set_price; rewrite (store_ok _ _ _ _ Ha); cbn [rbind];
     split; [reflexivity | discriminate]).
Qed.

(** C6, amended.  A submit with quantity 0 is not refused: it returns the
    next identifier and enters the order in the index with status [NEW];
    it emits no trade and leaves both sides of the book as they were. *)
Theorem zero_quantity_submit (b : OrderBook.t) (fuel : nat) (price : Z) (side : Side)
    (type : OrderType) (a : addr) :
  (0 < fuel)%nat ->
  MemoryPool.next_cell (OrderBook.order_pool_ b) = Some a ->
  exists b',
    OrderBook.add_order fuel price 0 side type b = Ok (OrderBook.next_order_id b, b') /\
    OrderBook.trades b' = OrderBook.trades b /\
    OrderBook.bid_levels_ b' = OrderBook.bid_levels_ b /\
    OrderBook.ask_levels_ b' = OrderBook.ask_levels_ b /\
    OrderBook.orders_ b' = <[OrderBook.next_order_id b := a]> (OrderBook.orders_ b) /\
    order_status (OrderBook.next_order_id b) b' = Some NEW.
Proof.
  intros Hfuel Hnext. destruct fuel as [|fuel]; [lia|].
  destruct b as [bids asks orders pool0 cells rp rq nid evs].
  unfold OrderBook.add_order. book_simpl.
  destruct (allocate_next_cell _ _ Hnext) as (pool & Halloc).
  rewrite Halloc. book_simpl.
  edestruct (use_best_price_new side type a
              (OrderBook.mk bids asks (<[nid:=a]> orders) pool
                 (<[a:=Order.new nid price 0 side type]> cells) rp rq (u64 (nid + 1)) evs))
    as (p & -> & _).
  { book_simpl. apply lookup_insert_eq. }
  book_simpl. rewrite insert_insert_eq.
  unfold OrderBook.match_order. book_simpl.
  rewrite (load_ok _ _ _ (lookup_insert_eq _ _ _)). book_simpl.
  cbn [OrderBook.match_loop]. unfold OrderBook.match_iteration. book_simpl.
  rewrite (load_ok _ _ _ (lookup_insert_eq _ _ _)). book_simpl.
  cbn [Order.is_fully_filled Order.with_price Order.new Order.quantity Order.filled_quantity
       Z.leb Z.compare rbind].
  unfold OrderBook.rest_or_release. book_simpl.
  rewrite (load_ok _ _ _ (lookup_insert_eq _ _ _)). book_simpl.
  cbn [Order.is_fully_filled Order.quantity Order.filled_quantity Order.status
       Z.leb Z.compare negb andb orb OrderStatus_eqb rbind].
  eexists. split; [reflexivity|].
  unfold OrderBook.trades, order_status. book_simpl.
  rewrite omap_app, !lookup_insert_eq. cbn [omap mapM mbind option_bind list_omap].
  rewrite app_nil_r. repeat split.
Qed.

Lemma use_best_price_limit side a b : OrderBook.use_best_price side LIMIT a b = Ok b.
Proof. reflexivity. Qed.

Lemma no_cross_true s p q : ~ crosses s p q -> OrderBook.no_cross s p q = true.
Proof. destruct s; unfold crosses, OrderBook.no_cross; lia. Qed.


(** A non-crossing order leaves the matching loop at once. *)
Lemma match_order_no_cross fuel a b o :
  OrderBook.cells b !! a = Some o ->
  non_crossing (Order.side o) (Order.price o) b ->
  OrderBook.match_order (S fuel) a b = Ok b.
Proof.
  intros Ha Hnc. unfold OrderBook.match_order. rewrite (load_ok _ _ _ Ha). cbn [rbind].
  cbn [OrderBook.match_loop]. unfold OrderBook.match_iteration.
  rewrite (load_ok _ _ _ Ha). cbn [rbind].
  destruct (Order.is_fully_filled o); [reflexivity|].
  unfold non_crossing in Hnc.
  destruct (OrderBook.levels (OrderBook.opposite (Order.side o)) b) as [|[k l] rest];
    [reflexivity|].
  rewrite (no_cross_true _ _ _ Hnc). reflexivity.
Qed.


(** *** One order appended to a level and unlinked again *)

Lemma add_order_at_tail a o tl ot l (m : memory) :
  m !! a = Some o -> Order.next o = None ->
  PriceLevel.tail l = Some tl -> tl <> a -> m !! tl = Some ot ->
  PriceLevel.add_order a l m
  = Ok (PriceLevel.mk (PriceLevel.price l)
          (u64 (PriceLevel.total_quantity l + Order.remaining_quantity o))
          (u32 (PriceLevel.order_count l + 1))
          (PriceLevel.head l) (Some a),
        <[a := Order.with_prev (Some tl) o]> (<[tl := Order.with_next (Some a) ot]> m)).
Proof.
  intros Ha Hn Htl Hne Hot. unfold PriceLevel.add_order. rewrite Htl.
  repeat mem_step. level_simpl. order_simpl. rewrite Hn, insert_insert_eq.
  reflexivity.
Qed.

Lemma add_order_first a o l (m : memory) :
  m !! a = Some o -> Order.next o = None -> Order.prev o = None ->
  PriceLevel.tail l = None ->
  PriceLevel.add_order a l m
  = Ok (PriceLevel.mk (PriceLevel.price l)
          (u64 (PriceLevel.total_quantity l + Order.remaining_quantity o))
          (u32 (PriceLevel.order_count l + 1))
          (Some a) (Some a), m).
Proof.
  intros Ha Hn Hp Htl. unfold PriceLevel.add_order. rewrite Htl.
  repeat mem_step. level_simpl. order_simpl.
  rewrite insert_insert_eq.
  rewrite (insert_id m a); [reflexivity|].
  rewrite Ha. destruct o; cbn in *; subst; reflexivity.
Qed.

Lemma remove_order_at_tail a o tl ot l (m : memory) :
  m !! a = Some o -> Order.next o = None -> Order.prev o = Some tl ->
  tl <> a -> m !! tl = Some ot ->
  PriceLevel.remove_order a l m
  = Ok (PriceLevel.mk (PriceLevel.price l)
          (u64 (PriceLevel.total_quantity l - Order.remaining_quantity o))
          (u32 (PriceLevel.order_count l - 1))
          (PriceLevel.head l) (Some tl),
        <[a := Order.with_prev None o]> (<[tl := Order.with_next None ot]> m)).
Proof.
  intros Ha Hn Hp Hne Hot. unfold PriceLevel.remove_order.
  mem_step. rewrite Hp. mem_step. mem_step. rewrite Hn. cbn [rbind].
  repeat mem_step. level_simpl. order_simpl. rewrite Hn, Hp, insert_insert_eq.
  reflexivity.
Qed.

Lemma remove_order_only a o l (m : memory) :
  m !! a = Some o -> Order.next o = None -> Order.prev o = None ->
  PriceLevel.remove_order a l m
  = Ok (PriceLevel.mk (PriceLevel.price l)
          (u64 (PriceLevel.total_quantity l - Order.remaining_quantity o))
          (u32 (PriceLevel.order_count l - 1))
          None None, m).
Proof.
  intros Ha Hn Hp. unfold PriceLevel.remove_order.
  mem_step. rewrite Hp. cbn [rbind]. mem_step. rewrite Hn. cbn [rbind].
  repeat mem_step. level_simpl. order_simpl. rewrite ?Hn, ?Hp, insert_insert_eq.
  rewrite (insert_id m a); [reflexivity|].
  rewrite Ha. destruct o; cbn in *; subst; reflexivity.
Qed.

(** The round trip on a well-formed book.  Where the level at the price, if
    there is one, is as the engine keeps levels between calls, a limit order
    that does not cross, submitted and then cancelled by the identifier
    returned, leaves the book as it was: the same levels with the same
    aggregates, counts and queue ends, the same order index and the same
    order cells; no trade is emitted. *)
Theorem submit_then_cancel_restores (b : OrderBook.t) (fuel : nat) (price quantity : Z)
    (side : Side) :
  (0 < fuel)%nat ->
  pool_fresh b ->
  OrderBook.orders_ b !! OrderBook.next_order_id b = None ->
  non_crossing side price b ->
  (forall l, LevelMap.find price (OrderBook.levels side b) = Some l ->
             level_closed (OrderBook.cells b) l) ->
  exists id b1 b2,
    OrderBook.add_order fuel price quantity side LIMIT b = Ok (id, b1) /\
    OrderBook.cancel_order id b1 = Ok (true, b2) /\
    OrderBook.bid_levels_ b2 = OrderBook.bid_levels_ b /\
    OrderBook.ask_levels_ b2 = OrderBook.ask_levels_ b /\
    OrderBook.orders_ b2 = OrderBook.orders_ b /\
    OrderBook.cells b2 = OrderBook.cells b /\
    OrderBook.trades b2 = OrderBook.trades b.
Proof.
  intros Hfuel (a & Hnext & Hfresh) Hid Hnc Hlevel.
  destruct fuel as [|fuel]; [lia|].
  destruct b as [bids asks orders pool0 cells rp rq nid evs]. book_simpl.
  destruct (allocate_next_cell _ _ Hnext) as (pool & Halloc).
  unfold OrderBook.add_order. book_simpl. rewrite Halloc. book_simpl.
  rewrite use_best_price_limit. book_simpl.
  erewrite match_order_no_cross;
    [ | book_simpl; apply lookup_insert_eq
      | destruct side; exact Hnc ].
  book_simpl. unfold OrderBook.rest_or_release. book_simpl.
  rewrite (load_ok _ _ _ (lookup_insert_eq _ _ _)). book_simpl.
  unfold Order.is_fully_filled at 1.
  cbn [Order.new Order.quantity Order.filled_quantity Order.status
       OrderStatus_eqb OrderType_eqb negb andb orb].
  destruct (quantity <=? 0) eqn:Hq; cbn [negb andb orb].
  - (* nothing to rest *)
    do 3 eexists. split; [reflexivity|].
    unfold OrderBook.cancel_order. book_simpl.
    rewrite lookup_insert_eq.
    rewrite (load_ok _ _ _ (lookup_insert_eq _ _ _)). book_simpl.
    unfold Order.is_fully_filled at 1.
    cbn [Order.new Order.quantity Order.filled_quantity].
    rewrite Hq. cbn [negb]. book_simpl.
    unfold set_status. rewrite (store_ok _ _ _ _ (lookup_insert_eq _ _ _)). book_simpl.
    rewrite (load_ok _ _ _ (lookup_insert_eq _ _ _)). book_simpl.
    split; [reflexivity|]. book_simpl.
    rewrite insert_insert_eq, !delete_insert_id by assumption.
    unfold OrderBook.trades. book_simpl. rewrite !omap_app. cbn. rewrite !app_nil_r.
    repeat split.
  - (* the order rests, then is cancelled *)
    unfold OrderBook.get_or_create_level, OrderBook.on_level.
    destruct side; book_simpl;
      match type of Hlevel with
      | forall l, LevelMap.find price ?lv = Some l -> _ =>
          destruct (LevelMap.find price lv) as [l|] eqn:Hf
      end; book_simpl.
    1, 3: rewrite Hf;
      destruct (Hlevel l eq_refl) as (Htq & Hcnt & tl & ot & Htl & Hot & Hnx);
      assert (tl <> a) by congruence;
      (erewrite add_order_at_tail;
         [ | solve_lookup | reflexivity | eassumption | assumption | solve_lookup ]).
    3, 4: rewrite (find_insert_absent _ _ _ _ Hf);
      (erewrite add_order_first;
         [ | solve_lookup | reflexivity | reflexivity | reflexivity ]).
    all: book_simpl; mem_step; book_simpl;
      do 3 eexists; (split; [reflexivity|]);
      unfold OrderBook.cancel_order;
      book_simpl; rewrite lookup_insert_eq; mem_step;
      unfold Order.is_fully_filled at 1; order_simpl; rewrite Hq; cbn [negb];
      unfold OrderBook.get_or_create_level, OrderBook.on_level; book_simpl;
      rewrite !find_set_present by (rewrite ?find_insert_absent; congruence); book_simpl;
      rewrite !find_set_present by (rewrite ?find_insert_absent; congruence); book_simpl.
    1, 2: (erewrite remove_order_at_tail;
         [ | solve_lookup | reflexivity | reflexivity | assumption | solve_lookup ]).
    3, 4: (erewrite remove_order_only; [ | solve_lookup | reflexivity | reflexivity ]).
    all: book_simpl; mem_step; order_simpl; rewrite set_set;
      unfold OrderBook.remove_level_if_empty; book_simpl;
      rewrite find_set_present by (rewrite ?find_insert_absent; congruence); level_simpl;
      rewrite u32_sub_l, u64_sub_l.
    1, 2: replace (PriceLevel.order_count l + 1 - 1) with (PriceLevel.order_count l) by lia;
      replace (PriceLevel.total_quantity l + u64 (quantity - 0) - u64 (quantity - 0))
        with (PriceLevel.total_quantity l) by lia;
      rewrite u32_small, u64_small by (assumption || lia);
      replace (PriceLevel.order_count l =? 0) with false by lia;
      replace (PriceLevel.mk (PriceLevel.price l) (PriceLevel.total_quantity l)
                 (PriceLevel.order_count l) (PriceLevel.head l) (Some tl)) with l
        by (destruct l; cbn in *; congruence);
      rewrite (set_same _ _ _ Hf).
    3, 4: replace (0 + 1 - 1) with 0 by lia;
      replace (0 + u64 (quantity - 0) - u64 (quantity - 0)) with 0 by lia;
      change (u32 0 =? 0) with true; cbv iota;
      rewrite (erase_set_insert_absent _ _ _ _ _ Hf).
    all: book_simpl; repeat mem_step; book_simpl;
      (split; [reflexivity|]); book_simpl;
      unfold OrderBook.trades; book_simpl; rewrite !omap_app; cbn; rewrite !app_nil_r;
      repeat split; try (apply delete_insert_id; assumption).
    1, 2: apply map_eq; intros i;
      (destruct (decide (i = a)) as [->|Hia];
       [ map_lookup; congruence
       | destruct (decide (i = tl)) as [->|Hit]; map_lookup; [|reflexivity];
         rewrite Hot; destruct ot; cbn in *; congruence ]).
    all: rewrite insert_insert_eq; apply delete_insert_id; assumption.
Qed.

(** ** Doubly linked segments *)

Lemma seg_last_in (m : memory) q : forall p hd last nx,
  seg m p hd last nx q -> q <> [] -> exists z, last = Some z /\ In z q.
Proof.
  induction q as [|a q IH]; intros p hd last nx H Hne; [congruence|].
  destruct H as (_ & o & _ & _ & Hq).
  destruct q as [|b q].
  - destruct Hq as [_ ->]. exists a. split; [reflexivity | left; reflexivity].
  - destruct (IH _ _ _ _ Hq) as (z & Hz & Hin); [discriminate|].
    exists z. split; [exact Hz | right; exact Hin].
Qed.

Lemma seg_empty_last (m : memory) p hd last nx q :
  seg m p hd last nx q -> last = None -> p = None -> q = [].
Proof.
  intros H Hl Hp. destruct q as [|a q]; [reflexivity|].
  destruct (seg_last_in _ _ _ _ _ _ H) as (z & Hz & _); congruence.
Qed.

(** Cells of the segment keep their links: the segment stays. *)
Lemma seg_frame (m m' : memory) q : forall p hd last nx,
  seg m p hd last nx q ->
  (forall x o, In x q -> m !! x = Some o ->
     exists o', m' !! x = Some o' /\ Order.prev o' = Order.prev o /\
                Order.next o' = Order.next o) ->
  seg m' p hd last nx q.
Proof.
  induction q as [|a q IH]; intros p hd last nx H Hm; [exact H|].
  destruct H as (Hhd & o & Ho & Hp & Hq).
  destruct (Hm a o (or_introl eq_refl) Ho) as (o' & Ho' & Hp' & Hn').
  split; [exact Hhd|]. exists o'. repeat split; [exact Ho' | congruence |].
  rewrite Hn'. apply IH; [exact Hq|].
  intros x ox Hin. apply Hm. right. exact Hin.
Qed.

(** The [next] link of the last cell is redirected to [nx']. *)
Lemma seg_set_end (m m' : memory) nx' q : forall p hd last nx,
  seg m p hd last nx q -> NoDup q ->
  (forall x o, In x q -> m !! x = Some o ->
     exists o', m' !! x = Some o' /\ Order.prev o' = Order.prev o /\
                Order.next o' = if decide (last = Some x) then nx' else Order.next o) ->
  seg m' p (match q with [] => nx' | _ => hd end) last nx' q.
Proof.
  induction q as [|a q IH]; intros p hd last nx H Hnd Hm.
  - destruct H as [_ ->]. split; reflexivity.
  - destruct H as (Hhd & o & Ho & Hp & Hq).
    destruct (Hm a o (or_introl eq_refl) Ho) as (o' & Ho' & Hp' & Hn').
    apply NoDup_cons in Hnd as [Hna Hnd].
    split; [exact Hhd|]. exists o'. repeat split; [exact Ho' | congruence |].
    destruct q as [|b q].
    + destruct Hq as [_ ->]. rewrite decide_True in Hn' by reflexivity.
      rewrite Hn'. split; reflexivity.
    + destruct (seg_last_in _ _ _ _ _ _ Hq) as (z & Hz & Hin); [discriminate|].
      rewrite decide_False in Hn'.
      2:{ rewrite Hz. intros [= ->]. apply Hna. apply list_elem_of_In. exact Hin. }
      rewrite Hn'. apply (IH _ _ _ _ Hq Hnd).
      intros x ox Hx. apply Hm. right. exact Hx.
Qed.

(** The [prev] link of the first cell is redirected to [p']. *)
Lemma seg_set_start (m m' : memory) p' q : forall p hd last nx,
  seg m p hd last nx q -> NoDup q ->
  (forall x o, In x q -> m !! x = Some o ->
     exists o', m' !! x = Some o' /\ Order.next o' = Order.next o /\
                Order.prev o' = if decide (hd = Some x) then p' else Order.prev o) ->
  seg m' p' hd (match q with [] => p' | _ => last end) nx q.
Proof.
  intros p hd last nx H Hnd Hm. destruct q as [|a q].
  - destruct H as [-> _]. split; reflexivity.
  - destruct H as (Hhd & o & Ho & Hp & Hq).
    destruct (Hm a o (or_introl eq_refl) Ho) as (o' & Ho' & Hn' & Hp').
    apply NoDup_cons in Hnd as [Hna Hnd].
    rewrite decide_True in Hp' by exact Hhd.
    split; [exact Hhd|]. exists o'. repeat split; [exact Ho' | exact Hp' |].
    rewrite Hn'. apply (seg_frame m); [exact Hq|].
    intros x ox Hx Hox. destruct (Hm x ox (or_intror Hx) Hox) as (ox' & ? & ? & Hpx).
    exists ox'. repeat split; try assumption.
    rewrite decide_False in Hpx; [exact Hpx|].
    rewrite Hhd. intros [= ->]. apply Hna. apply list_elem_of_In. exact Hx.
Qed.

Lemma seg_app (m : memory) q1 q2 : forall p hd mid l1 last nx,
  seg m p hd l1 mid q1 -> seg m l1 mid last nx q2 ->
  seg m p hd last nx (q1 ++ q2).
Proof.
  induction q1 as [|a q1 IH]; intros p hd mid l1 last nx H1 H2.
  - destruct H1 as [-> ->]. exact H2.
  - destruct H1 as (Hhd & o & Ho & Hp & Hq).
    split; [exact Hhd|]. exists o. repeat split; try assumption.
    eapply IH; eassumption.
Qed.

Lemma seg_split (m : memory) q1 q2 : forall p hd last nx,
  seg m p hd last nx (q1 ++ q2) ->
  exists mid l1, seg m p hd l1 mid q1 /\ seg m l1 mid last nx q2.
Proof.
  induction q1 as [|a q1 IH]; intros p hd last nx H.
  - exists hd, p. split; [split; reflexivity | exact H].
  - destruct H as (Hhd & o & Ho & Hp & Hq).
    destruct (IH _ _ _ _ Hq) as (mid & l1 & H1 & H2).
    exists mid, l1. split; [|exact H2].
    split; [exact Hhd|]. exists o. repeat split; assumption.
Qed.

Lemma seg_traverse (m : memory) q : forall p hd last,
  seg m p hd last None q -> traverse (length q) m hd = Some q.
Proof.
  induction q as [|a q IH]; intros p hd last H.
  - destruct H as [-> _]. reflexivity.
  - destruct H as (-> & o & Ho & Hp & Hq). cbn [length traverse].
    rewrite Ho, (IH _ _ _ Hq). reflexivity.
Qed.

(** ** The level invariant *)


Lemma sum_remaining_app (m : memory) q1 q2 :
  sum_remaining m (q1 ++ q2) = sum_remaining m q1 + sum_remaining m q2.
Proof. induction q1 as [|a q1 IH]; cbn [app sum_remaining]; [reflexivity | lia]. Qed.

Lemma sum_remaining_ext (m m' : memory) q :
  (forall x, In x q ->
     (fun o => Order.quantity o - Order.filled_quantity o) <$> m' !! x
     = (fun o => Order.quantity o - Order.filled_quantity o) <$> m !! x) ->
  sum_remaining m' q = sum_remaining m q.
Proof.
  induction q as [|a q IH]; intros H; cbn [sum_remaining]; [reflexivity|].
  rewrite IH by (intros x Hx; apply H; right; exact Hx).
  specialize (H a (or_introl eq_refl)).
  destruct (m' !! a), (m !! a); cbn in H; congruence.
Qed.

Lemma seg_cells (m : memory) q : forall p hd last nx x,
  seg m p hd last nx q -> In x q -> is_Some (m !! x).
Proof.
  induction q as [|a q IH]; intros p hd last nx x H Hx; [destruct Hx|].
  destruct H as (_ & o & Ho & _ & Hq). destruct Hx as [<- | Hx]; [eauto|].
  eapply IH; eassumption.
Qed.

Lemma remove_first_split a q1 q2 :
  ~ In a q1 -> remove_first a (q1 ++ a :: q2) = q1 ++ q2.
Proof.
  induction q1 as [|x q1 IH]; intros Hn; cbn [app remove_first].
  - rewrite N.eqb_refl. reflexivity.
  - destruct (N.eqb_spec x a) as [->|_]; [exfalso; apply Hn; left; reflexivity|].
    rewrite IH; [reflexivity|]. intros H. apply Hn. right. exact H.
Qed.

Lemma in_split_first (a : addr) q :
  In a q -> exists q1 q2, q = q1 ++ a :: q2 /\ ~ In a q1.
Proof.
  induction q as [|x q IH]; intros H; [destruct H|].
  destruct (N.eq_dec x a) as [->|Hne].
  - exists [], q. split; [reflexivity | intros []].
  - destruct H as [H|H]; [congruence|].
    destruct (IH H) as (q1 & q2 & -> & Hn). exists (x :: q1), q2.
    split; [reflexivity|]. intros [E|E]; [congruence | exact (Hn E)].
Qed.

(** *** add_order *)

Lemma add_order_keeps_inv (m : memory) l q a :
  level_inv m l q -> is_Some (m !! a) -> ~ In a q ->
  exists l' m',
    PriceLevel.add_order a l m = Ok (l', m') /\
    level_inv m' l' (q ++ [a]) /\
    PriceLevel.price l' = PriceLevel.price l /\
    (forall x, is_Some (m !! x) -> is_Some (m' !! x)).
Proof.
  intros (Hseg & Hnd & Htot & Hcnt) [o Ho] Hna.
  assert (Hnd' : NoDup (q ++ [a])).
  { apply NoDup_app. repeat split; [exact Hnd | | apply NoDup_singleton].
    intros x Hx Hx'. apply list_elem_of_In in Hx. apply list_elem_of_In in Hx'.
    destruct Hx' as [<-|[]]. exact (Hna Hx). }
  assert (Hlen : Z.of_nat (length (q ++ [a])) = Z.of_nat (length q) + 1).
  { rewrite length_app. cbn. lia. }
  destruct (PriceLevel.tail l) as [tl|] eqn:Htl.
  - (* appended after the tail *)
    destruct q as [|q0 qs] eqn:Hq; [destruct Hseg; discriminate|]. rewrite <- Hq in *.
    destruct (seg_last_in _ _ _ _ _ _ Hseg) as (z & Hz & Hzin); [congruence|].
    injection Hz as <-.
    destruct (seg_cells _ _ _ _ _ _ _ Hseg Hzin) as [ot Hot].
    assert (Hne : tl <> a) by (intros ->; exact (Hna Hzin)).
    unfold PriceLevel.add_order. rewrite Htl. repeat mem_step.
    do 2 eexists. split; [reflexivity|]. level_simpl.
    set (m' := <[a := _]> (<[a := _]> (<[tl := _]> m))).
    assert (Hm'a : m' !! a = Some (Order.with_next None (Order.with_prev (Some tl) o)))
      by (subst m'; map_lookup; reflexivity).
    assert (Hm'x : forall x, x <> a -> x <> tl -> m' !! x = m !! x)
      by (intros x H1 H2; subst m'; map_lookup; reflexivity).
    assert (Hm'tl : m' !! tl = Some (Order.with_next (Some a) ot))
      by (subst m'; map_lookup; reflexivity).
    repeat split.
    + eapply seg_app.
      * pose proof (seg_set_end m m' (Some a) q None _ _ None Hseg Hnd) as Hend.
        rewrite Hq in Hend at 1. apply Hend.
        intros x ox Hx Hox.
        assert (x <> a) by (intros ->; exact (Hna Hx)).
        destruct (decide (Some tl = Some x)) as [[= <-]|Hd].
        -- eexists. split; [exact Hm'tl|]. rewrite Hot in Hox. injection Hox as <-.
           split; reflexivity.
        -- exists ox. rewrite Hm'x by congruence. repeat split. exact Hox.
      * split; [reflexivity|]. eexists. split; [exact Hm'a|].
        split; [reflexivity|]. split; reflexivity.
    + exact Hnd'.
    + rewrite Htot, sum_remaining_app. cbn [sum_remaining]. rewrite Hm'a.
      rewrite (sum_remaining_ext m m').
      * order_simpl. level_simpl. rewrite u64_add_l, u64_add_r. f_equal. lia.
      * intros x Hx. assert (x <> a) by (intros ->; exact (Hna Hx)).
        destruct (decide (x = tl)) as [->|]; [rewrite Hm'tl, Hot; reflexivity|].
        rewrite Hm'x by assumption. reflexivity.
    + level_simpl. rewrite Hcnt, Hlen, u32_add_l. reflexivity.
    + intros x [ox Hox]. destruct (decide (x = a)) as [->|]; [rewrite Hm'a; eauto|].
      destruct (decide (x = tl)) as [->|]; [rewrite Hm'tl; eauto|].
      rewrite Hm'x by assumption. eauto.
  - (* first order of the level *)
    assert (q = []) as -> by (eapply seg_empty_last; [exact Hseg | reflexivity | reflexivity]).
    unfold PriceLevel.add_order. rewrite Htl. repeat mem_step.
    do 2 eexists. split; [reflexivity|]. level_simpl.
    set (m' := <[a := _]> (<[a := _]> m)).
    assert (Hm'a : m' !! a = Some (Order.with_prev None (Order.with_next None o)))
      by (subst m'; map_lookup; reflexivity).
    repeat split.
    + eexists. split; [exact Hm'a|]. split; [reflexivity|]. split; reflexivity.
    + exact Hnd'.
    + level_simpl. rewrite Htot. cbn [app sum_remaining]. rewrite Hm'a. order_simpl.
      rewrite u64_add_l, u64_add_r. f_equal. lia.
    + level_simpl. rewrite Hcnt. cbn. reflexivity.
    + intros x [ox Hox]. destruct (decide (x = a)) as [->|]; [rewrite Hm'a; eauto|].
      subst m'. map_lookup. eauto.
Qed.

(** *** remove_order *)



Lemma relink_other o x ox :
  Order.prev o <> Some x -> Order.next o <> Some x -> relink o x ox = ox.
Proof.
  intros H1 H2. unfold relink. rewrite !decide_False by assumption.
  destruct ox; reflexivity.
Qed.

Lemma remove_order_run (m : memory) l a o :
  m !! a = Some o ->
  (forall pv, Order.prev o = Some pv -> pv <> a /\ is_Some (m !! pv)) ->
  (forall n, Order.next o = Some n -> n <> a /\ is_Some (m !! n)) ->
  exists m',
    PriceLevel.remove_order a l m
    = Ok (PriceLevel.mk (PriceLevel.price l)
            (u64 (PriceLevel.total_quantity l - Order.remaining_quantity o))
            (u32 (PriceLevel.order_count l - 1))
            (match Order.prev o with None => Order.next o | Some _ => PriceLevel.head l end)
            (match Order.next o with None => Order.prev o | Some _ => PriceLevel.tail l end),
          m') /\
    m' !! a = Some (Order.with_prev None (Order.with_next None o)) /\
    (forall x, x <> a -> m' !! x = relink o x <$> m !! x).
Proof.
  intros Ho Hprev Hnext. unfold PriceLevel.remove_order. mem_step.
  destruct (Order.prev o) as [pv|] eqn:Hp; destruct (Order.next o) as [n|] eqn:Hn.
  - destruct (Hprev pv eq_refl) as [Hpa [opv Hopv]].
    destruct (Hnext n eq_refl) as [Hna [on Hon]].
    mem_step. mem_step. rewrite Hn. cbn [rbind].
    destruct (decide (n = pv)) as [->|Hnp].
    + repeat mem_step. rewrite ?Hp, ?Hn. eexists. split; [reflexivity|].
      split; [map_lookup; reflexivity|].
      intros x Hx. destruct (decide (x = pv)) as [->|Hxp]; map_lookup.
      * rewrite Hopv. cbn [fmap option_fmap option_map]. unfold relink. rewrite !decide_True by congruence. rewrite Hp, Hn. reflexivity.
      * destruct (m !! x) eqn:E; cbn; [|reflexivity].
        rewrite relink_other by congruence. reflexivity.
    + repeat mem_step. rewrite ?Hp, ?Hn. eexists. split; [reflexivity|].
      split; [map_lookup; reflexivity|].
      intros x Hx. destruct (decide (x = pv)) as [->|Hxp];
        [|destruct (decide (x = n)) as [->|Hxn]]; map_lookup.
      * rewrite Hopv. cbn [fmap option_fmap option_map]. unfold relink. rewrite decide_True by congruence.
        rewrite decide_False by congruence. rewrite ?Hp, ?Hn. destruct opv; reflexivity.
      * rewrite Hon. cbn [fmap option_fmap option_map]. unfold relink. rewrite decide_False by congruence.
        rewrite decide_True by congruence. rewrite ?Hp, ?Hn. destruct on; reflexivity.
      * destruct (m !! x) eqn:E; cbn; [|reflexivity].
        rewrite relink_other by congruence. reflexivity.
  - destruct (Hprev pv eq_refl) as [Hpa [opv Hopv]].
    mem_step. mem_step. rewrite Hn. cbn [rbind].
    repeat mem_step. rewrite ?Hp, ?Hn. eexists. split; [reflexivity|].
    split; [map_lookup; reflexivity|].
    intros x Hx. destruct (decide (x = pv)) as [->|Hxp]; map_lookup.
    + rewrite Hopv. cbn [fmap option_fmap option_map]. unfold relink. rewrite decide_True by congruence.
      rewrite decide_False by congruence. rewrite ?Hp, ?Hn. destruct opv; reflexivity.
    + destruct (m !! x) eqn:E; cbn; [|reflexivity].
      rewrite relink_other by congruence. reflexivity.
  - destruct (Hnext n eq_refl) as [Hna [on Hon]].
    cbn [rbind]. mem_step. rewrite Hn. cbn [rbind].
    repeat mem_step. rewrite ?Hp, ?Hn. eexists. split; [reflexivity|].
    split; [map_lookup; reflexivity|].
    intros x Hx. destruct (decide (x = n)) as [->|Hxn]; map_lookup.
    + rewrite Hon. cbn [fmap option_fmap option_map]. unfold relink. rewrite decide_False by congruence.
      rewrite decide_True by congruence. rewrite ?Hp, ?Hn. destruct on; reflexivity.
    + destruct (m !! x) eqn:E; cbn; [|reflexivity].
      rewrite relink_other by congruence. reflexivity.
  - cbn [rbind]. mem_step. rewrite Hn. cbn [rbind].
    repeat mem_step. rewrite ?Hp, ?Hn. eexists. split; [reflexivity|].
    split; [map_lookup; reflexivity|].
    intros x Hx. map_lookup.
    destruct (m !! x) eqn:E; cbn; [|reflexivity].
    rewrite relink_other by congruence. reflexivity.
Qed.

Lemma remove_order_keeps_inv (m : memory) l q a :
  level_inv m l q -> In a q ->
  exists l' m',
    PriceLevel.remove_order a l m = Ok (l', m') /\
    level_inv m' l' (remove_first a q) /\
    PriceLevel.price l' = PriceLevel.price l /\
    (forall x, is_Some (m !! x) -> is_Some (m' !! x)).
Proof.
  intros (Hseg & Hnd & Htot & Hcnt) Hin.
  destruct (in_split_first _ _ Hin) as (q1 & q2 & -> & Hq1). clear Hin.
  rewrite (remove_first_split _ _ _ Hq1).
  apply NoDup_app in Hnd as (Hnd1 & Hdisj & Hnd2).
  apply NoDup_cons in Hnd2 as (Hq2 & Hnd2).
  assert (Hq2' : ~ In a q2) by (rewrite <- list_elem_of_In; exact Hq2).
  assert (Hd : forall x, In x q1 -> In x q2 -> False).
  { intros x H1 H2. apply (Hdisj x); [apply list_elem_of_In; exact H1|].
    right. apply list_elem_of_In. exact H2. }
  destruct (seg_split _ _ _ _ _ _ _ Hseg) as (mid & l1 & H1 & H2).
  destruct H2 as (-> & o & Ho & Hp & H2).
  (* the neighbours of the order *)
  assert (Hpv : match q1 with
                | [] => l1 = None /\ PriceLevel.head l = Some a
                | _ => exists pv, l1 = Some pv /\ In pv q1
                end).
  { destruct q1 as [|x q1]; [destruct H1 as [-> ->]; split; reflexivity|].
    apply (seg_last_in _ _ _ _ _ _ H1). discriminate. }
  assert (Hnx : match q2 with
                | [] => Order.next o = None /\ PriceLevel.tail l = Some a
                | n :: _ => Order.next o = Some n
                end).
  { destruct q2 as [|n q2]; [destruct H2 as [-> ->]; split; reflexivity|].
    destruct H2 as (-> & _). reflexivity. }
  assert (Hprev : forall pv, Order.prev o = Some pv -> In pv q1).
  { intros pv E. rewrite Hp in E. destruct q1; [destruct Hpv; congruence|].
    destruct Hpv as (pv' & E' & Hin). congruence. }
  assert (Hnext : forall n, Order.next o = Some n -> In n q2).
  { intros n E. destruct q2; [destruct Hnx; congruence|].
    left. congruence. }
  destruct (remove_order_run m l a o Ho) as (m' & Hrun & Hm'a & Hm'x).
  { intros pv E. split; [intros ->; exact (Hq1 (Hprev _ E))|].
    eapply seg_cells; [exact H1 | exact (Hprev _ E)]. }
  { intros n E. split; [intros ->; exact (Hq2' (Hnext _ E))|].
    eapply seg_cells; [exact H2 | exact (Hnext _ E)]. }
  do 2 eexists. split; [exact Hrun|]. level_simpl.
  assert (Hsum : sum_remaining m' (q1 ++ q2) = sum_remaining m (q1 ++ q2)).
  { apply sum_remaining_ext. intros x Hx.
    assert (x <> a).
    { intros ->. apply in_app_or in Hx. tauto. }
    rewrite Hm'x by assumption. destruct (m !! x); reflexivity. }
  repeat split.
  - level_simpl. eapply seg_app.
    + pose proof (seg_set_end m m' (Order.next o) q1 _ _ _ _ H1 Hnd1) as Hend.
      replace (match Order.prev o with
               | Some _ => PriceLevel.head l
               | None => Order.next o
               end)
        with (match q1 with [] => Order.next o | _ => PriceLevel.head l end).
      2:{ rewrite Hp. destruct q1; [destruct Hpv as [-> _]; reflexivity|].
          destruct Hpv as (pv & -> & _). reflexivity. }
      apply Hend. intros x ox Hx Hox.
      assert (x <> a) by (intros ->; exact (Hq1 Hx)).
      exists (relink o x ox). rewrite Hm'x, Hox by assumption.
      split; [reflexivity|]. unfold relink. cbn [Order.prev Order.next].
      rewrite (decide_False (P := Order.next o = Some x))
        by (intros E; exact (Hd x Hx (Hnext _ E))).
      rewrite Hp. split; [reflexivity|].
      destruct (decide (l1 = Some x)); reflexivity.
    + pose proof (seg_set_start m m' l1 q2 _ _ _ _ H2 Hnd2) as Hstart.
      replace (match Order.next o with
               | Some _ => PriceLevel.tail l
               | None => Order.prev o
               end)
        with (match q2 with [] => l1 | _ => PriceLevel.tail l end).
      2:{ rewrite Hp. destruct q2; [destruct Hnx as [-> _]; reflexivity|].
          rewrite Hnx. reflexivity. }
      apply Hstart. intros x ox Hx Hox.
      assert (x <> a) by (intros ->; exact (Hq2' Hx)).
      exists (relink o x ox). rewrite Hm'x, Hox by assumption.
      split; [reflexivity|]. unfold relink. cbn [Order.prev Order.next].
      rewrite (decide_False (P := Order.prev o = Some x))
        by (intros E; exact (Hd x (Hprev _ E) Hx)).
      rewrite Hp. split; [reflexivity|].
      destruct (decide (Order.next o = Some x)); reflexivity.
  - apply NoDup_app. repeat split; [exact Hnd1 | | exact Hnd2].
    intros x Hx1 Hx2. apply (Hdisj x Hx1). right. exact Hx2.
  - level_simpl. rewrite Hsum, Htot, !sum_remaining_app. cbn [sum_remaining].
    rewrite Ho. order_simpl. rewrite u64_sub_l, u64_sub_r. f_equal. lia.
  - level_simpl. rewrite Hcnt, u32_sub_l. f_equal.
    rewrite !length_app. cbn [length]. lia.
  - intros x [ox Hox]. destruct (decide (x = a)) as [->|]; [rewrite Hm'a; eauto|].
    rewrite Hm'x, Hox by assumption. eauto.
Qed.

(** *** update_quantity after a fill *)

Lemma u64_fill s a b : u64 (u64 (u64 s - u64 a) + u64 b) = u64 (s - a + b).
Proof.
  rewrite u64_add_l, u64_add_r.
  replace (u64 s - u64 a + b) with (u64 s + (b - u64 a)) by lia.
  rewrite u64_add_l.
  replace (s + (b - u64 a)) with (s + b - u64 a) by lia.
  rewrite u64_sub_r. f_equal. lia.
Qed.


Lemma sum_remaining_update (m : memory) q a o o' :
  NoDup q -> In a q -> m !! a = Some o ->
  sum_remaining (<[a := o']> m) q
  = sum_remaining m q - (Order.quantity o - Order.filled_quantity o)
    + (Order.quantity o' - Order.filled_quantity o').
Proof.
  intros Hnd Hin Ho.
  destruct (in_split_first _ _ Hin) as (q1 & q2 & -> & Hq1).
  apply NoDup_app in Hnd as (_ & _ & Hnd2).
  apply NoDup_cons in Hnd2 as (Hq2 & _). rewrite list_elem_of_In in Hq2.
  rewrite !sum_remaining_app. cbn [sum_remaining]. rewrite lookup_insert_eq, Ho.
  rewrite (sum_remaining_ext m (<[a := o']> m) q1), (sum_remaining_ext m (<[a := o']> m) q2).
  - lia.
  - intros x Hx. rewrite lookup_insert_ne by (intros ->; exact (Hq2 Hx)). reflexivity.
  - intros x Hx. rewrite lookup_insert_ne by (intros ->; exact (Hq1 Hx)). reflexivity.
Qed.

Lemma fill_keeps_inv (m : memory) l q a n :
  level_inv m l q -> In a q ->
  exists l' m',
    level_step (LFill a n) (l, m) = Ok (l', m') /\
    level_inv m' l' q /\
    PriceLevel.price l' = PriceLevel.price l /\
    (forall x, is_Some (m !! x) -> is_Some (m' !! x)).
Proof.
  intros (Hseg & Hnd & Htot & Hcnt) Hin.
  destruct (seg_cells _ _ _ _ _ _ _ Hseg Hin) as [o Ho].
  cbn [level_step]. unfold PriceLevel.update_quantity. repeat mem_step.
  do 2 eexists. split; [reflexivity|]. level_simpl. repeat split.
  - apply (seg_frame m); [exact Hseg|]. intros x ox Hx Hox.
    destruct (decide (x = a)) as [->|Hxa]; map_lookup.
    + eexists. split; [reflexivity|]. rewrite Ho in Hox. injection Hox as <-.
      split; reflexivity.
    + exists ox. repeat split. exact Hox.
  - exact Hnd.
  - level_simpl. rewrite (sum_remaining_update m q a o _ Hnd Hin Ho), Htot. order_simpl.
    apply u64_fill.
  - exact Hcnt.
  - intros x [ox Hox]. destruct (decide (x = a)) as [->|Hxa]; map_lookup; eauto.
Qed.

(** *** Any legal sequence of calls *)

Lemma level_run_keeps_inv (m0 : memory) ops : forall l m q,
  level_inv m l q ->
  (forall x, is_Some (m0 !! x) -> is_Some (m !! x)) ->
  legal m0 ops q ->
  exists l' m',
    level_run ops (l, m) = Ok (l', m') /\
    level_inv m' l' (fifo_run ops q) /\
    PriceLevel.price l' = PriceLevel.price l.
Proof.
  induction ops as [|op ops IH]; intros l m q Hinv Hdom Hlegal.
  - exists l, m. split; [reflexivity|]. split; [exact Hinv | reflexivity].
  - destruct Hlegal as [Hstep Hlegal].
    assert (Hone : exists l1 m1,
               level_step op (l, m) = Ok (l1, m1) /\
               level_inv m1 l1 (fifo_step op q) /\
               PriceLevel.price l1 = PriceLevel.price l /\
               (forall x, is_Some (m !! x) -> is_Some (m1 !! x))).
    { destruct op as [a | a | a n]; cbn [legal_step fifo_step] in *.
      - destruct Hstep as [Ha Hna]. apply add_order_keeps_inv; auto.
      - apply remove_order_keeps_inv; assumption.
      - apply fill_keeps_inv; assumption. }
    destruct Hone as (l1 & m1 & Hrun & Hinv1 & Hprice & Hdom1).
    destruct (IH l1 m1 (fifo_step op q) Hinv1) as (l' & m' & Hrun' & Hinv' & Hprice');
      [auto | exact Hlegal |].
    exists l', m'. cbn [level_run fifo_run fold_left]. rewrite Hrun. cbn [rbind].
    split; [exact Hrun'|]. split; [exact Hinv' | congruence].
Qed.

(** C5, amended.  On a level used by its contract (an order is added while
    it is not linked, removed or filled while it is), after any sequence of
    [add_order], [remove_order] and [update_quantity] calls the traversal
    from the head visits the linked orders in the order they were added,
    [total_quantity] is the sum of their remaining quantities modulo 2^64
    and [order_count] is their number modulo 2^32; both are exact while the
    sum and the number fit their types. *)
Theorem level_invariants (p : Z) (m : memory) (ops : list LevelOp) :
  legal m ops [] ->
  exists l m',
    level_run ops (PriceLevel.new p, m) = Ok (l, m') /\
    let q := fifo_run ops [] in
    traverse (length q) m' (PriceLevel.head l) = Some q /\
    PriceLevel.total_quantity l = u64 (sum_remaining m' q) /\
    PriceLevel.order_count l = u32 (Z.of_nat (length q)) /\
    (in_u64 (sum_remaining m' q) -> PriceLevel.total_quantity l = sum_remaining m' q) /\
    (Z.of_nat (length q) < 2 ^ 32 -> PriceLevel.order_count l = Z.of_nat (length q)).
Proof.
  intros Hlegal.
  destruct (level_run_keeps_inv m ops (PriceLevel.new p) m []) as (l & m' & Hrun & Hinv & _).
  - split; [split; reflexivity|]. split; [apply NoDup_nil; exact I|]. split; reflexivity.
  - auto.
  - exact Hlegal.
  - exists l, m'. split; [exact Hrun|]. cbv zeta.
    destruct Hinv as (Hseg & _ & Htot & Hcnt).
    split; [eapply seg_traverse; exact Hseg|].
    split; [exact Htot|]. split; [exact Hcnt|]. split.
    + intros H. rewrite Htot. apply u64_small, H.
    + intros H. rewrite Hcnt. apply u32_small. lia.
Qed.

(** ** Levels of a side *)

Lemma levels_with_levels s v b : OrderBook.levels s (OrderBook.with_levels s v b) = v.
Proof. destruct s, b; reflexivity. Qed.

Lemma cells_with_levels s v b :
  OrderBook.cells (OrderBook.with_levels s v b) = OrderBook.cells b.
Proof. destruct s, b; reflexivity. Qed.

Lemma events_with_levels s v b :
  OrderBook.events (OrderBook.with_levels s v b) = OrderBook.events b.
Proof. destruct s, b; reflexivity. Qed.

Lemma levels_with_cells s m b :
  OrderBook.levels s (OrderBook.with_cells m b) = OrderBook.levels s b.
Proof. destruct s, b; reflexivity. Qed.

Lemma levels_notify s e b : OrderBook.levels s (OrderBook.notify e b) = OrderBook.levels s b.
Proof. destruct s, b; reflexivity. Qed.

Lemma levels_statistics s tr b :
  OrderBook.levels s (OrderBook.update_market_statistics tr b) = OrderBook.levels s b.
Proof.
  unfold OrderBook.update_market_statistics.
  destruct (_ <? _)%nat; destruct s, b; reflexivity.
Qed.

Lemma cells_statistics tr b :
  OrderBook.cells (OrderBook.update_market_statistics tr b) = OrderBook.cells b.
Proof.
  unfold OrderBook.update_market_statistics. destruct (_ <? _)%nat; destruct b; reflexivity.
Qed.

Lemma events_statistics tr b :
  OrderBook.events (OrderBook.update_market_statistics tr b) = OrderBook.events b.
Proof.
  unfold OrderBook.update_market_statistics. destruct (_ <? _)%nat; destruct b; reflexivity.
Qed.

(** ** Matching *)

(** A pass that finds the incoming order filled, the opposite side empty,
    the incoming price short of the best opposite level, or that level
    without a head order, ends the loop and leaves the book as it is. *)
Lemma match_iteration_stops (s : Side) (incoming : addr) (b : OrderBook.t) (inc : Order.t) :
  OrderBook.cells b !! incoming = Some inc ->
  Order.is_fully_filled inc = true \/
  match OrderBook.levels (OrderBook.opposite s) b with
  | [] => True
  | (_, best) :: _ =>
      ~ crosses s (Order.price inc) (PriceLevel.price best) \/
      PriceLevel.get_best_order best = None
  end ->
  OrderBook.match_iteration s incoming b = Ok (false, b).
Proof.
  intros Hinc Hstop. unfold OrderBook.match_iteration.
  rewrite (load_ok _ _ _ Hinc). cbn [rbind].
  destruct (Order.is_fully_filled inc); [reflexivity|].
  destruct Hstop as [Hstop | Hstop]; [discriminate|].
  destruct (OrderBook.levels (OrderBook.opposite s) b) as [|[k best] rest]; [reflexivity|].
  destruct Hstop as [Hnc | Hhead].
  - rewrite (no_cross_true _ _ _ Hnc). reflexivity.
  - rewrite Hhead. destruct (OrderBook.no_cross _ _ _); reflexivity.
Qed.

(** ** Witnesses and concrete sessions *)

Lemma mid_price_truncates_witness :
  OrderBook.get_mid_price
    (book_of (session [Add 9995 100 BUY LIMIT; Add 10005 100 SELL LIMIT]))
  = Some (Z.quot (9995 + 10005) 2).
Proof.
  apply (fun H1 H2 H3 => proj1 (mid_price_truncates _ 9995 10005 H1 H2 H3)).
  - vm_compute. reflexivity.
  - vm_compute. reflexivity.
  - unfold in_s64. lia.
Defined.

(** C8 as stated fails: with a bid at -3 and an ask at 0 the mid-price is
    -1, while the floor of the half sum is -2. *)
Lemma mid_price_negative_sum_not_floor :
  let r := session [Add (-3) 1 BUY LIMIT; Add 0 1 SELL LIMIT] in
  observe OrderBook.get_best_bid r = Some (Some (-3)) /\
  observe OrderBook.get_best_ask r = Some (Some 0) /\
  observe OrderBook.get_mid_price r = Some (Some (-1)) /\
  (-3 + 0) / 2 = -2.
Proof. vm_compute. repeat split. Qed.

Lemma volume_at_absent_price_witness :
  OrderBook.get_volume_at_price 10000 BUY
    (book_of (session [Add 9995 100 BUY LIMIT; Add 10005 100 SELL LIMIT])) = 0.
Proof.
  apply (fun H => proj1 (volume_at_absent_price _ 10000 BUY H)).
  vm_compute. reflexivity.
Defined.

Lemma snapshot_of_empty_side_witness :
  MarketState.spread
    (OrderBook.get_market_state (book_of (session [Add 9995 100 BUY LIMIT]))) = 0.
Proof.
  apply (fun H => proj1 (proj2 (proj2
           (snapshot_of_empty_side (book_of (session [Add 9995 100 BUY LIMIT])) H)))).
  right. vm_compute. reflexivity.
Defined.

(** ** The end-to-end scenarios *)

(** S1: a resting bid and a resting ask, no trade. *)
Example scenario_resting_orders :
  observe (fun b => (side_view (OrderBook.bid_levels_ b), side_view (OrderBook.ask_levels_ b),
                     OrderBook.trades b))
    (session [Add 9995 100 BUY LIMIT; Add 10005 100 SELL LIMIT])
  = Some ([(9995, 100, 1)], [(10005, 100, 1)], []).
Proof. vm_compute. reflexivity. Qed.

(** S2: a market buy of 60 takes the ask at its price. *)
Example scenario_market_buy :
  observe (fun b => (side_view (OrderBook.bid_levels_ b), side_view (OrderBook.ask_levels_ b),
                     OrderBook.trades b))
    (session [Add 9995 100 BUY LIMIT; Add 10005 100 SELL LIMIT; Add 0 60 BUY MARKET])
  = Some ([(9995, 100, 1)], [(10005, 40, 1)], [Trade.mk 3 2 10005 60]).
Proof. vm_compute. reflexivity. Qed.

(** S3: price-time priority, the earlier ask is filled first. *)
Example scenario_price_time_priority :
  observe (fun b => (side_view (OrderBook.bid_levels_ b), side_view (OrderBook.ask_levels_ b),
                     OrderBook.trades b))
    (session [Add 10000 50 SELL LIMIT; Add 10000 30 SELL LIMIT; Add 10001 70 BUY LIMIT])
  = Some ([], [(10000, 10, 1)], [Trade.mk 3 1 10000 50; Trade.mk 3 2 10000 20]).
Proof. vm_compute. reflexivity. Qed.

(** S4: an immediate-or-cancel order fills what it can and does not rest. *)
Example scenario_ioc_partial :
  observe (fun b => (side_view (OrderBook.bid_levels_ b), side_view (OrderBook.ask_levels_ b),
                     OrderBook.trades b, OrderBook.orders_ b !! 2))
    (session [Add 10005 40 SELL LIMIT; Add 10005 100 BUY IOC])
  = Some ([], [], [Trade.mk 2 1 10005 40], None).
Proof. vm_compute. reflexivity. Qed.

(** S6: cancelling the resting bid empties the bid side. *)
Example scenario_cancel_resting :
  observe (fun b => (OrderBook.get_best_bid b, OrderBook.get_spread b,
                     side_view (OrderBook.ask_levels_ b), OrderBook.orders_ b !! 1))
    (session [Add 9995 100 BUY LIMIT; Add 10005 100 SELL LIMIT; Cancel 1])
  = Some (None, None, [(10005, 100, 1)], None).
Proof. vm_compute. reflexivity. Qed.

(** ** The defects, at concrete sessions *)

(** C1, at the input of scenario S5.  With asks 10005 x 40 and 10010 x 30
    resting, a fill-or-kill buy of 100 at 10010 cannot be filled (70 < 100),
    yet a trade of 40 at 10005 is emitted and the level at 10005 is gone;
    only then is the order rejected and released. *)
Theorem fok_infeasible_still_trades :
  let before := session [Add 10005 40 SELL LIMIT; Add 10010 30 SELL LIMIT] in
  let after := session [Add 10005 40 SELL LIMIT; Add 10010 30 SELL LIMIT;
                        Add 10010 100 BUY FOK] in
  observe (fun b => (OrderBook.trades b, side_view (OrderBook.ask_levels_ b))) before
  = Some ([], [(10005, 40, 1); (10010, 30, 1)]) /\
  observe (fun b => (OrderBook.trades b, side_view (OrderBook.ask_levels_ b))) after
  = Some ([Trade.mk 3 1 10005 40], [(10010, 30, 1)]) /\
  observe (fun b => OrderBook.orders_ b !! 3) after = Some None /\
  observe (order_status 1) after = Some (Some FILLED).
Proof. vm_compute. repeat split. Qed.

(** C2, on the empty book.  A market buy finds no ask; no trade is emitted
    and no level appears, but the order is kept in the index with status
    [NEW] and its cell stays allocated. *)
Theorem market_on_empty_side_stays_new :
  let after := session [Add 100 10 BUY MARKET] in
  observe (fun b => (OrderBook.trades b, OrderBook.bid_levels_ b, OrderBook.ask_levels_ b))
          after = Some ([], [], []) /\
  observe (order_status 1) after = Some (Some NEW) /\
  observe (fun b => match OrderBook.orders_ b !! 1 with
                    | Some a => bool_decide (a ∈ MemoryPool.free_list_ (OrderBook.order_pool_ b))
                    | None => true
                    end) after = Some false.
Proof. vm_compute. repeat split. Qed.

(** C4, from the empty book.  The market buy of 10 at 100 finds no ask and
    stays in the index; a limit sell then rests at 50; cancelling the market
    order unlinks it from a bid level at 100 that is created for the purpose
    and whose count wraps to 2^32 - 1, so the level stays: the best bid 100
    is above the best ask 50. *)
Theorem cancel_leaves_crossed_book :
  let after := session [Add 100 10 BUY MARKET; Add 50 5 SELL LIMIT; Cancel 1] in
  observe OrderBook.get_best_bid after = Some (Some 100) /\
  observe OrderBook.get_best_ask after = Some (Some 50) /\
  observe (fun b => side_view (OrderBook.bid_levels_ b)) after
  = Some [(100, 2 ^ 64 - 10, 2 ^ 32 - 1)] /\
  observe (fun b => side_view (OrderBook.ask_levels_ b)) after = Some [(50, 5, 1)].
Proof. vm_compute. repeat split. Qed.

(** C7, on a book that the defect above has left behind.  After the market
    buy has been cancelled, a limit buy of 7 rests in the ghost level at 100,
    whose count wraps to 0 while the order is linked in it.  A second limit
    buy at 100 (no ask, so nothing crosses) is then submitted and cancelled:
    the count is 0 again, the level is taken for empty and erased with the
    first order still linked in it.  The bid side held a level before the
    round trip and holds none after it. *)
Theorem round_trip_erases_miscounted_level :
  let before := session [Add 100 10 BUY MARKET; Cancel 1; Add 100 7 BUY LIMIT] in
  let after := session [Add 100 10 BUY MARKET; Cancel 1; Add 100 7 BUY LIMIT;
                        Add 100 5 BUY LIMIT; Cancel 3] in
  observe (fun b => (side_view (OrderBook.bid_levels_ b), OrderBook.ask_levels_ b,
                     order_status 2 b, OrderBook.next_order_id b)) before
  = Some ([(100, 2 ^ 64 - 3, 0)], [], Some NEW, 3) /\
  observe (fun b => (side_view (OrderBook.bid_levels_ b), OrderBook.ask_levels_ b,
                     order_status 2 b, OrderBook.orders_ b !! 3)) after
  = Some ([], [], Some NEW, None).
Proof. vm_compute. repeat split. Qed.

Lemma zero_quantity_submit_witness :
  exists b',
    OrderBook.add_order 1 10000 0 BUY LIMIT OrderBook.new = Ok (1, b') /\
    OrderBook.trades b' = [] /\
    OrderBook.bid_levels_ b' = [] /\
    OrderBook.ask_levels_ b' = [] /\
    OrderBook.orders_ b' = <[1 := 36864%N]> ∅ /\
    order_status 1 b' = Some NEW.
Proof.
  apply (zero_quantity_submit OrderBook.new 1 10000 BUY LIMIT 36864%N).
  - lia.
  - vm_compute. reflexivity.
Defined.

(** C6 as stated fails: on the new book a limit buy of quantity 0 is given
    the identifier 1, and the order index, empty before, holds it after. *)
Lemma zero_quantity_is_indexed :
  OrderBook.orders_ OrderBook.new !! 1 = None /\
  match OrderBook.add_order 1 10000 0 BUY LIMIT OrderBook.new with
  | Ok (id, b) => id = 1 /\ order_status 1 b = Some NEW
  | _ => False
  end.
Proof. vm_compute. repeat split. Qed.

Lemma submit_then_cancel_restores_witness :
  let b := book_of (session [Add 9995 100 BUY LIMIT; Add 10005 100 SELL LIMIT]) in
  exists id b1 b2,
    OrderBook.add_order 1 9995 10 BUY LIMIT b = Ok (id, b1) /\
    OrderBook.cancel_order id b1 = Ok (true, b2) /\
    OrderBook.bid_levels_ b2 = OrderBook.bid_levels_ b /\
    OrderBook.ask_levels_ b2 = OrderBook.ask_levels_ b /\
    OrderBook.orders_ b2 = OrderBook.orders_ b /\
    OrderBook.cells b2 = OrderBook.cells b /\
    OrderBook.trades b2 = OrderBook.trades b.
Proof.
  intros b. apply submit_then_cancel_restores.
  - lia.
  - exists 36866%N. vm_compute. split; reflexivity.
  - vm_compute. reflexivity.
  - vm_compute. intros H. apply H. reflexivity.
  - intros l Hl. vm_compute in Hl. injection Hl as <-.
    split; [unfold in_u64; cbn; lia|]. split; [cbn; lia|].
    exists 36864%N, (Order.mk 1 9995 100 0 BUY LIMIT NEW None None).
    vm_compute. repeat split.
Defined.

Lemma level_invariants_witness :
  let m : gmap N Order.t :=
    <[0%N := Order.new 1 100 50 BUY LIMIT]> (<[1%N := Order.new 2 100 30 BUY LIMIT]> ∅) in
  let ops := [LAdd 0%N; LAdd 1%N; LFill 0%N 20; LRemove 0%N] in
  exists l m',
    level_run ops (PriceLevel.new 100, m) = Ok (l, m') /\
    let q := fifo_run ops [] in
    traverse (length q) m' (PriceLevel.head l) = Some q /\
    PriceLevel.total_quantity l = u64 (sum_remaining m' q) /\
    PriceLevel.order_count l = u32 (Z.of_nat (length q)) /\
    (in_u64 (sum_remaining m' q) -> PriceLevel.total_quantity l = sum_remaining m' q) /\
    (Z.of_nat (length q) < 2 ^ 32 -> PriceLevel.order_count l = Z.of_nat (length q)).
Proof.
  intros m ops. apply level_invariants.
  cbn [legal legal_step fifo_step ops app remove_first N.eqb].
  repeat split.
  - exists (Order.new 1 100 50 BUY LIMIT). vm_compute. reflexivity.
  - intros [].
  - exists (Order.new 2 100 30 BUY LIMIT). vm_compute. reflexivity.
  - intros [H|[]]. discriminate H.
  - left. reflexivity.
  - left. reflexivity.
Defined.

(** C5 as stated fails.  Two orders of 2^63 each make the aggregate of
    their level wrap to 0, on the level alone and in the engine; and
    [remove_order] on an order that is not linked leaves a level with no
    order linked whose count is 2^32 - 1. *)
Lemma level_totals_not_exact :
  (let m : gmap N Order.t :=
     <[0%N := Order.new 1 100 (2 ^ 63) BUY LIMIT]>
       (<[1%N := Order.new 2 100 (2 ^ 63) BUY LIMIT]> ∅) in
   exists l m',
     level_run [LAdd 0%N; LAdd 1%N] (PriceLevel.new 100, m) = Ok (l, m') /\
     traverse 2 m' (PriceLevel.head l) = Some [0%N; 1%N] /\
     sum_remaining m' [0%N; 1%N] = 2 ^ 64 /\
     PriceLevel.total_quantity l = 0) /\
  observe (fun b => side_view (OrderBook.bid_levels_ b))
    (session [Add 100 (2 ^ 63) BUY LIMIT; Add 100 (2 ^ 63) BUY LIMIT])
  = Some [(100, 0, 2)] /\
  (let m : gmap N Order.t := <[0%N := Order.new 1 100 10 BUY MARKET]> ∅ in
   exists l m',
     level_run [LRemove 0%N] (PriceLevel.new 100, m) = Ok (l, m') /\
     traverse 0 m' (PriceLevel.head l) = Some [] /\
     PriceLevel.order_count l = 2 ^ 32 - 1 /\
     PriceLevel.total_quantity l = 2 ^ 64 - 10).
Proof.
  split; [|split].
  - cbv zeta. do 2 eexists. split; [vm_compute; reflexivity|].
    vm_compute. repeat split.
  - vm_compute. reflexivity.
  - cbv zeta. do 2 eexists. split; [vm_compute; reflexivity|].
    vm_compute. repeat split.
Qed.

(** * Further properties of the code *)

(** ** Computations that returned *)

Lemma rbind_ok {A B} (x : res A) (f : A -> res B) (y : B) :
  rbind x f = Ok y -> exists a, x = Ok a /\ f a = Ok y.
Proof. destruct x; cbn; intros H; try discriminate. eauto. Qed.

(** Inversion of a computation of the error monad that returned. *)
Tactic Notation "res_inv" hyp(H) "as" ident(a) ident(H1) :=
  apply rbind_ok in H; destruct H as (a & H1 & H).
Tactic Notation "res_inv" hyp(H) :=
  let a := fresh "r" in
  let H1 := fresh "Hr" in
  apply rbind_ok in H; destruct H as (a & H1 & H).

Ltac res_done :=
  match goal with
  | H : Ok _ = Ok _ |- _ => injection H as H; subst
  | H : Fault = Ok _ |- _ => discriminate H
  | H : OutOfFuel = Ok _ |- _ => discriminate H
  end.

Lemma store_inv f a m m' :
  store f a m = Ok m' -> exists o, m !! a = Some o /\ m' = <[a := f o]> m.
Proof.
  unfold store, load. destruct (m !! a) as [o|]; cbn; intros H; [|discriminate].
  injection H as <-. eauto.
Qed.

Lemma load_inv m a o : load m a = Ok o -> m !! a = Some o.
Proof. unfold load. destruct (m !! a); intros H; [injection H as ->; reflexivity | discriminate]. Qed.

(** *** The level operations keep the price of the level *)

Lemma add_order_price a l m l' m' :
  PriceLevel.add_order a l m = Ok (l', m') -> PriceLevel.price l' = PriceLevel.price l.
Proof.
  unfold PriceLevel.add_order. intros H. res_inv H. destruct r as [l1 m1].
  res_inv H. injection H as <- <-. cbn.
  destruct (PriceLevel.tail l).
  - res_inv Hr. res_inv Hr. res_inv Hr. injection Hr as <- <-. reflexivity.
  - res_inv Hr. res_inv Hr. injection Hr as <- <-. reflexivity.
Qed.

Lemma remove_order_price a l m l' m' :
  PriceLevel.remove_order a l m = Ok (l', m') -> PriceLevel.price l' = PriceLevel.price l.
Proof.
  unfold PriceLevel.remove_order. intros H. res_inv H. res_inv H. destruct r0 as [l1 m1].
  res_inv H. res_inv H. destruct r1 as [l2 m2]. res_inv H. res_inv H. res_inv H.
  injection H as <- <-. cbn.
  assert (PriceLevel.price l1 = PriceLevel.price l) as E1.
  { destruct (Order.prev r); [res_inv Hr0|]; injection Hr0 as <- <-; reflexivity. }
  assert (PriceLevel.price l2 = PriceLevel.price l1) as E2.
  { destruct (Order.next r0); [res_inv Hr2|]; injection Hr2 as <- <-; reflexivity. }
  congruence.
Qed.

Lemma update_quantity_price a q l m l' :
  PriceLevel.update_quantity a q l m = Ok l' -> PriceLevel.price l' = PriceLevel.price l.
Proof.
  unfold PriceLevel.update_quantity. intros H. res_inv H. injection H as <-. reflexivity.
Qed.

(** *** Every entry point is a sequence of book steps *)

Lemma book_steps_trans b1 b2 b3 : book_steps b1 b2 -> book_steps b2 b3 -> book_steps b1 b3.
Proof. induction 1; eauto using book_steps. Qed.

Lemma book_steps_one b1 b2 : book_step b1 b2 -> book_steps b1 b2.
Proof. eauto using book_steps. Qed.

Lemma get_or_create_level_steps p s b :
  book_steps b (OrderBook.get_or_create_level p s b).
Proof.
  unfold OrderBook.get_or_create_level.
  destruct (LevelMap.find p (OrderBook.levels s b)) eqn:E.
  - constructor.
  - apply book_steps_one. now constructor.
Qed.

Lemma remove_level_if_empty_steps p s b :
  book_steps b (OrderBook.remove_level_if_empty p s b).
Proof.
  unfold OrderBook.remove_level_if_empty.
  destruct (LevelMap.find p (OrderBook.levels s b)) eqn:E; [|constructor].
  destruct (PriceLevel.is_empty t); [|constructor].
  apply book_steps_one. constructor.
Qed.

Lemma on_level_steps p s f b b' :
  (forall l m l' m', f l m = Ok (l', m') -> PriceLevel.price l' = PriceLevel.price l) ->
  OrderBook.on_level p s f b = Ok b' -> book_steps b b'.
Proof.
  intros Hf. unfold OrderBook.on_level.
  destruct (LevelMap.find p (OrderBook.levels s b)) as [l|] eqn:E; [|discriminate].
  intros H. res_inv H. destruct r as [l' m']. injection H as <-.
  eapply steps_cons; [eapply step_set; [exact E | eapply Hf; exact Hr]|].
  apply book_steps_one. constructor.
Qed.

Lemma execute_trade_steps p a q b b' :
  OrderBook.execute_trade p a q b = Ok b' -> book_steps b b'.
Proof.
  unfold OrderBook.execute_trade. intros H.
  res_inv H as po Hpo. res_inv H as m1 Hm1. res_inv H as ao Hao. res_inv H as m2 Hm2.
  res_inv H as po1 Hpo1. res_inv H as m3 Hm3. res_inv H as ao1 Hao1. res_inv H as m4 Hm4.
  res_inv H as po2 Hpo2. res_inv H as b1 Hb1. res_inv H as po3 Hpo3. res_inv H as ao3 Hao3.
  eapply steps_cons; [apply (step_cells m4)|].
  eapply book_steps_trans; [apply get_or_create_level_steps|].
  eapply book_steps_trans.
  { eapply on_level_steps; [|exact Hb1]. intros l m l' m' Hl. res_inv Hl as l1 Hl1.
    injection Hl as <- <-. eapply update_quantity_price; eauto. }
  match type of H with context [Trade.mk ?x ?y ?z ?w] => set (tr := Trade.mk x y z w) in H end.
  eapply steps_cons; [apply (step_trade tr)|].
  eapply steps_cons; [apply (step_order_update po3)|].
  eapply steps_cons; [apply (step_order_update ao3)|].
  destruct (Order.is_fully_filled po3).
  - res_inv H as b2 Hb2. res_inv H as po4 Hpo4. injection H as <-.
    eapply book_steps_trans.
    { eapply on_level_steps; [|exact Hb2]. intros; eapply remove_order_price; eauto. }
    apply remove_level_if_empty_steps.
  - injection H as <-. constructor.
Qed.

Lemma match_iteration_steps s a b again b' :
  OrderBook.match_iteration s a b = Ok (again, b') -> book_steps b b'.
Proof.
  unfold OrderBook.match_iteration. intros H. res_inv H.
  destruct (Order.is_fully_filled r); [injection H as <- <-; constructor|].
  destruct (OrderBook.levels (OrderBook.opposite s) b) as [|[k best] rest];
    [injection H as <- <-; constructor|].
  destruct (OrderBook.no_cross _ _ _); [injection H as <- <-; constructor|].
  destruct (PriceLevel.get_best_order best); [|injection H as <- <-; constructor].
  res_inv H. res_inv H. res_inv H.
  eapply book_steps_trans; [eapply execute_trade_steps; exact Hr1|].
  destruct (_ && _).
  { res_inv H. injection H as <- <-. apply book_steps_one. constructor. }
  destruct (_ && _).
  { res_inv H. injection H as <- <-. apply book_steps_one. constructor. }
  injection H as <- <-. constructor.
Qed.

Lemma match_loop_steps fuel s a b b' :
  OrderBook.match_loop fuel s a b = Ok b' -> book_steps b b'.
Proof.
  revert b. induction fuel as [|fuel IH]; intros b; cbn [OrderBook.match_loop]; [discriminate|].
  intros H. res_inv H. destruct r as [again b1].
  eapply book_steps_trans; [eapply match_iteration_steps; exact Hr|].
  destruct again; [eauto|injection H as <-; constructor].
Qed.

Lemma match_order_steps fuel a b b' :
  OrderBook.match_order fuel a b = Ok b' -> book_steps b b'.
Proof.
  unfold OrderBook.match_order. intros H. res_inv H. eapply match_loop_steps; eauto.
Qed.

Lemma use_best_price_steps s ty a b b' :
  OrderBook.use_best_price s ty a b = Ok b' -> book_steps b b'.
Proof.
  unfold OrderBook.use_best_price. intros H.
  destruct ty, s, (OrderBook.ask_levels_ b) as [|[? ?] ?], (OrderBook.bid_levels_ b) as [|[? ?] ?];
    try (injection H as <-; constructor);
    res_inv H; injection H as <-; apply book_steps_one; constructor.
Qed.

(** *** What a book step leaves alone *)

Lemma book_step_frame b b' :
  book_step b b' ->
  OrderBook.orders_ b' = OrderBook.orders_ b /\
  OrderBook.order_pool_ b' = OrderBook.order_pool_ b /\
  OrderBook.next_order_id b' = OrderBook.next_order_id b.
Proof.
  destruct 1 as [m b|s k l v b _ _|s k b _|s k b|tr b|o b];
    try destruct s; destruct b; unfold OrderBook.update_market_statistics;
    try destruct (_ <? _)%nat; repeat split.
Qed.

Lemma book_steps_frame b b' :
  book_steps b b' ->
  OrderBook.orders_ b' = OrderBook.orders_ b /\
  OrderBook.order_pool_ b' = OrderBook.order_pool_ b /\
  OrderBook.next_order_id b' = OrderBook.next_order_id b.
Proof.
  induction 1 as [|b1 b2 b3 H1 _ (I1 & I2 & I3)]; [repeat split|].
  destruct (book_step_frame _ _ H1) as (J1 & J2 & J3). repeat split; congruence.
Qed.

Lemma book_step_events b b' :
  book_step b b' -> exists evs, OrderBook.events b' = OrderBook.events b ++ evs /\
    Forall (fun e => match e with StateEvent _ => False | _ => True end) evs.
Proof.
  destruct 1 as [m b|s k l v b _ _|s k b _|s k b|tr b|o b].
  1-4: exists []; rewrite app_nil_r; split; [try destruct s; destruct b; reflexivity|constructor].
  - exists [TradeEvent tr]. split; [|repeat constructor].
    destruct b; unfold OrderBook.update_market_statistics.
    destruct (_ <? _)%nat; reflexivity.
  - exists [OrderEvent o]. split; [|repeat constructor]. destruct b; reflexivity.
Qed.

Lemma book_steps_events b b' :
  book_steps b b' -> exists evs, OrderBook.events b' = OrderBook.events b ++ evs /\
    Forall (fun e => match e with StateEvent _ => False | _ => True end) evs.
Proof.
  induction 1 as [|b1 b2 b3 H1 _ (e2 & E2 & F2)]; [exists []; rewrite app_nil_r; split; [reflexivity|constructor]|].
  destruct (book_step_events _ _ H1) as (e1 & E1 & F1).
  exists (e1 ++ e2). rewrite E2, E1, app_assoc. split; [reflexivity|].
  apply Forall_app; split; assumption.
Qed.

(** *** The shape of the entry points *)

Lemma rest_or_release_shape id price side type a b b' :
  OrderBook.rest_or_release id price side type a b = Ok b' ->
  book_steps b b' \/
  b' = OrderBook.with_pool (MemoryPool.deallocate a (OrderBook.order_pool_ b))
         (OrderBook.with_cells (delete a (OrderBook.cells b))
            (OrderBook.with_orders (delete id (OrderBook.orders_ b)) b)).
Proof.
  unfold OrderBook.rest_or_release. intros H. res_inv H as o Ho.
  destruct (_ && _).
  - left. res_inv H as b1 Hb1. res_inv H as o1 Ho1. injection H as <-.
    eapply book_steps_trans; [apply get_or_create_level_steps|].
    eapply book_steps_trans.
    { eapply on_level_steps; [|exact Hb1]. intros; eapply add_order_price; eauto. }
    apply book_steps_one. constructor.
  - destruct (_ || _); injection H as <-; [right; reflexivity|left; constructor].
Qed.



Lemma add_order_shape fuel price quantity side type b id b' :
  OrderBook.add_order fuel price quantity side type b = Ok (id, b') ->
  id = OrderBook.next_order_id b /\
  exists a pool b2 b3,
    MemoryPool.allocate (OrderBook.order_pool_ b) = Ok (a, pool) /\
    book_steps (entered price quantity side type a pool b) b2 /\
    (b3 = b2 \/ b3 = released id a b2) /\
    b' = OrderBook.notify (StateEvent (OrderBook.get_market_state b3)) b3.
Proof.
  unfold OrderBook.add_order. intros H.
  res_inv H as ap Hap. destruct ap as [a pool].
  res_inv H as b1 Hb1. res_inv H as b2 Hb2. res_inv H as b3 Hb3.
  injection H as <- <-. split; [reflexivity|].
  assert (Hpool : MemoryPool.allocate (OrderBook.order_pool_ b) = Ok (a, pool))
    by (destruct b; exact Hap).
  assert (S12 : book_steps (entered price quantity side type a pool b) b2).
  { eapply book_steps_trans; [eapply use_best_price_steps; exact Hb1|].
    eapply match_order_steps; exact Hb2. }
  destruct (rest_or_release_shape _ _ _ _ _ _ _ Hb3) as [S3| ->].
  - exists a, pool, b3, b3. repeat split; [assumption| |left; reflexivity].
    eapply book_steps_trans; eassumption.
  - exists a, pool, b2, (released (OrderBook.next_order_id b) a b2).
    repeat split; [assumption|assumption|right; reflexivity].
Qed.

Lemma cancel_order_shape order_id b r b' :
  OrderBook.cancel_order order_id b = Ok (r, b') ->
  (OrderBook.orders_ b !! order_id = None /\ r = false /\ b' = b) \/
  exists a b1 o,
    OrderBook.orders_ b !! order_id = Some a /\ r = true /\
    book_steps b b1 /\
    OrderBook.events b1 = OrderBook.events b /\
    OrderBook.cells b1 !! a = Some o /\
    b' = released order_id a
           (OrderBook.notify_order_update (Order.with_status CANCELLED o)
              (OrderBook.with_cells (<[a := Order.with_status CANCELLED o]> (OrderBook.cells b1)) b1)).
Proof.
  unfold OrderBook.cancel_order. intros H.
  destruct (OrderBook.orders_ b !! order_id) as [a|] eqn:Ha.
  2: { injection H as <- <-. left. repeat split. }
  right. res_inv H as o Ho. res_inv H as b1 Hb1. res_inv H as m Hm. res_inv H as o1 Ho1.
  injection H as <- <-.
  apply store_inv in Hm. destruct Hm as (o2 & Ho2 & ->).
  apply load_inv in Ho1.
  assert (o1 = Order.with_status CANCELLED o2) as ->.
  { destruct b1; cbn in Ho1. rewrite lookup_insert_eq in Ho1. congruence. }
  exists a, b1, o2. repeat split; try assumption.
  - destruct (negb _); [|injection Hb1 as <-; constructor].
    res_inv Hb1 as b2 Hb2. res_inv Hb1 as o3 Ho3. injection Hb1 as <-.
    eapply book_steps_trans; [apply get_or_create_level_steps|].
    eapply book_steps_trans.
    { eapply on_level_steps; [|exact Hb2]. intros; eapply remove_order_price; eauto. }
    apply remove_level_if_empty_steps.
  - destruct (negb _); [|injection Hb1 as <-; reflexivity].
    res_inv Hb1 as b2 Hb2. res_inv Hb1 as o3 Ho3. injection Hb1 as <-.
    unfold OrderBook.remove_level_if_empty.
    assert (OrderBook.events b2 = OrderBook.events b) as E2.
    { unfold OrderBook.on_level in Hb2.
      destruct (LevelMap.find _ _); [|discriminate].
      res_inv Hb2 as lm Hlm. destruct lm. injection Hb2 as <-.
      unfold OrderBook.get_or_create_level.
      destruct (LevelMap.find _ _); destruct (Order.side o), b; reflexivity. }
    destruct (LevelMap.find _ _); [|assumption].
    destruct (PriceLevel.is_empty _); [|assumption].
    rewrite <- E2. destruct (Order.side o3), b2; reflexivity.
Qed.

(** *** Sessions *)

Lemma modify_order_shape fuel order_id new_price new_quantity b r b' :
  OrderBook.modify_order fuel order_id new_price new_quantity b = Ok (r, b') ->
  (OrderBook.orders_ b !! order_id = None /\ r = false /\ b' = b) \/
  exists a o b1 id,
    OrderBook.orders_ b !! order_id = Some a /\ OrderBook.cells b !! a = Some o /\
    r = true /\
    OrderBook.cancel_order order_id b = Ok (true, b1) /\
    OrderBook.add_order fuel new_price new_quantity (Order.side o) (Order.type o) b1
    = Ok (id, b').
Proof.
  unfold OrderBook.modify_order. intros H.
  destruct (OrderBook.orders_ b !! order_id) as [a|] eqn:Ha.
  2: { injection H as <- <-. left. repeat split. }
  right. res_inv H as o Ho. res_inv H as c Hc. destruct c as [rc b1].
  res_inv H as d Hd. destruct d as [id b2]. injection H as <- <-.
  apply load_inv in Ho. exists a, o, b1, id. repeat split; try assumption.
  destruct (cancel_order_shape _ _ _ _ Hc) as [(E & _)|(? & ? & ? & _ & -> & _)];
    [congruence|assumption].
Qed.

Lemma run_invariant (P : OrderBook.t -> Prop) :
  (forall fuel p q s ty b id b',
     P b -> OrderBook.add_order fuel p q s ty b = Ok (id, b') -> P b') ->
  (forall i b r b', P b -> OrderBook.cancel_order i b = Ok (r, b') -> P b') ->
  forall fuel ops b b', P b -> run fuel ops b = Ok b' -> P b'.
Proof.
  intros Hadd Hcancel fuel ops. induction ops as [|op ops IH]; intros b b' Hb H; cbn in H.
  - injection H as <-. exact Hb.
  - res_inv H as b1 Hb1. apply (IH b1); [|exact H]. clear IH H.
    destruct op as [p q s ty|i|i p q]; cbn in Hb1; res_inv Hb1 as x Hx; destruct x as [r b2];
      injection Hb1 as <-.
    + eapply Hadd; eauto.
    + eapply Hcancel; eauto.
    + destruct (modify_order_shape _ _ _ _ _ _ _ Hx)
        as [(_ & _ & ->)|(a & o & b3 & id & _ & _ & _ & Hc & Ha)]; [exact Hb|].
      eapply Hadd; [|exact Ha]. eapply Hcancel; eauto.
Qed.

(** *** The two sides stay in the order of their comparison objects *)

Lemma before_trans s a b c :
  OrderBook.before s a b = true -> OrderBook.before s b c = true ->
  OrderBook.before s a c = true.
Proof. destruct s; cbn; lia. Qed.

Lemma before_total s a b :
  a <> b -> OrderBook.before s a b = false -> OrderBook.before s b a = true.
Proof. destruct s; cbn; lia. Qed.

Lemma Forall_key_insert (P : Z -> Prop) before k v m :
  P k -> Forall (fun e => P (fst e)) m ->
  Forall (fun e => P (fst e)) (LevelMap.insert before k v m).
Proof.
  intros Hk. induction 1 as [|[k' v'] rest Hh Ht IH]; cbn.
  - repeat constructor. exact Hk.
  - destruct (before k k'); repeat constructor; assumption.
Qed.

Lemma Forall_key_set (P : Z -> Prop) k v m :
  Forall (fun e => P (fst e)) m -> Forall (fun e => P (fst e)) (LevelMap.set k v m).
Proof.
  induction 1 as [|[k' v'] rest Hh Ht IH]; cbn; [constructor|].
  destruct (k' =? k); constructor; assumption.
Qed.

Lemma Forall_key_erase (P : Z -> Prop) k m :
  Forall (fun e => P (fst e)) m -> Forall (fun e => P (fst e)) (LevelMap.erase k m).
Proof.
  induction 1 as [|[k' v'] rest Hh Ht IH]; cbn; [constructor|].
  destruct (k' =? k); [|constructor]; assumption.
Qed.

Lemma side_sorted_insert s k m :
  side_sorted (OrderBook.before s) m -> LevelMap.find k m = None ->
  side_sorted (OrderBook.before s) (LevelMap.insert (OrderBook.before s) k (PriceLevel.new k) m).
Proof.
  induction m as [|[k' v'] rest IH]; cbn.
  - intros _ _. repeat split. constructor.
  - intros (Hp & Hall & Hs). destruct (k' =? k) eqn:E; [discriminate|]. intros Hf.
    apply Z.eqb_neq in E.
    destruct (OrderBook.before s k k') eqn:B; cbn.
    + repeat split; try assumption. constructor; [exact B|].
      eapply Forall_impl; [exact Hall|]. cbn. intros e He. eapply before_trans; eauto.
    + repeat split; [assumption| |auto].
      apply (Forall_key_insert (fun x => OrderBook.before s k' x = true)); [|assumption].
      apply before_total; [congruence|assumption].
Qed.

Lemma side_sorted_find before k l m :
  side_sorted before m -> LevelMap.find k m = Some l -> PriceLevel.price l = k.
Proof.
  induction m as [|[k' v'] rest IH]; cbn; [discriminate|].
  intros (Hp & _ & Hs). destruct (k' =? k) eqn:E.
  - intros [= <-]. apply Z.eqb_eq in E. congruence.
  - auto.
Qed.

Lemma side_sorted_set before k l v m :
  side_sorted before m -> LevelMap.find k m = Some l ->
  PriceLevel.price v = PriceLevel.price l ->
  side_sorted before (LevelMap.set k v m).
Proof.
  induction m as [|[k' v'] rest IH]; cbn; [discriminate|].
  intros (Hp & Hall & Hs). destruct (k' =? k) eqn:E; cbn.
  - intros [= <-] Hv. split; [congruence|]. split; assumption.
  - intros Hf Hv. split; [assumption|]. split; [|auto].
    apply (Forall_key_set (fun x => before k' x = true)). assumption.
Qed.

Lemma side_sorted_erase before k m :
  side_sorted before m -> side_sorted before (LevelMap.erase k m).
Proof.
  induction m as [|[k' v'] rest IH]; cbn; [trivial|].
  intros (Hp & Hall & Hs). destruct (k' =? k); cbn; [assumption|].
  repeat split; [assumption| |auto].
  apply (Forall_key_erase (fun x => before k' x = true)). assumption.
Qed.

Lemma sides_sorted_levels b :
  sides_sorted b <-> forall s, side_sorted (OrderBook.before s) (OrderBook.levels s b).
Proof.
  split.
  - intros [Hb Ha] []; assumption.
  - intros H. split; [apply (H BUY)|apply (H SELL)].
Qed.

Lemma side_cases (s s' : Side) : s = s' \/ s <> s'.
Proof. destruct s, s'; auto; right; discriminate. Qed.

Lemma levels_with_other s s' v b :
  s <> s' -> OrderBook.levels s (OrderBook.with_levels s' v b) = OrderBook.levels s b.
Proof. destruct s, s', b; intros H; try reflexivity; congruence. Qed.

Lemma book_step_sorted b b' : book_step b b' -> sides_sorted b -> sides_sorted b'.
Proof.
  rewrite !sides_sorted_levels.
  destruct 1 as [m b|s k l v b Hf Hv|s k b Hf|s k b|tr b|o b]; intros H s'.
  - rewrite levels_with_cells. apply H.
  - destruct (side_cases s' s) as [->|Hne];
      [rewrite levels_with_levels; eapply side_sorted_set; eauto
      |rewrite levels_with_other by assumption; apply H].
  - destruct (side_cases s' s) as [->|Hne];
      [rewrite levels_with_levels; eapply side_sorted_insert; eauto
      |rewrite levels_with_other by assumption; apply H].
  - destruct (side_cases s' s) as [->|Hne];
      [rewrite levels_with_levels; eapply side_sorted_erase; eauto
      |rewrite levels_with_other by assumption; apply H].
  - unfold OrderBook.notify_trade. rewrite levels_notify, levels_statistics. apply H.
  - unfold OrderBook.notify_order_update. rewrite levels_notify. apply H.
Qed.

Lemma book_steps_sorted b b' : book_steps b b' -> sides_sorted b -> sides_sorted b'.
Proof. induction 1; eauto using book_step_sorted. Qed.

Lemma add_order_sorted fuel p q s ty b id b' :
  sides_sorted b -> OrderBook.add_order fuel p q s ty b = Ok (id, b') -> sides_sorted b'.
Proof.
  intros Hs H. apply add_order_shape in H.
  destruct H as (_ & a & pool & b2 & b3 & _ & S & Hb3 & ->).
  assert (sides_sorted b2) as H2.
  { eapply book_steps_sorted; [exact S|]. destruct b; exact Hs. }
  destruct Hb3 as [-> | ->]; destruct b2; exact H2.
Qed.

Lemma cancel_order_sorted i b r b' :
  sides_sorted b -> OrderBook.cancel_order i b = Ok (r, b') -> sides_sorted b'.
Proof.
  intros Hs H. apply cancel_order_shape in H.
  destruct H as [(_ & _ & ->)|(a & b1 & o & _ & _ & S & _ & _ & ->)]; [exact Hs|].
  assert (sides_sorted b1) as H1 by (eapply book_steps_sorted; eauto).
  destruct b1; exact H1.
Qed.

(** X7.  in every book a session reaches, bids run from the highest price
    down and asks from the lowest price up, without a repeated price, and
    each level sits under its own price. *)
Theorem session_sides_sorted (fuel : nat) (ops : list Op) (b : OrderBook.t) :
  run fuel ops OrderBook.new = Ok b -> sides_sorted b.
Proof.
  apply (run_invariant sides_sorted).
  - intros; eapply add_order_sorted; eauto.
  - intros; eapply cancel_order_sorted; eauto.
  - split; exact I.
Qed.

Lemma before_irrefl s a : OrderBook.before s a a = false.
Proof. destruct s; cbn; lia. Qed.

Lemma side_sorted_in s k l m :
  side_sorted (OrderBook.before s) m -> In (k, l) m ->
  LevelMap.find k m = Some l /\
  exists best v rest, m = (best, v) :: rest /\
                      (best = k \/ OrderBook.before s best k = true).
Proof.
  induction m as [|[k' v'] rest IH]; cbn [side_sorted In LevelMap.find]; [tauto|].
  intros (Hp & Hall & Hs) [[= -> ->]|Hin].
  - rewrite Z.eqb_refl. eauto 7.
  - rewrite List.Forall_forall in Hall. pose proof (Hall _ Hin) as Hb. cbn [fst] in Hb.
    split; [|eauto 7].
    destruct (k' =? k) eqn:E.
    + apply Z.eqb_eq in E. rewrite E, before_irrefl in Hb. discriminate.
    + apply IH; assumption.
Qed.

(** X8.  when the sides are in order, the best bid is the highest bid price
    and the best ask the lowest ask price, and a price query reads the one
    level that sits under the price. *)
Theorem best_prices_extremal (b : OrderBook.t) (s : Side) (p : Z) (l : PriceLevel.t) :
  sides_sorted b ->
  In (p, l) (OrderBook.levels s b) ->
  OrderBook.get_volume_at_price p s b = PriceLevel.total_quantity l /\
  match s with
  | BUY => exists best, OrderBook.get_best_bid b = Some best /\ p <= best
  | SELL => exists best, OrderBook.get_best_ask b = Some best /\ best <= p
  end.
Proof.
  intros Hs Hin. apply sides_sorted_levels with (s := s) in Hs.
  destruct (side_sorted_in _ _ _ _ Hs Hin) as (Hf & best & v & rest & Hm & Hbest).
  unfold OrderBook.get_volume_at_price. rewrite Hf. split; [reflexivity|].
  destruct s; cbn in Hm, Hbest.
  - unfold OrderBook.get_best_bid. rewrite Hm. exists best. split; [reflexivity|lia].
  - unfold OrderBook.get_best_ask. rewrite Hm. exists best. split; [reflexivity|lia].
Qed.

(** *** Order ids and the index *)

Lemma add_order_frame fuel price quantity side type b id b' :
  OrderBook.add_order fuel price quantity side type b = Ok (id, b') ->
  id = OrderBook.next_order_id b /\
  OrderBook.next_order_id b' = u64 (id + 1) /\
  ((exists a, OrderBook.orders_ b' = <[id := a]> (OrderBook.orders_ b)) \/
   OrderBook.orders_ b' = delete id (OrderBook.orders_ b)).
Proof.
  intros H. apply add_order_shape in H.
  destruct H as (-> & a & pool & b2 & b3 & _ & S & Hb3 & ->).
  apply book_steps_frame in S. destruct S as (So & _ & Sn).
  split; [reflexivity|].
  assert (OrderBook.orders_ b2
          = <[OrderBook.next_order_id b := a]> (OrderBook.orders_ b)) as Eo
    by (rewrite So; destruct b; reflexivity).
  assert (OrderBook.next_order_id b2 = u64 (OrderBook.next_order_id b + 1)) as En
    by (rewrite Sn; destruct b; reflexivity).
  destruct Hb3 as [-> | ->]; (split; [destruct b2; exact En|]).
  - left. exists a. rewrite <- Eo. destruct b2; reflexivity.
  - right. rewrite <- (delete_insert_eq (OrderBook.orders_ b) (OrderBook.next_order_id b) a).
    rewrite <- Eo. destruct b2; reflexivity.
Qed.

Lemma add_order_others fuel price quantity side type b id b' j :
  OrderBook.add_order fuel price quantity side type b = Ok (id, b') ->
  j <> OrderBook.next_order_id b ->
  OrderBook.orders_ b' !! j = OrderBook.orders_ b !! j.
Proof.
  intros H Hj. apply add_order_frame in H. destruct H as (-> & _ & [[a ->] | ->]).
  - apply lookup_insert_ne. congruence.
  - apply lookup_delete_ne. congruence.
Qed.

Lemma cancel_order_gone order_id b r b' :
  OrderBook.cancel_order order_id b = Ok (r, b') ->
  OrderBook.orders_ b' !! order_id = None.
Proof.
  intros H. apply cancel_order_shape in H.
  destruct H as [(E & _ & ->)|(a & b1 & o & _ & _ & _ & _ & _ & ->)]; [exact E|].
  destruct b1; cbn. apply lookup_delete_eq.
Qed.

Lemma cancel_order_frame order_id b r b' :
  OrderBook.cancel_order order_id b = Ok (r, b') ->
  (forall j, j <> order_id -> OrderBook.orders_ b' !! j = OrderBook.orders_ b !! j) /\
  OrderBook.next_order_id b' = OrderBook.next_order_id b.
Proof.
  intros H. apply cancel_order_shape in H.
  destruct H as [(_ & _ & ->)|(a & b1 & o & _ & _ & S & E & _ & ->)]; [split; reflexivity|].
  apply book_steps_frame in S. destruct S as (So & _ & Sn). split.
  - intros j Hj. rewrite <- So. destruct b1; cbn. apply lookup_delete_ne. congruence.
  - rewrite <- Sn. destruct b1; reflexivity.
Qed.

(** X3.  once [cancel_order] has returned for an id, the id is in the index
    no more: [get_order] finds nothing, and a second [cancel_order] returns
    false and leaves the book as it is. *)
Theorem cancel_order_forgets (order_id : Z) (b b' : OrderBook.t) (r : bool) :
  OrderBook.cancel_order order_id b = Ok (r, b') ->
  OrderBook.orders_ b' !! order_id = None /\
  OrderBook.get_order order_id b' = Ok None /\
  OrderBook.cancel_order order_id b' = Ok (false, b').
Proof.
  intros H. apply cancel_order_gone in H.
  unfold OrderBook.get_order, OrderBook.cancel_order. rewrite H. repeat split.
Qed.

(** X4.  a [cancel_order] that returns true calls the order callbacks once,
    with the order in status [CANCELLED], and no other callback; the other
    entries of the index and the id counter are as before, and
    [get_order_count] is one less. *)
Theorem cancel_order_reports (order_id : Z) (b b' : OrderBook.t) :
  OrderBook.cancel_order order_id b = Ok (true, b') ->
  (exists o, OrderBook.events b' = OrderBook.events b ++ [OrderEvent o] /\
             Order.status o = CANCELLED) /\
  (forall j, j <> order_id -> OrderBook.orders_ b' !! j = OrderBook.orders_ b !! j) /\
  OrderBook.next_order_id b' = OrderBook.next_order_id b /\
  S (OrderBook.get_order_count b') = OrderBook.get_order_count b.
Proof.
  intros H. pose proof (cancel_order_frame _ _ _ _ H) as (Hidx & Hnext).
  apply cancel_order_shape in H.
  destruct H as [(_ & [=] & _)|(a & b1 & o & Ha & _ & S & E & _ & ->)].
  apply book_steps_frame in S. destruct S as (So & _ & Sn).
  split; [|split; [exact Hidx|split; [exact Hnext|]]].
  - exists (Order.with_status CANCELLED o). split; [|reflexivity].
    rewrite <- E. destruct b1; reflexivity.
  - unfold OrderBook.get_order_count.
    assert (OrderBook.orders_
              (released order_id a
                 (OrderBook.notify_order_update (Order.with_status CANCELLED o)
                    (OrderBook.with_cells
                       (<[a:=Order.with_status CANCELLED o]> (OrderBook.cells b1)) b1)))
            = delete order_id (OrderBook.orders_ b)) as ->
      by (rewrite <- So; destruct b1; reflexivity).
    rewrite map_size_delete, Ha.
    assert (size (OrderBook.orders_ b) <> 0%nat); [|lia].
    intros Hz. apply map_size_empty_inv in Hz. rewrite Hz in Ha.
    rewrite lookup_empty in Ha. discriminate.
Qed.

Lemma ids_below_mono n n' b : n <= n' -> ids_below n b -> ids_below n' b.
Proof. intros Hn ((H1 & H2) & H). split; [lia|assumption]. Qed.

(** One call: the counter advances by at most one, and the ids in the index
    stay between the bound [lo] and the counter. *)
Lemma step_ids lo fuel op b b' :
  step fuel op b = Ok b' ->
  0 <= OrderBook.next_order_id b -> OrderBook.next_order_id b + 1 < 2 ^ 64 ->
  lo <= OrderBook.next_order_id b ->
  (forall j, is_Some (OrderBook.orders_ b !! j) -> lo <= j < OrderBook.next_order_id b) ->
  OrderBook.next_order_id b <= OrderBook.next_order_id b' <= OrderBook.next_order_id b + 1 /\
  (forall j, is_Some (OrderBook.orders_ b' !! j) -> lo <= j < OrderBook.next_order_id b').
Proof.
  intros H H0 Hmax Hlo Hidx.
  assert (Hadd : forall fuel p q s ty b1 id b2,
            OrderBook.next_order_id b1 = OrderBook.next_order_id b ->
            (forall j, is_Some (OrderBook.orders_ b1 !! j) ->
                       lo <= j < OrderBook.next_order_id b) ->
            OrderBook.add_order fuel p q s ty b1 = Ok (id, b2) ->
            OrderBook.next_order_id b2 = OrderBook.next_order_id b + 1 /\
            forall j, is_Some (OrderBook.orders_ b2 !! j) ->
                      lo <= j < OrderBook.next_order_id b + 1).
  { intros fuel' p q s ty b1 id b2 En Hidx1 Ha.
    assert (forall j, j <> OrderBook.next_order_id b1 ->
                      OrderBook.orders_ b2 !! j = OrderBook.orders_ b1 !! j) as Hother
      by (intros j Hj; eapply add_order_others; eauto).
    apply add_order_frame in Ha. destruct Ha as (-> & Hnext & _).
    rewrite En in *. rewrite u64_small in Hnext by (unfold in_u64; lia).
    split; [exact Hnext|]. intros j Hj.
    destruct (decide (j = OrderBook.next_order_id b)) as [->|Hne]; [lia|].
    rewrite Hother in Hj by assumption. apply Hidx1 in Hj. lia. }
  assert (Hcancel : forall i r b1,
            OrderBook.cancel_order i b = Ok (r, b1) ->
            OrderBook.next_order_id b1 = OrderBook.next_order_id b /\
            forall j, is_Some (OrderBook.orders_ b1 !! j) ->
                      lo <= j < OrderBook.next_order_id b).
  { intros i r b1 Hc. pose proof (cancel_order_gone _ _ _ _ Hc) as Hgone.
    apply cancel_order_frame in Hc. destruct Hc as (Hother & Hnext).
    split; [exact Hnext|]. intros j Hj.
    destruct (decide (j = i)) as [->|Hne]; [rewrite Hgone in Hj; destruct Hj; discriminate|].
    rewrite Hother in Hj by assumption. auto. }
  destruct op as [p q s ty|i|i p q]; cbn [step] in H; res_inv H as x Hx;
    destruct x as [r b2]; injection H as <-.
  - destruct (Hadd _ _ _ _ _ _ _ _ eq_refl Hidx Hx) as (-> & Hidx'). split; [lia|exact Hidx'].
  - destruct (Hcancel _ _ _ Hx) as (-> & Hidx'). split; [lia|exact Hidx'].
  - destruct (modify_order_shape _ _ _ _ _ _ _ Hx)
      as [(_ & _ & ->)|(a & o & b3 & id & _ & _ & _ & Hc & Ha)].
    + split; [lia|exact Hidx].
    + destruct (Hcancel _ _ _ Hc) as (En & Hidx3).
      destruct (Hadd _ _ _ _ _ _ _ _ En Hidx3 Ha) as (-> & Hidx'). split; [lia|exact Hidx'].
Qed.

Lemma shared_run_ids lo n b b' :
  shared_run n b b' ->
  forall m, 0 <= lo <= OrderBook.next_order_id b -> OrderBook.next_order_id b <= m ->
  m + n < 2 ^ 64 ->
  (forall j, is_Some (OrderBook.orders_ b !! j) -> lo <= j < OrderBook.next_order_id b) ->
  0 <= n /\
  lo <= OrderBook.next_order_id b' <= m + n /\
  (forall j, is_Some (OrderBook.orders_ b' !! j) -> lo <= j < OrderBook.next_order_id b').
Proof.
  induction 1 as [b|n fuel op b b1 b2 Hstep Hrun IH|n k b b2 Hk Hrun IH];
    intros m Hlo Hm Hmax Hidx.
  - split; [lia|]. split; [lia|exact Hidx].
  - assert (0 <= n) as Hn.
    { clear -Hrun. induction Hrun; lia. }
    destruct (step_ids lo fuel op b b1 Hstep) as (Hnext & Hidx1); [lia|lia|lia|exact Hidx|].
    destruct (IH (m + 1)) as (_ & Hb2 & Hidx2); [lia|lia|lia|exact Hidx1|].
    split; [lia|]. split; [lia|exact Hidx2].
  - assert (0 <= n) as Hn.
    { clear -Hrun. induction Hrun; lia. }
    assert (En : OrderBook.next_order_id (OrderBook.elsewhere k b)
                 = OrderBook.next_order_id b + k).
    { unfold OrderBook.elsewhere, OrderBook.with_next_id. cbn [OrderBook.next_order_id].
      apply u64_small. unfold in_u64. lia. }
    assert (Eo : OrderBook.orders_ (OrderBook.elsewhere k b) = OrderBook.orders_ b)
      by (destruct b; reflexivity).
    destruct (IH (m + k)) as (_ & Hb2 & Hidx2); [lia|lia|lia| |].
    { rewrite En, Eo. intros j Hj. apply Hidx in Hj. lia. }
    split; [lia|]. split; [lia|exact Hidx2].
Qed.

(** X6.  whatever the id counter of the process stands at when a book is
    created, and however the orders submitted to other books advance it
    between the calls on this book, as long as it does not wrap every id in
    the index of the book lies between the value the counter had at
    creation and its present value, so the id that the next order takes is
    not the id of an order in the index. *)
Theorem session_ids_fresh (n next : Z) (b : OrderBook.t) :
  shared_run n (OrderBook.create next) b ->
  0 <= next -> next + n < 2 ^ 64 ->
  next <= OrderBook.next_order_id b <= next + n /\
  (forall j, is_Some (OrderBook.orders_ b !! j) -> next <= j < OrderBook.next_order_id b) /\
  OrderBook.orders_ b !! OrderBook.next_order_id b = None.
Proof.
  intros Hrun Hnext Hmax.
  destruct (shared_run_ids next n _ b Hrun next) as (_ & Hb & Hidx);
    [cbn; lia|cbn; lia|lia| |].
  { intros j [x Hj]. cbn in Hj. rewrite lookup_empty in Hj. discriminate. }
  split; [exact Hb|]. split; [exact Hidx|].
  destruct (OrderBook.orders_ b !! OrderBook.next_order_id b) eqn:E; [|reflexivity].
  assert (is_Some (OrderBook.orders_ b !! OrderBook.next_order_id b)) as Hs by (rewrite E; eauto).
  apply Hidx in Hs. lia.
Qed.

(** *** The rolling trade window *)

Lemma last_n_snoc {A} (n : nat) (l : list A) (x : A) :
  (0 < n)%nat ->
  last_n n (l ++ [x])
  = if (n <? length (last_n n l ++ [x]))%nat
    then List.tl (last_n n l ++ [x]) else last_n n l ++ [x].
Proof.
  intros Hn. unfold last_n.
  rewrite !length_app, length_skipn. cbn [length].
  destruct (Nat.ltb_spec n (length l - (length l - n) + 1)) as [Hlt|Hge].
  - assert (n <= length l)%nat by lia.
    replace (length l + 1 - n)%nat with (S (length l - n)) by lia.
    rewrite skipn_app.
    replace (S (length l - n) - length l)%nat with O by lia. cbn [skipn].
    assert (exists y r, skipn (length l - n) l = y :: r) as (y & r & E).
    { destruct (skipn (length l - n) l) eqn:E; [|eauto].
      apply (f_equal (@length A)) in E. rewrite length_skipn in E. cbn in E. lia. }
    rewrite E. cbn [app List.tl].
    assert (skipn (S (length l - n)) l = r) as ->; [|reflexivity].
    change (S (length l - n)) with (1 + (length l - n))%nat.
    rewrite <- skipn_skipn, E. reflexivity.
  - assert (length l < n)%nat by lia.
    replace (length l + 1 - n)%nat with O by lia.
    replace (length l - n)%nat with O by lia. reflexivity.
Qed.

Lemma trades_notify_order o b :
  OrderBook.trades (OrderBook.notify_order_update o b) = OrderBook.trades b.
Proof.
  destruct b; unfold OrderBook.trades; cbn. rewrite omap_app. cbn. apply app_nil_r.
Qed.

Lemma book_step_window b b' : book_step b b' -> window_ok b -> window_ok b'.
Proof.
  destruct 1 as [m b|s k l v b Hf Hv|s k b Hf|s k b|tr b|o b]; intros [Hp Hq].
  1-4: try destruct s; destruct b; split; assumption.
  - assert (OrderBook.trades (OrderBook.notify_trade tr (OrderBook.update_market_statistics tr b))
            = OrderBook.trades b ++ [tr]) as Et.
    { destruct b; unfold OrderBook.trades, OrderBook.update_market_statistics.
      destruct (_ <? _)%nat; cbn; rewrite omap_app; reflexivity. }
    unfold window_ok. rewrite Et, !map_app. cbn [map].
    rewrite !last_n_snoc by (unfold MAX_RECENT_TRADES; lia).
    rewrite <- Hp, <- Hq.
    assert (length (OrderBook.recent_trade_quantities_ b ++ [Trade.quantity tr])
            = length (OrderBook.recent_trade_prices_ b ++ [Trade.price tr])) as El.
    { rewrite !length_app, Hp, Hq. unfold last_n. rewrite !length_skipn, !length_map. reflexivity. }
    rewrite El. unfold OrderBook.update_market_statistics.
    destruct (_ <? _)%nat; destruct b; split; reflexivity.
  - unfold window_ok. rewrite trades_notify_order. destruct b; split; assumption.
Qed.

Lemma book_steps_window b b' : book_steps b b' -> window_ok b -> window_ok b'.
Proof. induction 1; eauto using book_step_window. Qed.

Lemma window_ok_ext b b' :
  OrderBook.recent_trade_prices_ b' = OrderBook.recent_trade_prices_ b ->
  OrderBook.recent_trade_quantities_ b' = OrderBook.recent_trade_quantities_ b ->
  OrderBook.trades b' = OrderBook.trades b ->
  window_ok b -> window_ok b'.
Proof. unfold window_ok. intros -> -> ->. trivial. Qed.

Lemma add_order_window fuel p q s ty b id b' :
  window_ok b -> OrderBook.add_order fuel p q s ty b = Ok (id, b') -> window_ok b'.
Proof.
  intros Hw H. apply add_order_shape in H.
  destruct H as (_ & a & pool & b2 & b3 & _ & S & Hb3 & ->).
  assert (window_ok b2) as H2.
  { eapply book_steps_window; [exact S|].
    eapply window_ok_ext; [| | |exact Hw]; destruct b; reflexivity. }
  assert (window_ok b3) as H3.
  { destruct Hb3 as [-> | ->]; [exact H2|].
    eapply window_ok_ext; [| | |exact H2]; destruct b2; reflexivity. }
  eapply window_ok_ext; [| | |exact H3]; try (destruct b3; reflexivity).
  destruct b3; unfold OrderBook.trades; cbn. rewrite omap_app. cbn. apply app_nil_r.
Qed.

Lemma cancel_order_window i b r b' :
  window_ok b -> OrderBook.cancel_order i b = Ok (r, b') -> window_ok b'.
Proof.
  intros Hw H. apply cancel_order_shape in H.
  destruct H as [(_ & _ & ->)|(a & b1 & o & _ & _ & S & _ & _ & ->)]; [exact Hw|].
  assert (window_ok b1) as H1 by (eapply book_steps_window; eauto).
  eapply window_ok_ext; [| | |exact H1]; try (destruct b1; reflexivity).
  destruct b1; unfold OrderBook.trades; cbn. rewrite omap_app. cbn. apply app_nil_r.
Qed.

Lemma last_skipn {A} (d : A) : forall n l,
  (n < length l)%nat -> List.last (skipn n l) d = List.last l d.
Proof.
  induction n as [|n IH]; intros l Hn; [reflexivity|].
  destruct l as [|x l]; cbn [length] in Hn; [lia|].
  cbn [skipn]. rewrite IH by lia.
  destruct l; [cbn in Hn; lia|reflexivity].
Qed.

(** X9.  in every book a session reaches, the rolling window holds the prices
    and quantities of the last 100 trades reported to the trade callbacks, in
    their order; so it never holds more than 100 entries, and the last
    trade of a snapshot is the last trade reported. *)
Theorem session_trade_window (fuel : nat) (ops : list Op) (b : OrderBook.t) :
  run fuel ops OrderBook.new = Ok b ->
  window_ok b /\
  (length (OrderBook.recent_trade_prices_ b) <= MAX_RECENT_TRADES)%nat /\
  MarketState.last_trade_price (OrderBook.get_market_state b)
  = List.last (map Trade.price (OrderBook.trades b)) 0.
Proof.
  intros H.
  assert (window_ok b) as Hw.
  { revert H. apply (run_invariant window_ok).
    - intros; eapply add_order_window; eauto.
    - intros; eapply cancel_order_window; eauto.
    - split; reflexivity. }
  split; [exact Hw|]. destruct Hw as [Hp _].
  split.
  - rewrite Hp. unfold last_n. rewrite length_skipn. lia.
  - assert (List.last (OrderBook.recent_trade_prices_ b) 0
            = List.last (map Trade.price (OrderBook.trades b)) 0) as <-.
    { rewrite Hp. unfold last_n.
      generalize (map Trade.price (OrderBook.trades b)). intros l.
      destruct l as [|x l]; [reflexivity|].
      apply last_skipn. cbn [length]. unfold MAX_RECENT_TRADES. lia. }
    unfold OrderBook.get_market_state.
    destruct (OrderBook.get_best_bid b), (OrderBook.get_best_ask b); reflexivity.
Qed.

(** *** The memory pool *)


Lemma nodes_from_spec n : forall a x,
  In x (MemoryPool.nodes_from n a) <-> (a <= x < a + N.of_nat n)%N.
Proof.
  induction n as [|n IH]; intros a x; cbn [MemoryPool.nodes_from In].
  - lia.
  - rewrite IH. lia.
Qed.

Lemma nodes_from_NoDup n : forall a, NoDup (MemoryPool.nodes_from n a).
Proof.
  induction n as [|n IH]; intros a; cbn [MemoryPool.nodes_from]; [constructor|].
  constructor; [|apply IH].
  rewrite list_elem_of_In, nodes_from_spec. lia.
Qed.

Lemma allocate_block_ok p : pool_ok p -> pool_ok (MemoryPool.allocate_block p).
Proof.
  intros [Hnd Hb]. rewrite List.Forall_forall in Hb.
  unfold pool_ok, MemoryPool.allocate_block, MemoryPool.block_nodes.
  cbn [MemoryPool.free_list_ MemoryPool.blocks_ MemoryPool.block_size_]. split.
  - apply NoDup_app. split; [apply nodes_from_NoDup|]. split; [|exact Hnd].
    intros x Hx Hx'. rewrite list_elem_of_In in Hx, Hx'.
    apply nodes_from_spec in Hx. apply Hb in Hx'. lia.
  - apply List.Forall_forall. intros x Hx. apply in_app_or in Hx. destruct Hx as [Hx|Hx].
    + apply nodes_from_spec in Hx. lia.
    + apply Hb in Hx. lia.
Qed.

Lemma refill_ok p : pool_ok p -> pool_ok (MemoryPool.refill p).
Proof.
  intros H. unfold MemoryPool.refill. destruct (MemoryPool.free_list_ p); [|exact H].
  apply allocate_block_ok. exact H.
Qed.

Lemma allocate_ok p a p' :
  pool_ok p -> MemoryPool.allocate p = Ok (a, p') ->
  pool_ok p' /\ ~ In a (MemoryPool.free_list_ p') /\
  (a < MemoryPool.blocks_ p' * MemoryPool.block_size_ p')%N.
Proof.
  intros H Ha. apply refill_ok in H. unfold MemoryPool.allocate in Ha.
  destruct H as [Hnd Hb].
  destruct (MemoryPool.free_list_ (MemoryPool.refill p)) as [|x rest]; [discriminate|].
  injection Ha as <- <-. cbn.
  apply NoDup_cons in Hnd. destruct Hnd as [Hx Hnd]. rewrite list_elem_of_In in Hx.
  inversion Hb; subst. repeat split; assumption.
Qed.


Lemma allocate_origin p a p' :
  MemoryPool.allocate p = Ok (a, p') ->
  from_pool p a /\
  (forall x, from_pool p' x -> from_pool p x) /\
  MemoryPool.block_size_ p' = MemoryPool.block_size_ p.
Proof.
  unfold MemoryPool.allocate, MemoryPool.refill, from_pool.
  destruct (MemoryPool.free_list_ p) as [|y l] eqn:E.
  - unfold MemoryPool.allocate_block, MemoryPool.block_nodes.
    cbn [MemoryPool.free_list_ MemoryPool.blocks_ MemoryPool.block_size_].
    rewrite E, app_nil_r.
    destruct (MemoryPool.nodes_from _ _) as [|x rest] eqn:En; [discriminate|].
    intros [= <- <-]. cbn [MemoryPool.free_list_ MemoryPool.blocks_ MemoryPool.block_size_].
    assert (forall z, In z (x :: rest) ->
                      (MemoryPool.blocks_ p * MemoryPool.block_size_ p <= z)%N) as Hn.
    { intros z Hz. rewrite <- En in Hz. apply nodes_from_spec in Hz. lia. }
    split; [right; apply Hn; left; reflexivity|]. split; [|reflexivity].
    intros z [Hz|Hz]; right; [apply Hn; right; exact Hz|lia].
  - rewrite E. intros [= <- <-].
    cbn [MemoryPool.free_list_ MemoryPool.blocks_ MemoryPool.block_size_].
    split; [left; left; reflexivity|]. split; [|reflexivity].
    intros z [Hz|Hz]; [left; right; exact Hz|right; exact Hz].
Qed.

Lemma pool_new_ok B k : pool_ok (MemoryPool.new B k).
Proof.
  unfold MemoryPool.new. induction k as [|k IH]; cbn [Nat.iter].
  - split; constructor.
  - apply allocate_block_ok. exact IH.
Qed.

Lemma allocate_total p :
  MemoryPool.block_size_ p <> 0%N -> exists a p', MemoryPool.allocate p = Ok (a, p').
Proof.
  intros Hs. unfold MemoryPool.allocate, MemoryPool.refill.
  destruct (MemoryPool.free_list_ p) as [|y l] eqn:E.
  - unfold MemoryPool.allocate_block, MemoryPool.block_nodes.
    cbn [MemoryPool.free_list_ MemoryPool.blocks_ MemoryPool.block_size_].
    rewrite E.
    destruct (N.to_nat (MemoryPool.block_size_ p)) as [|n] eqn:En; [lia|].
    cbn [MemoryPool.nodes_from app]. eauto.
  - rewrite E. eauto.
Qed.

Lemma block_size_new B k : MemoryPool.block_size_ (MemoryPool.new B k) = B.
Proof. unfold MemoryPool.new. induction k as [|k IH]; cbn [Nat.iter]; [reflexivity|exact IH]. Qed.



Lemma pool_reuses_freed_cell_ok a p :
  pool_ok p -> ~ In a (MemoryPool.free_list_ p) ->
  (a < MemoryPool.blocks_ p * MemoryPool.block_size_ p)%N ->
  pool_ok (MemoryPool.deallocate a p).
Proof.
  intros [Hnd Hb] Hfree Hbound. split; cbn.
  - apply NoDup_cons. rewrite list_elem_of_In. split; assumption.
  - constructor; assumption.
Qed.

(** X19.  freeing a cell that is in use (in a block of the pool, not free)
    keeps the free cells distinct; the freed cell is the one handed out
    next, and the pool is then as it was before the cell was freed; without
    the free, the cell is not handed out. *)
Theorem pool_reuses_freed_cell (a : addr) (p : MemoryPool.t) :
  pool_ok p -> ~ In a (MemoryPool.free_list_ p) ->
  (a < MemoryPool.blocks_ p * MemoryPool.block_size_ p)%N ->
  pool_ok (MemoryPool.deallocate a p) /\
  MemoryPool.allocate (MemoryPool.deallocate a p) = Ok (a, p) /\
  (forall a' p', MemoryPool.allocate p = Ok (a', p') -> a' <> a).
Proof.
  intros Hp Hfree Hbound. split; [|split].
  - apply pool_reuses_freed_cell_ok; assumption.
  - destruct p; reflexivity.
  - intros a' p' Ha. apply allocate_origin in Ha. destruct Ha as ([Hin|Hge] & _).
    + intros ->. contradiction.
    + lia.
Qed.

(** *** Price-time priority on a level *)

Lemma level_inv_head (m : memory) l q :
  level_inv m l q -> PriceLevel.get_best_order l = List.head q.
Proof.
  intros (Hseg & _). unfold PriceLevel.get_best_order.
  destruct q as [|a q]; cbn in Hseg.
  - destruct Hseg as [-> _]. reflexivity.
  - destruct Hseg as [-> _]. reflexivity.
Qed.

(** X17.  on a level used by its contract, [get_best_order] returns the order
    that was added earliest among those still linked; while fewer than 2^32
    orders are linked, [is_empty] holds exactly when none is. *)
Theorem level_best_is_earliest (p : Z) (m : memory) (ops : list LevelOp) :
  legal m ops [] ->
  exists l m',
    level_run ops (PriceLevel.new p, m) = Ok (l, m') /\
    PriceLevel.get_best_order l = List.head (fifo_run ops []) /\
    (Z.of_nat (length (fifo_run ops [])) < 2 ^ 32 ->
     (PriceLevel.is_empty l = true <-> fifo_run ops [] = [])).
Proof.
  intros Hlegal.
  destruct (level_run_keeps_inv m ops (PriceLevel.new p) m []) as (l & m' & Hrun & Hinv & _).
  - split; [split; reflexivity|]. split; [apply NoDup_nil; exact I|]. split; reflexivity.
  - auto.
  - exact Hlegal.
  - exists l, m'. split; [exact Hrun|]. split; [eapply level_inv_head; exact Hinv|].
    intros Hlen. destruct Hinv as (_ & _ & _ & Hcnt).
    unfold PriceLevel.is_empty. rewrite Hcnt, u32_small by lia.
    destruct (fifo_run ops []) as [|a q]; cbn [length].
    + split; reflexivity.
    + split; [intros H; apply Z.eqb_eq in H; lia|discriminate].
Qed.

(** *** The snapshot and the point queries *)

Lemma In_firstn {A} (x : A) : forall n l, In x (firstn n l) -> In x l.
Proof.
  induction n as [|n IH]; intros [|y l]; cbn [firstn In]; try tauto.
  intros [H|H]; [left; exact H|right; apply IH; exact H].
Qed.

Lemma depth_in m p q :
  In (p, q) (OrderBook.depth m) ->
  exists l, In (p, l) m /\ q = PriceLevel.total_quantity l.
Proof.
  unfold OrderBook.depth. intros H. apply In_firstn in H. apply in_map_iff in H.
  destruct H as ([k l] & [= <- <-] & Hin). eauto.
Qed.

Lemma depth_volume b s p q :
  sides_sorted b -> In (p, q) (OrderBook.depth (OrderBook.levels s b)) ->
  q = OrderBook.get_volume_at_price p s b.
Proof.
  intros Hs Hin. apply depth_in in Hin. destruct Hin as (l & Hin & ->).
  apply sides_sorted_levels with (s := s) in Hs.
  destruct (side_sorted_in _ _ _ _ Hs Hin) as (Hf & _).
  unfold OrderBook.get_volume_at_price. rewrite Hf. reflexivity.
Qed.

(** X10.  the snapshot agrees with the point queries: its best prices and
    spread are those of [get_best_bid], [get_best_ask] and [get_spread]
    (0 where these have no value), each side lists at most 10 levels, as
    many as the side has if fewer, and, when the sides are in order, every
    listed level carries the quantity that [get_volume_at_price] returns for
    its price. *)
Theorem snapshot_agrees_with_queries (b : OrderBook.t) :
  let st := OrderBook.get_market_state b in
  MarketState.best_bid st = default 0 (OrderBook.get_best_bid b) /\
  MarketState.best_ask st = default 0 (OrderBook.get_best_ask b) /\
  MarketState.spread st = default 0 (OrderBook.get_spread b) /\
  length (MarketState.bid_levels st) = Nat.min DEPTH_LEVELS (OrderBook.get_bid_level_count b) /\
  length (MarketState.ask_levels st) = Nat.min DEPTH_LEVELS (OrderBook.get_ask_level_count b) /\
  (sides_sorted b ->
   (forall p q, In (p, q) (MarketState.bid_levels st) ->
                q = OrderBook.get_volume_at_price p BUY b) /\
   (forall p q, In (p, q) (MarketState.ask_levels st) ->
                q = OrderBook.get_volume_at_price p SELL b)).
Proof.
  cbv zeta. unfold OrderBook.get_market_state, OrderBook.get_spread.
  destruct (OrderBook.get_best_bid b), (OrderBook.get_best_ask b);
    cbn [MarketState.best_bid MarketState.best_ask MarketState.spread
         MarketState.bid_levels MarketState.ask_levels default];
    (repeat (split; [reflexivity|]));
    (split; [unfold OrderBook.depth, OrderBook.get_bid_level_count;
             rewrite length_firstn, length_map; reflexivity|]);
    (split; [unfold OrderBook.depth, OrderBook.get_ask_level_count;
             rewrite length_firstn, length_map; reflexivity|]);
    intros Hs; split; intros p q Hin.
  all: first [ exact (depth_volume b BUY p q Hs Hin) | exact (depth_volume b SELL p q Hs Hin) ].
Qed.

(** *** The agent *)

(** X20.  between a best bid below a best ask whose sum fits 64 bits, the
    aggressive price is the midpoint rounded down: at or above the bid
    and below the ask.  So an aggressive buy never reaches the ask, and an
    aggressive sell reaches the bid exactly when the spread is one tick. *)
Theorem aggressive_price_between (best_bid best_ask : Z) :
  in_s64 (best_bid + best_ask) ->
  best_bid < best_ask ->
  best_bid <= RLAgent.aggressive_price best_bid best_ask < best_ask /\
  OrderBook.no_cross BUY (RLAgent.aggressive_price best_bid best_ask) best_ask = true /\
  (OrderBook.no_cross SELL (RLAgent.aggressive_price best_bid best_ask) best_bid = false
   <-> best_ask = best_bid + 1).
Proof.
  intros Hs Hlt. unfold RLAgent.aggressive_price.
  rewrite s64_small by exact Hs. rewrite Z.shiftr_div_pow2 by lia.
  change (2 ^ 1) with 2.
  pose proof (Z.div_mod (best_bid + best_ask) 2 ltac:(lia)) as Hd.
  pose proof (Z.mod_pos_bound (best_bid + best_ask) 2 ltac:(lia)) as Hm.
  unfold OrderBook.no_cross. lia.
Qed.



Lemma still_active_spec b id :
  index_closed b -> RLAgent.still_active b id = Ok (active_in b id).
Proof.
  intros Hc. unfold RLAgent.still_active, OrderBook.get_order, active_in, order_status.
  destruct (OrderBook.orders_ b !! id) as [a|] eqn:E; [|reflexivity].
  destruct (Hc _ _ E) as [o Ho]. unfold load. rewrite Ho. reflexivity.
Qed.

Lemma compact_spec b : index_closed b -> forall n r w v,
  (w <= r)%nat -> (r + n = length v)%nat ->
  exists v',
    RLAgent.compact n r w v b
    = Ok (v', (w + length (filter (active_in b) (drop r v)))%nat) /\
    take (w + length (filter (active_in b) (drop r v))) v'
    = take w v ++ filter (active_in b) (drop r v).
Proof.
  intros Hc. induction n as [|n IH]; intros r w v Hw Hlen; cbn [RLAgent.compact].
  - rewrite drop_ge by lia. cbn. rewrite Nat.add_0_r, app_nil_r. eauto.
  - destruct (v !! r) as [id|] eqn:E;
      [|apply lookup_ge_None in E; lia].
    rewrite still_active_spec by exact Hc. cbn [rbind].
    rewrite (drop_S v id r E). rewrite filter_cons.
    destruct (active_in b id) eqn:Ef.
    + rewrite decide_True by exact I.
      destruct (IH (S r) (S w) (<[w := id]> v)) as (v' & Hrun & Htake);
        [lia|rewrite length_insert; lia|].
      rewrite drop_insert_lt in Hrun, Htake by lia.
      cbn [length]. replace (w + S (length (filter (active_in b) (drop (S r) v))))%nat
        with (S w + length (filter (active_in b) (drop (S r) v)))%nat by lia.
      exists v'. split; [exact Hrun|]. rewrite Htake.
      rewrite (take_S_r (<[w := id]> v) w id)
        by (apply list_lookup_insert_eq; apply lookup_lt_Some in E; lia).
      rewrite take_insert_ge by lia. rewrite <- app_assoc. reflexivity.
    + rewrite decide_False by (intros []).
      destruct (IH (S r) w v) as (v' & Hrun & Htake); [lia|lia|].
      exists v'. split; assumption.
Qed.

(** X21.  when every order in the index has its cell, the clean-up of the
    agent's list returns, and leaves the ids whose order is still in the
    index and neither filled nor cancelled, in the order they had. *)
Theorem cleanup_keeps_active (v : list Z) (b : OrderBook.t) :
  index_closed b ->
  RLAgent.cleanup v b = Ok (filter (active_in b) v).
Proof.
  intros Hc. unfold RLAgent.cleanup.
  destruct (compact_spec b Hc (length v) 0 0 v) as (v' & Hrun & Htake); [lia|lia|].
  rewrite Hrun. cbn [rbind]. cbn [drop Nat.add take app] in *. rewrite Htake. reflexivity.
Qed.

Lemma cancel_all_frame ids : forall b b',
  RLAgent.cancel_all ids b = Ok b' ->
  (forall id, In id ids -> OrderBook.orders_ b' !! id = None) /\
  (forall j, ~ In j ids -> OrderBook.orders_ b' !! j = OrderBook.orders_ b !! j) /\
  OrderBook.next_order_id b' = OrderBook.next_order_id b.
Proof.
  induction ids as [|i ids IH]; intros b b' H; cbn [RLAgent.cancel_all] in H.
  - injection H as <-. repeat split. intros id [].
  - res_inv H as c Hc. destruct c as [r b1].
    pose proof (cancel_order_gone _ _ _ _ Hc) as Hgone.
    apply cancel_order_frame in Hc. destruct Hc as (Hother & Hnext).
    apply IH in H. destruct H as (Hnone & Hrest & Hnext').
    split; [|split].
    + intros id [<-|Hin]; [|auto].
      destruct (in_dec Z.eq_dec i ids) as [Hi|Hi]; [auto|].
      rewrite Hrest by exact Hi. exact Hgone.
    + intros j Hj. rewrite Hrest by (intros Hin; apply Hj; right; exact Hin).
      apply Hother. intros ->. apply Hj. left. reflexivity.
    + congruence.
Qed.

(** X22.  after [CANCEL_ALL] the agent's list is empty and none of the ids it
    held is in the index of the book; the entries of the index under other
    ids are as before. *)
Theorem cancel_all_clears (fuel : nat) (quantity : Z) (ag ag' : RLAgent.t) :
  RLAgent.execute_action fuel RLAgent.CANCEL_ALL quantity ag = Ok ag' ->
  RLAgent.active_orders_ ag' = [] /\
  (forall id, In id (RLAgent.active_orders_ ag) ->
              OrderBook.orders_ (RLAgent.orderbook_ ag') !! id = None) /\
  (forall j, ~ In j (RLAgent.active_orders_ ag) ->
             OrderBook.orders_ (RLAgent.orderbook_ ag') !! j
             = OrderBook.orders_ (RLAgent.orderbook_ ag) !! j) /\
  RLAgent.action_count_ ag' = u64 (RLAgent.action_count_ ag + 1).
Proof.
  unfold RLAgent.execute_action. intros H. res_inv H as ag1 Hag1.
  assert (exists b1, RLAgent.cancel_all (RLAgent.active_orders_ ag) (RLAgent.orderbook_ ag)
                     = Ok b1 /\
                     ag1 = RLAgent.mk b1 [] (RLAgent.action_count_ ag)
                             (RLAgent.position_quantity ag) (RLAgent.total_trades_ ag))
    as (b1 & Hc & ->).
  { res_inv Hag1 as b1 Hb1. injection Hag1 as <-. eauto. }
  apply cancel_all_frame in Hc. destruct Hc as (Hnone & Hrest & _).
  cbn [RLAgent.orderbook_ RLAgent.active_orders_ RLAgent.action_count_] in H.
  destruct (_ =? 0).
  - unfold RLAgent.cleanup in H. cbn in H. injection H as <-. cbn. repeat split; assumption.
  - injection H as <-. cbn. repeat split; assumption.
Qed.

Lemma compact_sub b id n : forall r w v v' w',
  RLAgent.compact n r w v b = Ok (v', w') -> In id v' -> In id v.
Proof.
  induction n as [|n IH]; intros r w v v' w' H; cbn [RLAgent.compact] in H.
  - injection H as <- <-. auto.
  - destruct (v !! r) as [x|] eqn:E; [|discriminate].
    res_inv H as k Hk. destruct k.
    + intros Hin. apply (IH _ _ _ _ _ H) in Hin.
      rewrite <- list_elem_of_In in Hin. apply list_elem_of_lookup_1 in Hin.
      destruct Hin as (i & Hi). apply list_lookup_insert_Some in Hi.
      rewrite <- list_elem_of_In.
      destruct Hi as [(_ & <- & _)|(_ & Hi)]; eapply list_elem_of_lookup_2; eassumption.
    + eauto.
Qed.


(** X23.  [HOLD], and a placing action whose quote is missing (no best ask
    for a market buy or a sell at the ask, no best bid for a market sell or
    a buy at the bid, either missing for an aggressive order), places no
    order: the book, the quantity of the position and the number of trades
    are unchanged, the agent's list gains no id (it is unchanged unless the
    clean-up runs), and only the action counter advances. *)
Theorem execute_action_without_quote (fuel : nat) (action : RLAgent.Action) (quantity : Z)
    (ag ag' : RLAgent.t) :
  lacks_quote action (RLAgent.orderbook_ ag) ->
  RLAgent.execute_action fuel action quantity ag = Ok ag' ->
  RLAgent.orderbook_ ag' = RLAgent.orderbook_ ag /\
  RLAgent.position_quantity ag' = RLAgent.position_quantity ag /\
  RLAgent.total_trades_ ag' = RLAgent.total_trades_ ag /\
  (forall id, In id (RLAgent.active_orders_ ag') -> In id (RLAgent.active_orders_ ag)) /\
  (u64 (RLAgent.action_count_ ag + 1) mod 10 <> 0 ->
   RLAgent.active_orders_ ag' = RLAgent.active_orders_ ag) /\
  RLAgent.action_count_ ag' = u64 (RLAgent.action_count_ ag + 1).
Proof.
  unfold RLAgent.execute_action, lacks_quote. intros Hq H. res_inv H as ag1 Hag1.
  assert (ag1 = ag) as ->.
  { destruct action; try contradiction;
      repeat match type of Hag1 with
             | context [match ?x with _ => _ end] => destruct x eqn:?
             end;
      try discriminate; try (destruct Hq; discriminate);
      injection Hag1 as <-; reflexivity. }
  destruct (Z.eqb_spec (u64 (RLAgent.action_count_ ag + 1) mod 10) 0) as [E|E].
  - res_inv H as v Hv. injection H as <-. cbn. repeat split; [|contradiction].
    intros id Hin. unfold RLAgent.cleanup in Hv.
    res_inv Hv as c Hc. destruct c as [v1 w]. injection Hv as <-.
    apply In_firstn in Hin. revert Hin. eapply compact_sub. exact Hc.
  - injection H as <-. cbn. repeat split. auto.
Qed.

(** ** Well-formed books *)

(** *** A side as a function from prices to levels *)

Lemma find_set k k' v m :
  LevelMap.find k' (LevelMap.set k v m)
  = if k' =? k then (match LevelMap.find k m with Some _ => Some v | None => None end)
    else LevelMap.find k' m.
Proof.
  induction m as [|[k0 v0] m IH]; cbn [LevelMap.set LevelMap.find].
  - destruct (k' =? k); reflexivity.
  - destruct (Z.eqb_spec k0 k) as [->|Hne]; cbn [LevelMap.find].
    + destruct (Z.eqb_spec k k') as [->|Hne'].
      * rewrite Z.eqb_refl. reflexivity.
      * destruct (Z.eqb_spec k' k); [congruence|reflexivity].
    + destruct (Z.eqb_spec k0 k') as [->|Hne'].
      * destruct (Z.eqb_spec k' k); [congruence|reflexivity].
      * exact IH.
Qed.

Lemma find_insert before k k' v m :
  LevelMap.find k m = None ->
  LevelMap.find k' (LevelMap.insert before k v m)
  = if k' =? k then Some v else LevelMap.find k' m.
Proof.
  induction m as [|[k0 v0] m IH]; cbn [LevelMap.insert LevelMap.find].
  - intros _. rewrite (Z.eqb_sym k k'). reflexivity.
  - destruct (Z.eqb_spec k0 k) as [->|Hne]; [discriminate|]. intros Hf.
    destruct (before k k0); cbn [LevelMap.find].
    + rewrite (Z.eqb_sym k k'). destruct (Z.eqb_spec k' k) as [->|Hne']; [reflexivity|].
      reflexivity.
    + destruct (Z.eqb_spec k0 k') as [->|Hne'].
      * destruct (Z.eqb_spec k' k); [congruence|reflexivity].
      * apply IH. exact Hf.
Qed.

Lemma side_sorted_tail_absent s k v m :
  side_sorted (OrderBook.before s) ((k, v) :: m) -> LevelMap.find k m = None.
Proof.
  intros (_ & Hall & _). induction m as [|[k0 v0] m IH]; [reflexivity|].
  inversion Hall as [|? ? Hh Ht]; subst. cbn [fst] in Hh. cbn [LevelMap.find].
  destruct (Z.eqb_spec k0 k) as [->|Hne]; [rewrite before_irrefl in Hh; discriminate|].
  apply IH. exact Ht.
Qed.

Lemma find_erase s k k' m :
  side_sorted (OrderBook.before s) m ->
  LevelMap.find k' (LevelMap.erase k m)
  = if k' =? k then None else LevelMap.find k' m.
Proof.
  induction m as [|[k0 v0] m IH]; intros Hs; cbn [LevelMap.erase LevelMap.find].
  - destruct (k' =? k); reflexivity.
  - destruct (Z.eqb_spec k0 k) as [->|Hne]; cbn [LevelMap.find].
    + destruct (Z.eqb_spec k k') as [->|Hne'].
      * rewrite Z.eqb_refl. eapply side_sorted_tail_absent. exact Hs.
      * destruct (Z.eqb_spec k' k); [congruence|reflexivity].
    + destruct (Z.eqb_spec k0 k') as [->|Hne'].
      * destruct (Z.eqb_spec k' k); [congruence|reflexivity].
      * apply IH. apply Hs.
Qed.

Lemma find_head k v m : LevelMap.find k ((k, v) :: m) = Some v.
Proof. cbn. rewrite Z.eqb_refl. reflexivity. Qed.

(** *** The number of resting orders *)

Lemma resting_count_set k v l m :
  LevelMap.find k m = Some l ->
  resting_count (LevelMap.set k v m)
  = resting_count m - PriceLevel.order_count l + PriceLevel.order_count v.
Proof.
  induction m as [|[k0 v0] m IH]; cbn [LevelMap.set LevelMap.find]; [discriminate|].
  destruct (k0 =? k).
  - intros [= ->]. unfold resting_count. cbn. lia.
  - intros Hf. unfold resting_count in *. cbn. rewrite IH by exact Hf. lia.
Qed.

Lemma resting_count_erase k l m :
  LevelMap.find k m = Some l ->
  resting_count (LevelMap.erase k m) = resting_count m - PriceLevel.order_count l.
Proof.
  induction m as [|[k0 v0] m IH]; cbn [LevelMap.erase LevelMap.find]; [discriminate|].
  destruct (k0 =? k).
  - intros [= ->]. unfold resting_count. cbn. lia.
  - intros Hf. unfold resting_count in *. cbn. rewrite IH by exact Hf. lia.
Qed.

(** *** Orders up to their links *)

Lemma strip_fields o o' :
  strip o' = strip o ->
  Order.id o' = Order.id o /\ Order.price o' = Order.price o /\
  Order.quantity o' = Order.quantity o /\
  Order.filled_quantity o' = Order.filled_quantity o /\
  Order.side o' = Order.side o /\ Order.type o' = Order.type o /\
  Order.status o' = Order.status o.
Proof. destruct o, o'. cbn. intros [= -> -> -> -> -> -> ->]. repeat split. Qed.

Lemma strip_relink o x ox : strip (relink o x ox) = strip ox.
Proof. destruct ox. reflexivity. Qed.

Lemma level_inv_ext (m m' : memory) l q :
  level_inv m l q -> (forall x, In x q -> m' !! x = m !! x) -> level_inv m' l q.
Proof.
  intros (Hseg & Hnd & Htot & Hcnt) Hsame. split; [|split; [exact Hnd|split; [|exact Hcnt]]].
  - apply (seg_frame m); [exact Hseg|]. intros x o Hin Ho.
    exists o. rewrite Hsame by exact Hin. repeat split. exact Ho.
  - rewrite Htot. f_equal. symmetry. apply sum_remaining_ext.
    intros x Hin. rewrite Hsame by exact Hin. reflexivity.
Qed.

(** The neighbours of a linked cell are linked cells other than it. *)
Lemma seg_neighbours (m : memory) l q a o :
  level_inv m l q -> In a q -> m !! a = Some o ->
  (forall pv, Order.prev o = Some pv -> pv <> a /\ In pv q) /\
  (forall n, Order.next o = Some n -> n <> a /\ In n q).
Proof.
  intros (Hseg & Hnd & _) Hin Ho.
  destruct (in_split_first _ _ Hin) as (q1 & q2 & -> & Hq1).
  apply NoDup_app in Hnd as (_ & _ & Hnd2).
  apply NoDup_cons in Hnd2 as (Hq2 & _). rewrite list_elem_of_In in Hq2.
  destruct (seg_split _ _ _ _ _ _ _ Hseg) as (mid & l1 & H1 & H2).
  destruct H2 as (Hmid & o' & Ho' & Hp & H2). rewrite Ho in Ho'. injection Ho' as <-.
  split.
  - intros pv E.
    destruct q1 as [|x q1]; [destruct H1 as [_ E1]; congruence|].
    destruct (seg_last_in _ _ _ _ _ _ H1) as (z & Ez & Hz); [discriminate|].
    assert (z = pv) as -> by congruence.
    split; [intros ->; exact (Hq1 Hz)|apply in_or_app; left; exact Hz].
  - intros n E. destruct q2 as [|y q2]; [destruct H2 as [E2 _]; congruence|].
    destruct H2 as (E2 & _). rewrite E in E2. injection E2 as ->.
    split; [intros ->; apply Hq2; left; reflexivity|].
    apply in_or_app. right. right. left. reflexivity.
Qed.

(** [remove_order] on a linked cell: the level and the cells it leaves. *)
Lemma remove_order_full (m : memory) l q a o :
  level_inv m l q -> In a q -> m !! a = Some o ->
  exists l' m',
    PriceLevel.remove_order a l m = Ok (l', m') /\
    level_inv m' l' (remove_first a q) /\
    PriceLevel.price l' = PriceLevel.price l /\
    PriceLevel.order_count l' = u32 (PriceLevel.order_count l - 1) /\
    m' !! a = Some (strip o) /\
    (forall x, x <> a -> strip <$> m' !! x = strip <$> m !! x) /\
    (forall x, ~ In x q -> m' !! x = m !! x).
Proof.
  intros Hinv Hin Ho.
  destruct (remove_order_keeps_inv m l q a Hinv Hin) as (l' & m' & Hrun & Hinv' & Hp & _).
  destruct (seg_neighbours m l q a o Hinv Hin Ho) as (Hprev & Hnext).
  assert (Hcells : forall x, In x q -> is_Some (m !! x)).
  { intros x Hx. destruct Hinv as (Hseg & _). eapply seg_cells; eauto. }
  destruct (remove_order_run m l a o Ho) as (m'' & Hrun' & Ha & Hx).
  { intros pv E. destruct (Hprev pv E). auto. }
  { intros n E. destruct (Hnext n E). auto. }
  rewrite Hrun in Hrun'. injection Hrun' as -> <-.
  eexists. exists m'. split; [exact Hrun|]. split; [exact Hinv'|]. split; [reflexivity|].
  split; [reflexivity|]. split; [exact Ha|]. split.
  - intros x Hne. rewrite Hx by exact Hne.
    destruct (m !! x); cbn; [rewrite strip_relink|]; reflexivity.
  - intros x Hnin. assert (x <> a) as Hne by (intros ->; contradiction).
    rewrite Hx by exact Hne. destruct (m !! x) eqn:E; cbn; [|reflexivity].
    rewrite relink_other; [reflexivity| |].
    + intros E'. apply Hnin. apply (Hprev x E').
    + intros E'. apply Hnin. apply (Hnext x E').
Qed.

Lemma erase_set k v m : LevelMap.erase k (LevelMap.set k v m) = LevelMap.erase k m.
Proof.
  induction m as [|[k0 v0] m IH]; cbn [LevelMap.set LevelMap.erase]; [reflexivity|].
  destruct (k0 =? k) eqn:E; cbn [LevelMap.erase]; rewrite E; [reflexivity|].
  f_equal. exact IH.
Qed.

(** A write that changes links only. *)
Lemma store_links f a (m m' : memory) :
  store f a m = Ok m' ->
  (forall o, strip (f o) = strip o) ->
  (forall x, strip <$> m' !! x = strip <$> m !! x) /\
  (forall x, x <> a -> m' !! x = m !! x).
Proof.
  intros H Hf. apply store_inv in H. destruct H as (o & Ho & ->). split.
  - intros x. destruct (decide (x = a)) as [->|Hne].
    + rewrite lookup_insert_eq, Ho. cbn. rewrite Hf. reflexivity.
    + rewrite lookup_insert_ne by congruence. reflexivity.
  - intros x Hne. apply lookup_insert_ne. congruence.
Qed.

Lemma add_order_mem a l (m : memory) l' m' :
  PriceLevel.add_order a l m = Ok (l', m') ->
  PriceLevel.order_count l' = u32 (PriceLevel.order_count l + 1) /\
  (forall x, strip <$> m' !! x = strip <$> m !! x) /\
  (forall x, x <> a -> Some x <> PriceLevel.tail l -> m' !! x = m !! x).
Proof.
  unfold PriceLevel.add_order. intros H. res_inv H as lm Hlm. destruct lm as [l1 m1].
  res_inv H as o Ho. injection H as <- <-.
  destruct (PriceLevel.tail l) as [tl|] eqn:Htl.
  - res_inv Hlm as m2 Hm2. res_inv Hlm as m3 Hm3. res_inv Hlm as m4 Hm4.
    injection Hlm as <- <-.
    apply store_links in Hm2; [|intros []; reflexivity].
    apply store_links in Hm3; [|intros []; reflexivity].
    apply store_links in Hm4; [|intros []; reflexivity].
    destruct Hm2 as (S2 & F2), Hm3 as (S3 & F3), Hm4 as (S4 & F4).
    split; [reflexivity|]. split.
    + intros x. rewrite S4, S3, S2. reflexivity.
    + intros x Hx Ht. rewrite F4, F3, F2 by congruence. reflexivity.
  - res_inv Hlm as m2 Hm2. res_inv Hlm as m3 Hm3. injection Hlm as <- <-.
    apply store_links in Hm2; [|intros []; reflexivity].
    apply store_links in Hm3; [|intros []; reflexivity].
    destruct Hm2 as (S2 & F2), Hm3 as (S3 & F3).
    split; [reflexivity|]. split.
    + intros x. rewrite S3, S2. reflexivity.
    + intros x Hx Ht. rewrite F3, F2 by congruence. reflexivity.
Qed.

(** [add_order] of a cell that is not linked: the level and the cells it
    leaves. *)
Lemma add_order_full (m : memory) l q a :
  level_inv m l q -> is_Some (m !! a) -> ~ In a q ->
  exists l' m',
    PriceLevel.add_order a l m = Ok (l', m') /\
    level_inv m' l' (q ++ [a]) /\
    PriceLevel.price l' = PriceLevel.price l /\
    PriceLevel.order_count l' = u32 (PriceLevel.order_count l + 1) /\
    (forall x, strip <$> m' !! x = strip <$> m !! x) /\
    (forall x, ~ In x q -> x <> a -> m' !! x = m !! x).
Proof.
  intros Hinv Ha Hna.
  destruct (add_order_keeps_inv m l q a Hinv Ha Hna) as (l' & m' & Hrun & Hinv' & Hp & _).
  destruct (add_order_mem _ _ _ _ _ Hrun) as (Hc & Hs & Hf).
  exists l', m'. split; [exact Hrun|]. split; [exact Hinv'|]. split; [exact Hp|].
  split; [exact Hc|]. split; [exact Hs|].
  intros x Hx Hxa. apply Hf; [exact Hxa|].
  intros E. apply Hx. destruct Hinv as (Hseg & _).
  destruct q as [|y q]; [destruct Hseg as [_ E']; congruence|].
  destruct (seg_last_in _ _ _ _ _ _ Hseg) as (z & Ez & Hz); [discriminate|].
  congruence.
Qed.

(** The level after a fill of a linked order and [update_quantity] with
    the remaining quantity it had. *)
Lemma level_inv_refill (m m' : memory) l q p po po' :
  level_inv m l q -> In p q ->
  m !! p = Some po -> m' !! p = Some po' ->
  Order.next po' = Order.next po -> Order.prev po' = Order.prev po ->
  (forall x, In x q -> x <> p -> m' !! x = m !! x) ->
  level_inv m'
    (PriceLevel.with_totals
       (u64 (u64 (PriceLevel.total_quantity l - Order.remaining_quantity po)
             + Order.remaining_quantity po'))
       (PriceLevel.order_count l) l) q.
Proof.
  intros (Hseg & Hnd & Htot & Hcnt) Hin Hpo Hpo' Hn Hp Hsame.
  split; [|split; [exact Hnd|split; [|exact Hcnt]]].
  - apply (seg_frame m); [exact Hseg|]. intros x o Hx Ho.
    destruct (decide (x = p)) as [->|Hne].
    + exists po'. rewrite Hpo in Ho. injection Ho as <-. auto.
    + exists o. rewrite Hsame by assumption. auto.
  - cbn [PriceLevel.total_quantity PriceLevel.with_totals].
    assert (sum_remaining m' q
            = sum_remaining m q - (Order.quantity po - Order.filled_quantity po)
              + (Order.quantity po' - Order.filled_quantity po')) as ->.
    { rewrite <- (sum_remaining_update m q p po po' Hnd Hin Hpo).
      apply sum_remaining_ext. intros x Hx.
      destruct (decide (x = p)) as [->|Hne].
      - rewrite lookup_insert_eq, Hpo'. reflexivity.
      - rewrite lookup_insert_ne by congruence. rewrite Hsame by assumption. reflexivity. }
    rewrite Htot. unfold Order.remaining_quantity. apply u64_fill.
Qed.

(** *** Projections of the steps of the engine *)

Lemma orders_with_levels s v b :
  OrderBook.orders_ (OrderBook.with_levels s v b) = OrderBook.orders_ b.
Proof. destruct s, b; reflexivity. Qed.

Lemma levels_opposite_with_levels s v b :
  OrderBook.levels (OrderBook.opposite s) (OrderBook.with_levels s v b)
  = OrderBook.levels (OrderBook.opposite s) b.
Proof. destruct s, b; reflexivity. Qed.

Lemma cells_with_cells m b : OrderBook.cells (OrderBook.with_cells m b) = m.
Proof. destruct b; reflexivity. Qed.

Lemma cells_notify e b : OrderBook.cells (OrderBook.notify e b) = OrderBook.cells b.
Proof. destruct b; reflexivity. Qed.

Lemma events_with_cells m b :
  OrderBook.events (OrderBook.with_cells m b) = OrderBook.events b.
Proof. destruct b; reflexivity. Qed.

Lemma events_notify e b : OrderBook.events (OrderBook.notify e b) = OrderBook.events b ++ [e].
Proof. destruct b; reflexivity. Qed.

Lemma get_or_create_level_present p s b l :
  LevelMap.find p (OrderBook.levels s b) = Some l ->
  OrderBook.get_or_create_level p s b = b.
Proof. unfold OrderBook.get_or_create_level. intros ->. reflexivity. Qed.

Lemma on_level_run p s f b l l' m' :
  LevelMap.find p (OrderBook.levels s b) = Some l ->
  f l (OrderBook.cells b) = Ok (l', m') ->
  OrderBook.on_level p s f b
  = Ok (OrderBook.with_cells m'
          (OrderBook.with_levels s (LevelMap.set p l' (OrderBook.levels s b)) b)).
Proof. intros Hf Hr. unfold OrderBook.on_level. rewrite Hf, Hr. reflexivity. Qed.

(** *** One trade *)

Lemma execute_trade_run p a qty b po io k best q :
  OrderBook.cells b !! p = Some po ->
  OrderBook.cells b !! a = Some io ->
  p <> a ->
  Order.price po = k ->
  LevelMap.find k (OrderBook.levels (Order.side po) b) = Some best ->
  level_inv (OrderBook.cells b) best q ->
  In p q -> ~ In a q ->
  let po1 := Order.with_filled (u64 (Order.filled_quantity po + qty)) po in
  let po' := Order.with_status (OrderBook.fill_status po1) po1 in
  let io1 := Order.with_filled (u64 (Order.filled_quantity io + qty)) io in
  let io' := Order.with_status (OrderBook.fill_status io1) io1 in
  exists b' l',
    OrderBook.execute_trade p a qty b = Ok b' /\
    OrderBook.levels (OrderBook.opposite (Order.side po)) b'
    = OrderBook.levels (OrderBook.opposite (Order.side po)) b /\
    OrderBook.cells b' !! a = Some io' /\
    OrderBook.events b'
    = OrderBook.events b ++
      [TradeEvent (Trade.mk
         (if Side_eqb (Order.side po) BUY then Order.id po else Order.id io)
         (if Side_eqb (Order.side po) SELL then Order.id po else Order.id io)
         k qty);
       OrderEvent po'; OrderEvent io'] /\
    PriceLevel.price l' = PriceLevel.price best /\
    (forall x, ~ In x q -> x <> a -> OrderBook.cells b' !! x = OrderBook.cells b !! x) /\
    (forall x, x <> p -> x <> a ->
               strip <$> OrderBook.cells b' !! x = strip <$> OrderBook.cells b !! x) /\
    strip <$> OrderBook.cells b' !! p = Some (strip po') /\
    if Order.is_fully_filled po' then
      level_inv (OrderBook.cells b') l' (remove_first p q) /\
      PriceLevel.order_count l' = u32 (PriceLevel.order_count best - 1) /\
      OrderBook.levels (Order.side po) b'
      = (if PriceLevel.is_empty l'
         then LevelMap.erase k (OrderBook.levels (Order.side po) b)
         else LevelMap.set k l' (OrderBook.levels (Order.side po) b))
    else
      level_inv (OrderBook.cells b') l' q /\
      PriceLevel.order_count l' = PriceLevel.order_count best /\
      OrderBook.levels (Order.side po) b'
      = LevelMap.set k l' (OrderBook.levels (Order.side po) b).
Proof.
  intros Hpo Hio Hne Hk Hfind Hinv Hin Hna. cbv zeta.
  unfold OrderBook.execute_trade, OrderBook.notify_trade, OrderBook.notify_order_update.
  repeat mem_step.
  set (po' := Order.with_status _ (Order.with_filled _ po)).
  set (io' := Order.with_status _ (Order.with_filled _ io)).
  set (m4 := <[a := io']> _).
  assert (Hm4p : m4 !! p = Some po') by (subst m4; map_lookup; reflexivity).
  assert (Hm4a : m4 !! a = Some io') by (subst m4; map_lookup; reflexivity).
  assert (Hm4x : forall x, x <> p -> x <> a -> m4 !! x = OrderBook.cells b !! x).
  { intros x Hxp Hxa. subst m4. map_lookup. reflexivity. }
  clearbody m4.
  rewrite cells_with_cells, (load_ok _ _ _ Hm4p). cbn [rbind].
  change (Order.price po') with (Order.price po).
  change (Order.side po') with (Order.side po). rewrite Hk.
  set (s := Order.side po) in *.
  rewrite (get_or_create_level_present k s _ best)
    by (rewrite levels_with_cells; exact Hfind).
  set (l1 := PriceLevel.with_totals
               (u64 (u64 (PriceLevel.total_quantity best - Order.remaining_quantity po)
                     + Order.remaining_quantity po'))
               (PriceLevel.order_count best) best).
  assert (Hinv1 : level_inv m4 l1 q).
  { eapply level_inv_refill; eauto.
    intros x Hx Hxp. apply Hm4x; [exact Hxp|]. intros ->. contradiction. }
  rewrite (on_level_run k s _ _ best l1 m4);
    [|rewrite levels_with_cells; exact Hfind
     |rewrite cells_with_cells; unfold PriceLevel.update_quantity;
      rewrite (load_ok _ _ _ Hm4p); reflexivity].
  cbn [rbind]. rewrite levels_with_cells.
  set (lv := OrderBook.levels s b) in *.
  set (b2 := OrderBook.with_cells m4 (OrderBook.with_levels s (LevelMap.set k l1 lv) _)).
  assert (Hc2 : OrderBook.cells b2 = m4) by (subst b2; apply cells_with_cells).
  assert (Hl2 : OrderBook.levels s b2 = LevelMap.set k l1 lv)
    by (subst b2; rewrite levels_with_cells, levels_with_levels; reflexivity).
  assert (Ho2 : OrderBook.levels (OrderBook.opposite s) b2
                = OrderBook.levels (OrderBook.opposite s) b).
  { subst b2. rewrite levels_with_cells, levels_opposite_with_levels, levels_with_cells.
    reflexivity. }
  assert (He2 : OrderBook.events b2 = OrderBook.events b).
  { subst b2. rewrite events_with_cells, events_with_levels, events_with_cells. reflexivity. }
  clearbody b2.
  rewrite Hc2, (load_ok _ _ _ Hm4p), (load_ok _ _ _ Hm4a). cbn [rbind].
  change (Order.side po') with s.
  change (Order.id po') with (Order.id po).
  change (Order.id io') with (Order.id io).
  change (Order.price po') with (Order.price po). rewrite Hk.
  set (tr := Trade.mk _ _ _ _).
  set (b3 := OrderBook.notify _ (OrderBook.notify _ (OrderBook.notify _
               (OrderBook.update_market_statistics _ b2)))).
  assert (Hc3 : OrderBook.cells b3 = m4).
  { subst b3. rewrite !cells_notify, cells_statistics. exact Hc2. }
  assert (He3 : OrderBook.events b3
                = OrderBook.events b ++ [TradeEvent tr; OrderEvent po'; OrderEvent io']).
  { subst b3. rewrite !events_notify, events_statistics, He2, <- !app_assoc. reflexivity. }
  assert (Hl3 : forall s', OrderBook.levels s' b3 = OrderBook.levels s' b2).
  { intros s'. subst b3. rewrite !levels_notify, levels_statistics. reflexivity. }
  clearbody b3.
  destruct (Order.is_fully_filled po') eqn:Hfull.
  - destruct (remove_order_full m4 l1 q p po' Hinv1 Hin Hm4p)
      as (l2 & m5 & Hrun & Hinv2 & Hp2 & Hcnt2 & Hm5p & Hm5s & Hm5x).
    rewrite (on_level_run k s _ _ l1 l2 m5);
      [|rewrite Hl3, Hl2, find_set, Z.eqb_refl; subst lv; rewrite Hfind; reflexivity
       |rewrite Hc3; exact Hrun].
    cbn [rbind]. rewrite cells_with_cells, (load_ok _ _ _ Hm5p). cbn [rbind].
    change (Order.price (strip po')) with (Order.price po).
    change (Order.side (strip po')) with s. rewrite Hk.
    rewrite Hl3, Hl2, set_set.
    set (b4 := OrderBook.with_cells m5 (OrderBook.with_levels s (LevelMap.set k l2 lv) b3)).
    assert (Hl4 : OrderBook.levels s b4 = LevelMap.set k l2 lv)
      by (subst b4; rewrite levels_with_cells, levels_with_levels; reflexivity).
    assert (Ho4 : OrderBook.levels (OrderBook.opposite s) b4
                  = OrderBook.levels (OrderBook.opposite s) b).
    { subst b4. rewrite levels_with_cells, levels_opposite_with_levels, Hl3. exact Ho2. }
    assert (Hc4 : OrderBook.cells b4 = m5) by (subst b4; apply cells_with_cells).
    assert (He4 : OrderBook.events b4 = OrderBook.events b3).
    { subst b4. rewrite events_with_cells, events_with_levels. reflexivity. }
    clearbody b4.
    unfold OrderBook.remove_level_if_empty.
    rewrite Hl4, find_set, Z.eqb_refl. subst lv. rewrite Hfind.
    eexists _, l2. split; [reflexivity|].
    destruct (PriceLevel.is_empty l2) eqn:Hempty.
    + rewrite levels_opposite_with_levels, cells_with_levels, events_with_levels,
        levels_with_levels, Hc4, He4, erase_set.
      split; [exact Ho4|]. split; [rewrite Hm5x by exact Hna; exact Hm4a|].
      split; [exact He3|]. split; [exact Hp2|]. split.
      { intros x Hx Hxa. rewrite Hm5x by exact Hx. apply Hm4x; [|exact Hxa].
        intros ->. contradiction. }
      split.
      { intros x Hxp Hxa. rewrite Hm5s by exact Hxp. rewrite Hm4x by assumption. reflexivity. }
      split; [rewrite Hm5p; reflexivity|].
      split; [exact Hinv2|]. split; [exact Hcnt2|reflexivity].
    + rewrite Hc4, He4, Hl4.
      split; [exact Ho4|]. split; [rewrite Hm5x by exact Hna; exact Hm4a|].
      split; [exact He3|]. split; [exact Hp2|]. split.
      { intros x Hx Hxa. rewrite Hm5x by exact Hx. apply Hm4x; [|exact Hxa].
        intros ->. contradiction. }
      split.
      { intros x Hxp Hxa. rewrite Hm5s by exact Hxp. rewrite Hm4x by assumption. reflexivity. }
      split; [rewrite Hm5p; reflexivity|].
      split; [exact Hinv2|]. split; [exact Hcnt2|reflexivity].
  - eexists _, l1. split; [reflexivity|].
    rewrite Hl3, Hc3, He3, Hl3, Hl2.
    split; [exact Ho2|]. split; [exact Hm4a|]. split; [reflexivity|].
    split; [reflexivity|]. split.
    { intros x Hx Hxa. apply Hm4x; [|exact Hxa]. intros ->. contradiction. }
    split; [intros x Hxp Hxa; rewrite Hm4x by assumption; reflexivity|].
    split; [rewrite Hm4p; reflexivity|].
    split; [exact Hinv1|]. split; reflexivity.
Qed.

(** *** Queues *)

Lemma opposite_involutive s : OrderBook.opposite (OrderBook.opposite s) = s.
Proof. destruct s; reflexivity. Qed.

Lemma opposite_neq s : OrderBook.opposite s <> s.
Proof. destruct s; discriminate. Qed.

Lemma Side_eqb_eq s s' : Side_eqb s s' = true <-> s = s'.
Proof. destruct s, s'; cbn; split; congruence. Qed.

Lemma upd_same Q s k q : upd Q s k q s k = q.
Proof.
  unfold upd. rewrite Z.eqb_refl. destruct s; reflexivity.
Qed.

Lemma upd_other Q s k q s' k' : (s' <> s \/ k' <> k) -> upd Q s k q s' k' = Q s' k'.
Proof.
  unfold upd. intros H.
  destruct (Side_eqb s' s) eqn:Es; [|reflexivity].
  destruct (Z.eqb_spec k' k) as [->|]; [|reflexivity].
  apply Side_eqb_eq in Es. destruct H; contradiction.
Qed.

Lemma upd_cases Q s k q s' k' :
  (s' = s /\ k' = k /\ upd Q s k q s' k' = q) \/
  ((s' <> s \/ k' <> k) /\ upd Q s k q s' k' = Q s' k').
Proof.
  destruct (side_cases s' s) as [->|Hs].
  - destruct (Z.eq_dec k' k) as [->|Hk].
    + left. rewrite upd_same. auto.
    + right. rewrite upd_other by auto. auto.
  - right. rewrite upd_other by auto. auto.
Qed.

Lemma remove_first_sub a q x : In x (remove_first a q) -> In x q.
Proof.
  induction q as [|y q IH]; cbn [remove_first]; [tauto|].
  destruct (N.eqb y a); [intros H; right; exact H|].
  intros [H|H]; [left; exact H|right; auto].
Qed.

Lemma remove_first_keeps a q x : In x q -> x <> a -> In x (remove_first a q).
Proof.
  induction q as [|y q IH]; cbn [remove_first]; [tauto|].
  destruct (N.eqb_spec y a) as [->|Hne].
  - intros [H|H] Hx; [congruence|exact H].
  - intros [H|H] Hx; [left; exact H|right; auto].
Qed.

Lemma remove_first_gone a q : NoDup q -> ~ In a (remove_first a q).
Proof.
  induction 1 as [|y q Hy Hnd IH]; cbn [remove_first]; [tauto|].
  rewrite list_elem_of_In in Hy.
  destruct (N.eqb_spec y a) as [->|Hne]; [exact Hy|].
  intros [H|H]; [congruence|auto].
Qed.

Lemma remove_first_head a q : remove_first a (a :: q) = q.
Proof. cbn. rewrite N.eqb_refl. reflexivity. Qed.

Section WellFormed.
Variables (T : OrderType -> Prop) (Q : queues) (inc : option addr) (b : OrderBook.t).
Hypothesis Hwf : wf T Q inc b.

Lemma wf_find s k l :
  LevelMap.find k (OrderBook.levels s b) = Some l ->
  level_inv (OrderBook.cells b) l (Q s k) /\ Q s k <> [] /\ PriceLevel.price l = k.
Proof.
  intros Hf. pose proof (wf_level _ _ _ _ Hwf s k) as H. rewrite Hf in H.
  destruct H as [H1 H2]. split; [exact H1|]. split; [exact H2|].
  eapply side_sorted_find; [|exact Hf].
  apply sides_sorted_levels. exact (wf_sorted _ _ _ _ Hwf).
Qed.

Lemma wf_queue_level s k :
  Q s k <> [] ->
  exists l, LevelMap.find k (OrderBook.levels s b) = Some l /\
            level_inv (OrderBook.cells b) l (Q s k).
Proof.
  intros Hne. pose proof (wf_level _ _ _ _ Hwf s k) as H.
  destruct (LevelMap.find k (OrderBook.levels s b)) as [l|]; [|contradiction].
  exists l. split; [reflexivity|apply H].
Qed.

Lemma wf_NoDup s k : NoDup (Q s k).
Proof.
  pose proof (wf_level _ _ _ _ Hwf s k) as H.
  destruct (LevelMap.find k (OrderBook.levels s b)) as [l|].
  - destruct H as [(_ & Hnd & _) _]. exact Hnd.
  - rewrite H. constructor.
Qed.

Lemma wf_disjoint s1 k1 s2 k2 x :
  In x (Q s1 k1) -> In x (Q s2 k2) -> s1 = s2 /\ k1 = k2.
Proof.
  intros H1 H2.
  destruct (wf_resting _ _ _ _ Hwf _ _ _ H1) as (_ & o1 & Ho1 & Hp1 & Hs1 & _).
  destruct (wf_resting _ _ _ _ Hwf _ _ _ H2) as (_ & o2 & Ho2 & Hp2 & Hs2 & _).
  rewrite Ho1 in Ho2. injection Ho2 as <-. split; congruence.
Qed.

Lemma wf_queue_cell s k x : In x (Q s k) -> is_Some (OrderBook.cells b !! x).
Proof.
  intros H. destruct (wf_resting _ _ _ _ Hwf _ _ _ H) as (_ & o & Ho & _). eauto.
Qed.

Lemma wf_queue_length n s k :
  ids_below n b -> 1 + n <= 2 ^ 32 -> Z.of_nat (length (Q s k)) < 2 ^ 32.
Proof.
  intros [[Hn1 Hn2] Hidx] Hn.
  set (f := fun a => match OrderBook.cells b !! a with
                     | Some o => Order.id o | None => 0 end).
  assert (NoDup (f <$> Q s k)) as Hnd.
  { apply NoDup_fmap_2_strong; [|apply wf_NoDup].
    intros x y Hx Hy E. rewrite list_elem_of_In in Hx, Hy.
    destruct (wf_resting _ _ _ _ Hwf _ _ _ Hx) as (_ & ox & Hox & _ & _ & _ & _ & Hix).
    destruct (wf_resting _ _ _ _ Hwf _ _ _ Hy) as (_ & oy & Hoy & _ & _ & _ & _ & Hiy).
    unfold f in E. rewrite Hox, Hoy in E. rewrite E in Hix. congruence. }
  assert (f <$> Q s k ⊆+ seqZ 1 (OrderBook.next_order_id b - 1)) as Hsub.
  { apply NoDup_submseteq; [exact Hnd|]. intros i Hi.
    apply list_elem_of_fmap in Hi. destruct Hi as (x & -> & Hx).
    rewrite list_elem_of_In in Hx.
    destruct (wf_resting _ _ _ _ Hwf _ _ _ Hx) as (_ & ox & Hox & _ & _ & _ & _ & Hix).
    unfold f. rewrite Hox. apply elem_of_seqZ.
    assert (is_Some (OrderBook.orders_ b !! Order.id ox)) as Hs by eauto.
    apply Hidx in Hs. lia. }
  apply submseteq_length in Hsub. rewrite length_fmap, length_seqZ in Hsub. lia.
Qed.

Lemma wf_count n s k l :
  ids_below n b -> 1 + n <= 2 ^ 32 ->
  LevelMap.find k (OrderBook.levels s b) = Some l ->
  PriceLevel.order_count l = Z.of_nat (length (Q s k)) /\
  1 <= PriceLevel.order_count l < 2 ^ 32.
Proof.
  intros Hids Hn Hf. destruct (wf_find _ _ _ Hf) as ((_ & _ & _ & Hc) & Hne & _).
  pose proof (wf_queue_length n s k Hids Hn) as Hlen.
  rewrite Hc, u32_small by lia. split; [reflexivity|].
  destruct (Q s k); [contradiction|]. cbn [length] in *. lia.
Qed.

Lemma wf_resting_count_pos n s k l :
  ids_below n b -> 1 + n <= 2 ^ 32 ->
  LevelMap.find k (OrderBook.levels s b) = Some l ->
  PriceLevel.order_count l <= resting_count (OrderBook.levels s b).
Proof.
  intros Hids Hn.
  assert (forall k' l', In (k', l') (OrderBook.levels s b) ->
                        0 <= PriceLevel.order_count l') as Hpos.
  { intros k' l' Hin.
    pose proof (wf_sorted _ _ _ _ Hwf) as Hs. apply sides_sorted_levels with (s := s) in Hs.
    destruct (side_sorted_in _ _ _ _ Hs Hin) as (Hf & _).
    destruct (wf_count n s k' l' Hids Hn Hf). lia. }
  revert Hpos. generalize (OrderBook.levels s b). intros m.
  induction m as [|[k0 l0] m IH]; cbn [LevelMap.find]; [discriminate|].
  intros Hpos Hf. unfold resting_count. cbn [fold_right snd].
  fold (resting_count m).
  assert (0 <= resting_count m) as Hm.
  { clear IH Hf. induction m as [|[k1 l1] m IH]; [unfold resting_count; cbn; lia|].
    unfold resting_count. cbn [fold_right snd]. fold (resting_count m).
    assert (0 <= PriceLevel.order_count l1) by (apply (Hpos k1); right; left; reflexivity).
    assert (0 <= resting_count m); [|lia].
    apply IH. intros k' l' [H'|H']; apply (Hpos k' l'); [left; exact H'|right; right; exact H']. }
  destruct (k0 =? k).
  - injection Hf as <-. lia.
  - assert (0 <= PriceLevel.order_count l0) by (apply (Hpos k0); left; reflexivity).
    assert (PriceLevel.order_count l <= resting_count m); [|lia].
    apply IH; [|exact Hf]. intros k' l' H'. apply (Hpos k'). right. exact H'.
Qed.

End WellFormed.

Lemma find_In k l m : LevelMap.find k m = Some l -> In (k, l) m.
Proof.
  induction m as [|[k0 l0] m IH]; cbn [LevelMap.find]; [discriminate|].
  destruct (Z.eqb_spec k0 k) as [->|Hne].
  - intros [= ->]. left. reflexivity.
  - intros H. right. auto.
Qed.

Lemma strip_lookup (m m' : memory) x o :
  strip <$> m' !! x = strip <$> m !! x -> m !! x = Some o ->
  exists o', m' !! x = Some o' /\ strip o' = strip o.
Proof.
  intros E Ho. rewrite Ho in E. destruct (m' !! x) as [o'|]; [|discriminate].
  exists o'. split; [reflexivity|].
  change (Some (strip o') = Some (strip o)) in E.
  remember (strip o') as u. remember (strip o) as v. congruence.
Qed.

Lemma strip_full o o' :
  strip o' = strip o -> Order.is_fully_filled o' = Order.is_fully_filled o.
Proof.
  intros E. apply strip_fields in E. destruct E as (_ & _ & Eq & Ef & _).
  unfold Order.is_fully_filled. rewrite Eq, Ef. reflexivity.
Qed.

(** *** One pass of the matching loop *)




(** The book after a trade with the head [p] of the best opposite level. *)
Lemma wf_after_trade {T} Q n s a b b' k best p q' po io' po' l' :
  let os := OrderBook.opposite s in
  wf T Q (Some a) b -> ids_below n b -> 1 + n <= 2 ^ 32 ->
  LevelMap.find k (OrderBook.levels os b) = Some best ->
  Q os k = p :: q' ->
  OrderBook.cells b !! p = Some po ->
  OrderBook.orders_ b' = OrderBook.orders_ b ->
  OrderBook.order_pool_ b' = OrderBook.order_pool_ b ->
  sides_sorted b' ->
  OrderBook.levels s b' = OrderBook.levels s b ->
  (exists io, OrderBook.cells b !! a = Some io /\ Order.id io' = Order.id io /\
              Order.type io' = Order.type io) ->
  OrderBook.cells b' !! a = Some io' ->
  (forall x, ~ In x (p :: q') -> x <> a -> OrderBook.cells b' !! x = OrderBook.cells b !! x) ->
  (forall x, x <> p -> x <> a ->
             strip <$> OrderBook.cells b' !! x = strip <$> OrderBook.cells b !! x) ->
  strip <$> OrderBook.cells b' !! p = Some (strip po') ->
  Order.id po' = Order.id po -> Order.price po' = Order.price po ->
  Order.side po' = Order.side po -> Order.type po' = Order.type po ->
  Order.quantity po' = Order.quantity po ->
  Order.filled_quantity po <= Order.filled_quantity po' <= Order.quantity po' ->
  0 <= Order.filled_quantity io' <= Order.quantity io' ->
  (if Order.is_fully_filled po' then
     level_inv (OrderBook.cells b') l' q' /\
     PriceLevel.order_count l' = u32 (PriceLevel.order_count best - 1) /\
     OrderBook.levels os b'
     = (if PriceLevel.is_empty l'
        then LevelMap.erase k (OrderBook.levels os b)
        else LevelMap.set k l' (OrderBook.levels os b))
   else
     level_inv (OrderBook.cells b') l' (p :: q') /\
     OrderBook.levels os b' = LevelMap.set k l' (OrderBook.levels os b)) ->
  wf T (if Order.is_fully_filled po' then upd Q os k q' else Q) (Some a) b'.
Proof.
  intros os Hwf Hids Hn Hfind HQ Hpo Hord Hpool Hsorted Hown (io & Hio & Hio_id & Hio_ty)
    Hio' Hframe Hstrip Hp' Eid Eprice Eside Etype Eqty Efill Hio_fill Hcase.
  pose proof (wf_find _ _ _ _ Hwf _ _ _ Hfind) as (Hinv & Hne & Hbest).
  pose proof (wf_count _ _ _ _ Hwf n _ _ _ Hids Hn Hfind) as (Hcnt & Hcnt').
  pose proof (wf_NoDup _ _ _ _ Hwf os k) as Hnd. rewrite HQ in Hnd, Hcnt, Hinv.
  apply NoDup_cons in Hnd. destruct Hnd as [Hpq' Hnd']. rewrite list_elem_of_In in Hpq'.
  assert (Hp_rest : resting_ok b (Some a) os k p)
    by (apply (wf_resting _ _ _ _ Hwf); rewrite HQ; left; reflexivity).
  destruct Hp_rest as (Hpa & po0 & Hpo0 & Hpk & Hps & Hpf & Hpq & Hpi).
  rewrite Hpo in Hpo0. injection Hpo0 as <-.
  assert (Hpa' : p <> a) by congruence.
  destruct (OrderBook.cells b' !! p) as [pc|] eqn:Hpc; [|discriminate].
  assert (strip pc = strip po') as Hp''.
  { change (Some (strip pc) = Some (strip po')) in Hp'.
    remember (strip pc) as u. remember (strip po') as v. congruence. }
  clear Hp'. rename Hp'' into Hp'.
  pose proof (wf_sorted _ _ _ _ Hwf) as Hs0.
  pose proof (proj1 (sides_sorted_levels b) Hs0 os) as Hs_os.
  (* cells of queues other than the one traded on are as before *)
  assert (Hother : forall s' k' x,
             In x (Q s' k') -> (s' <> os \/ k' <> k) ->
             OrderBook.cells b' !! x = OrderBook.cells b !! x).
  { intros s' k' x Hx Hsk. apply Hframe.
    - rewrite <- HQ. intros Hx'.
      destruct (wf_disjoint _ _ _ _ Hwf _ _ _ _ _ Hx Hx') as [-> ->]. destruct Hsk; congruence.
    - destruct (wf_resting _ _ _ _ Hwf _ _ _ Hx) as (Hxa & _). congruence. }
  (* the queues after the trade *)
  set (Q' := if Order.is_fully_filled po' then upd Q os k q' else Q).
  assert (HQ'sub : forall s' k' x, In x (Q' s' k') -> In x (Q s' k')).
  { intros s' k' x. subst Q'. destruct (Order.is_fully_filled po'); [|tauto].
    destruct (upd_cases Q os k q' s' k') as [(-> & -> & ->)|(_ & ->)]; [|tauto].
    rewrite HQ. intros H. right. exact H. }
  assert (HQ'other : forall s' k', (s' <> os \/ k' <> k) -> Q' s' k' = Q s' k').
  { intros s' k' Hsk. subst Q'. destruct (Order.is_fully_filled po'); [|reflexivity].
    apply upd_other. exact Hsk. }
  assert (Hcell : forall s' k' x o,
             In x (Q' s' k') -> OrderBook.cells b !! x = Some o -> x <> p ->
             exists o', OrderBook.cells b' !! x = Some o' /\ strip o' = strip o).
  { intros s' k' x o Hx Ho Hxp. apply (strip_lookup (OrderBook.cells b)); [|exact Ho].
    apply Hstrip; [exact Hxp|].
    destruct (wf_resting _ _ _ _ Hwf _ _ _ (HQ'sub _ _ _ Hx)) as (Hxa & _). congruence. }
  split.
  - exact Hsorted.
  - intros s' k'.
    destruct (side_cases s' os) as [->|Hs'].
    + destruct (Z.eq_dec k' k) as [->|Hk'].
      * subst Q'. destruct (Order.is_fully_filled po') eqn:Hfull.
        -- destruct Hcase as (Hinv' & Hc' & Hlev). rewrite Hlev, upd_same.
           destruct (PriceLevel.is_empty l') eqn:Hemp.
           ++ rewrite (find_erase os) by exact Hs_os. rewrite Z.eqb_refl.
              unfold PriceLevel.is_empty in Hemp. apply Z.eqb_eq in Hemp.
              rewrite Hc', u32_small in Hemp by lia.
              cbn [length] in Hcnt. destruct q'; [reflexivity|cbn [length] in Hcnt; lia].
           ++ rewrite find_set, Z.eqb_refl, Hfind. split; [exact Hinv'|].
              unfold PriceLevel.is_empty in Hemp. apply Z.eqb_neq in Hemp.
              rewrite Hc', u32_small in Hemp by lia.
              intros ->. cbn [length] in Hcnt. lia.
        -- destruct Hcase as (Hinv' & Hlev). rewrite Hlev, find_set, Z.eqb_refl, Hfind, HQ.
           split; [exact Hinv'|discriminate].
      * rewrite HQ'other by auto.
        assert (LevelMap.find k' (OrderBook.levels os b')
                = LevelMap.find k' (OrderBook.levels os b)) as ->.
        { destruct (Order.is_fully_filled po').
          - destruct Hcase as (_ & _ & ->). destruct (PriceLevel.is_empty l').
            + rewrite (find_erase os) by exact Hs_os.
              destruct (Z.eqb_spec k' k); [contradiction|reflexivity].
            + rewrite find_set. destruct (Z.eqb_spec k' k); [contradiction|reflexivity].
          - destruct Hcase as (_ & ->).
            rewrite find_set. destruct (Z.eqb_spec k' k); [contradiction|reflexivity]. }
        pose proof (wf_level _ _ _ _ Hwf os k') as H.
        destruct (LevelMap.find k' (OrderBook.levels os b)) as [l|]; [|exact H].
        destruct H as [H1 H2]. split; [|exact H2].
        eapply level_inv_ext; [exact H1|]. intros x Hx. eapply Hother; eauto.
    + assert (s' = s) as -> by (destruct s, s'; cbn in *; congruence).
      rewrite HQ'other by auto. rewrite Hown.
      pose proof (wf_level _ _ _ _ Hwf s k') as H.
      destruct (LevelMap.find k' (OrderBook.levels s b)) as [l|]; [|exact H].
      destruct H as [H1 H2]. split; [|exact H2].
      eapply level_inv_ext; [exact H1|]. intros x Hx. eapply Hother; eauto.
  - intros s' k' x Hx.
    pose proof (HQ'sub _ _ _ Hx) as Hx0.
    destruct (wf_resting _ _ _ _ Hwf _ _ _ Hx0) as (Hxa & o & Ho & Hok & Hos & Hof & Hoq & Hoi).
    split; [exact Hxa|].
    destruct (N.eq_dec x p) as [->|Hxp].
    + rewrite Hpo in Ho. injection Ho as <-.
      assert (s' = os /\ k' = k) as [-> ->].
      { eapply (wf_disjoint _ _ _ _ Hwf); [exact Hx0|]. rewrite HQ. left. reflexivity. }
      apply strip_fields in Hp'. destruct Hp' as (Ei & Ep & Eq & Ef & Es & Et & _).
      subst Q'. destruct (Order.is_fully_filled po') eqn:Hfull.
      * rewrite upd_same in Hx. contradiction.
      * exists pc. split; [exact Hpc|].
        unfold Order.is_fully_filled in Hfull. apply Z.leb_gt in Hfull.
        rewrite Ep, Es, Ei, Eq, Ef. rewrite Hord. repeat split; try congruence; lia.
    + destruct (Hcell _ _ _ _ Hx Ho Hxp) as (o' & Ho' & Es).
      apply strip_fields in Es. destruct Es as (Ei & Ep & Eq & Ef & Es & Et & _).
      exists o'. rewrite Ei, Ep, Eq, Ef, Es, Hord. repeat split; try assumption; lia.
  - intros i x Hi. rewrite Hord in Hi.
    destruct (wf_index _ _ _ _ Hwf _ _ Hi) as (o & Ho & Hoid & Hoty & Hoq).
    destruct (N.eq_dec x a) as [->|Hxa].
    { rewrite Hio in Ho. injection Ho as <-.
      exists io'. split; [exact Hio'|]. split; [congruence|]. split; [left; reflexivity|].
      intros _ _. left. reflexivity. }
    destruct (N.eq_dec x p) as [->|Hxp].
    { rewrite Hpo in Ho. injection Ho as <-.
      pose proof (strip_full _ _ Hp') as Efull.
      apply strip_fields in Hp'. destruct Hp' as (Ei & Ep & Eq & Ef & Es & Et & _).
      exists pc. split; [exact Hpc|]. split; [congruence|]. split.
      { destruct Hoty as [E|HT]; [congruence|]. right. rewrite Et, Etype. exact HT. }
      intros _. rewrite Efull. intros Hfull. right. subst Q'. rewrite Hfull.
      rewrite Es, Ep, Eside, Eprice, Hps, Hpk, HQ. left. reflexivity. }
    destruct (strip_lookup (OrderBook.cells b) (OrderBook.cells b') x o) as (o' & Ho' & Es).
    { apply Hstrip; assumption. }
    { exact Ho. }
    pose proof (strip_full _ _ Es) as Efull.
    apply strip_fields in Es. destruct Es as (Ei & Ep & Eq & Ef & Es & Et & _).
    exists o'. split; [exact Ho'|]. split; [congruence|]. split.
    { destruct Hoty as [E|HT]; [congruence|]. right. rewrite Et. exact HT. }
    rewrite Efull, Es, Ep, Et. intros Hlim Hfull. right.
    destruct (Hoq Hlim Hfull) as [E|Hin]; [congruence|].
    subst Q'. destruct (Order.is_fully_filled po'); [|exact Hin].
    destruct (upd_cases Q os k q' (Order.side o) (Order.price o))
      as [(E1 & E2 & ->)|(_ & ->)]; [|exact Hin].
    rewrite E1, E2, HQ in Hin. destruct Hin as [E|Hin]; [congruence|exact Hin].
  - destruct (wf_pool _ _ _ _ Hwf) as (Hsz & Hok & Hfree).
    unfold pool_sound. rewrite Hpool. split; [exact Hsz|]. split; [exact Hok|].
    intros x Hx. pose proof (Hfree x Hx) as Hnone.
    rewrite Hframe; [exact Hnone| |].
    + rewrite <- HQ. intros Hin. destruct (wf_queue_cell _ _ _ _ Hwf _ _ _ Hin) as [o Ho].
      congruence.
    + intros ->. congruence.
  - intros kb ka Hb Ha. apply (wf_uncrossed _ _ _ _ Hwf).
    + destruct (Q' BUY kb) as [|x r] eqn:E; [contradiction|].
      assert (In x (Q BUY kb)) as Hin by (apply HQ'sub; rewrite E; left; reflexivity).
      intros E0. rewrite E0 in Hin. destruct Hin.
    + destruct (Q' SELL ka) as [|x r] eqn:E; [contradiction|].
      assert (In x (Q SELL ka)) as Hin by (apply HQ'sub; rewrite E; left; reflexivity).
      intros E0. rewrite E0 in Hin. destruct Hin.
  - intros i x o' Hi Ho'. rewrite Hord in Hi.
    destruct (N.eq_dec x a) as [->|Hxa]; [congruence|].
    destruct (N.eq_dec x p) as [->|Hxp].
    { rewrite Hpc in Ho'. injection Ho' as <-.
      apply strip_fields in Hp'. destruct Hp' as (_ & _ & Eq & Ef & _).
      rewrite Eq, Ef. lia. }
    destruct (wf_index _ _ _ _ Hwf _ _ Hi) as (o & Ho & _).
    destruct (strip_lookup (OrderBook.cells b) (OrderBook.cells b') x o) as (o'' & Ho'' & Es);
      [apply Hstrip; assumption|exact Ho|].
    rewrite Ho' in Ho''. injection Ho'' as <-.
    apply strip_fields in Es. destruct Es as (_ & _ & Eq & Ef & _).
    rewrite Eq, Ef. exact (wf_filled _ _ _ _ Hwf _ _ _ Hi Ho).
Qed.

Lemma no_cross_beyond s pr k k' :
  OrderBook.no_cross s pr k = true ->
  k = k' \/ OrderBook.before (OrderBook.opposite s) k k' = true ->
  OrderBook.no_cross s pr k' = true.
Proof. destruct s; cbn; lia. Qed.

Lemma potential_stop s b io : Order.is_fully_filled io = true ->
  potential s b io = Z.to_nat (resting_count (OrderBook.levels (OrderBook.opposite s) b)).
Proof. unfold potential. intros ->. lia. Qed.

(** The order being matched is written: the book stays well formed. *)
Lemma wf_inc_write {T} Q a b io io' :
  wf T Q (Some a) b -> OrderBook.cells b !! a = Some io ->
  Order.id io' = Order.id io ->
  0 <= Order.filled_quantity io' <= Order.quantity io' ->
  wf T Q (Some a) (OrderBook.with_cells (<[a := io']> (OrderBook.cells b)) b).
Proof.
  intros Hwf Ha Hid Hfill.
  assert (Hq : forall s k x, In x (Q s k) -> x <> a).
  { intros s k x Hx. destruct (wf_resting _ _ _ _ Hwf _ _ _ Hx) as (H & _). congruence. }
  split.
  - destruct (wf_sorted _ _ _ _ Hwf) as [H1 H2]. destruct b; split; assumption.
  - intros s k. rewrite levels_with_cells, cells_with_cells.
    pose proof (wf_level _ _ _ _ Hwf s k) as H.
    destruct (LevelMap.find k (OrderBook.levels s b)) as [l|]; [|exact H].
    destruct H as [H1 H2]. split; [|exact H2].
    eapply level_inv_ext; [exact H1|]. intros x Hx.
    apply lookup_insert_ne. intros E. exact (Hq _ _ _ Hx (eq_sym E)).
  - intros s k x Hx. destruct (wf_resting _ _ _ _ Hwf _ _ _ Hx) as (Hxa & o & Ho & H).
    split; [exact Hxa|]. exists o. rewrite cells_with_cells.
    split; [rewrite lookup_insert_ne by congruence; exact Ho|].
    destruct b; exact H.
  - intros i x Hi.
    assert (Hi0 : OrderBook.orders_ b !! i = Some x) by (destruct b; exact Hi).
    destruct (wf_index _ _ _ _ Hwf _ _ Hi0) as (o & Ho & Hoid & Hoty & Hoq).
    rewrite cells_with_cells.
    destruct (N.eq_dec x a) as [->|Hxa].
    + exists io'. split; [apply lookup_insert_eq|]. split; [congruence|].
      split; [left; reflexivity|]. intros _ _. left. reflexivity.
    + exists o. split; [rewrite lookup_insert_ne by congruence; exact Ho|].
      split; [exact Hoid|]. split; [exact Hoty|exact Hoq].
  - destruct (wf_pool _ _ _ _ Hwf) as (Hsz & Hok & Hfree).
    unfold pool_sound. rewrite cells_with_cells.
    assert (OrderBook.order_pool_
              (OrderBook.with_cells (<[a := io']> (OrderBook.cells b)) b)
            = OrderBook.order_pool_ b) as -> by (destruct b; reflexivity).
    split; [exact Hsz|]. split; [exact Hok|].
    intros x Hx. rewrite lookup_insert_ne; [exact (Hfree x Hx)|].
    intros <-. rewrite (Hfree a Hx) in Ha. discriminate.
  - exact (wf_uncrossed _ _ _ _ Hwf).
  - intros i x o Hi Ho.
    assert (Hi0 : OrderBook.orders_ b !! i = Some x) by (destruct b; exact Hi).
    rewrite cells_with_cells in Ho.
    destruct (N.eq_dec x a) as [->|Hxa].
    + rewrite lookup_insert_eq in Ho. injection Ho as <-. exact Hfill.
    + rewrite lookup_insert_ne in Ho by congruence.
      exact (wf_filled _ _ _ _ Hwf _ _ _ Hi0 Ho).
Qed.

(** One pass of the matching loop on a well-formed book, for an order of
    any type. *)
Lemma match_iteration_wf {T} Q n s pr ty a b io :
  wf T Q (Some a) b -> ids_below n b -> 1 + n <= 2 ^ 32 ->
  inc_ok s pr ty b a io ->
  exists again b' Q' io',
    OrderBook.match_iteration s a b = Ok (again, b') /\
    pass_result T Q s pr ty a b io again b' Q' io'.
Proof.
  intros Hwf Hids Hn Hinc.
  pose proof Hinc as (Ha & Hs & Hpr & Hty & Hfill & Hq & Hst1 & Hst2 & Hidx).
  set (os := OrderBook.opposite s).
  assert (Hstop : (Order.is_fully_filled io = true \/
                   forall k, Q os k <> [] -> OrderBook.no_cross s pr k = true) ->
                  OrderBook.match_iteration s a b = Ok (false, b) ->
                  exists again b' Q' io',
                    OrderBook.match_iteration s a b = Ok (again, b') /\
                    pass_result T Q s pr ty a b io again b' Q' io').
  { intros Hexit Hrun. exists false, b, Q, io.
    split; [exact Hrun|]. split; [exact Hwf|]. split; [left; exact Hinc|].
    repeat (split; [reflexivity|]). split; [auto|]. split; [discriminate|].
    split; [intros _; destruct Hexit; auto|].
    exists []. rewrite app_nil_r. split; [reflexivity|constructor]. }
  unfold OrderBook.match_iteration in *. rewrite (load_ok _ _ _ Ha) in *. cbn [rbind] in *.
  destruct (Order.is_fully_filled io) eqn:Hfull; [apply Hstop; auto|].
  destruct (OrderBook.levels (OrderBook.opposite s) b) as [|[k best] rest] eqn:Hlev.
  { apply Hstop; [|reflexivity]. right. intros k Hk. exfalso. apply Hk.
    pose proof (wf_level _ _ _ _ Hwf os k) as H. subst os. rewrite Hlev in H. exact H. }
  assert (Hfind : LevelMap.find k (OrderBook.levels os b) = Some best)
    by (subst os; rewrite Hlev; apply find_head).
  destruct (wf_find _ _ _ _ Hwf _ _ _ Hfind) as (Hinv & Hne & Hbest).
  rewrite Hbest, Hpr in *.
  destruct (OrderBook.no_cross s pr k) eqn:Hnc.
  { apply Hstop; [|reflexivity]. right. intros k' Hk'.
    destruct (wf_queue_level _ _ _ _ Hwf _ _ Hk') as (l' & Hf' & _).
    apply find_In in Hf'.
    pose proof (proj1 (sides_sorted_levels b) (wf_sorted _ _ _ _ Hwf) os) as Hsorted.
    destruct (side_sorted_in _ _ _ _ Hsorted Hf') as (_ & k0 & v0 & r0 & E & Hbefore).
    subst os. rewrite Hlev in E. injection E as <- <- <-.
    eapply no_cross_beyond; eauto. }
  clear Hstop.
  destruct (Q os k) as [|p q'] eqn:HQ; [contradiction|]. clear Hne.
  rewrite (level_inv_head _ _ _ Hinv). cbn [List.head].
  assert (Hp_rest : resting_ok b (Some a) os k p)
    by (apply (wf_resting _ _ _ _ Hwf); rewrite HQ; left; reflexivity).
  destruct Hp_rest as (Hpa & po & Hpo & Hpk & Hps & Hpf & Hpq & Hpi).
  assert (Hpa' : p <> a) by congruence.
  rewrite (load_ok _ _ _ Hpo). cbn [rbind].
  unfold Order.is_fully_filled in Hfull. apply Z.leb_gt in Hfull.
  assert (Hri : Order.remaining_quantity io = Order.quantity io - Order.filled_quantity io)
    by (unfold Order.remaining_quantity; apply u64_small; unfold in_u64; lia).
  assert (Hrp : Order.remaining_quantity po = Order.quantity po - Order.filled_quantity po)
    by (unfold Order.remaining_quantity; apply u64_small; unfold in_u64; lia).
  set (qty := Z.min (Order.remaining_quantity io) (Order.remaining_quantity po)).
  assert (Hqty : 0 < qty /\ qty <= Order.quantity io - Order.filled_quantity io /\
                 qty <= Order.quantity po - Order.filled_quantity po /\
                 (qty = Order.quantity io - Order.filled_quantity io \/
                  qty = Order.quantity po - Order.filled_quantity po)) by lia.
  clearbody qty.
  assert (Hna : ~ In a (p :: q')).
  { rewrite <- HQ. intros Hin.
    destruct (wf_resting _ _ _ _ Hwf _ _ _ Hin) as (Hx & _). congruence. }
  assert (Hfind' : LevelMap.find k (OrderBook.levels (Order.side po) b) = Some best)
    by (rewrite Hps; exact Hfind).
  pose proof (execute_trade_run p a qty b po io k best (p :: q') Hpo Ha Hpa' Hpk Hfind'
                Hinv (or_introl eq_refl) Hna) as Htrade.
  cbv zeta in Htrade.
  destruct Htrade
    as (b' & l' & Hrun & Hown & Hio' & Hev & Hl'p & Hframe & Hstrip & Hp' & Hcase).
  rewrite Hps in Hown, Hcase. fold os in Hown, Hcase.
  unfold os in Hown. rewrite opposite_involutive in Hown.
  rewrite Hrun. cbn [rbind].
  set (po1 := Order.with_filled (u64 (Order.filled_quantity po + qty)) po) in *.
  set (po' := Order.with_status (OrderBook.fill_status po1) po1) in *.
  set (io1 := Order.with_filled (u64 (Order.filled_quantity io + qty)) io) in *.
  set (io' := Order.with_status (OrderBook.fill_status io1) io1) in *.
  assert (Hfi : Order.filled_quantity io' = Order.filled_quantity io + qty)
    by (cbn; apply u64_small; unfold in_u64; lia).
  assert (Hfp : Order.filled_quantity po' = Order.filled_quantity po + qty)
    by (cbn; apply u64_small; unfold in_u64; lia).
  rewrite (load_ok _ _ _ Hio'). cbn [rbind].
  change (Order.type io') with (Order.type io). rewrite Hty.
  pose proof (execute_trade_steps _ _ _ _ _ Hrun) as Hsteps.
  pose proof (book_steps_frame _ _ Hsteps) as (Hord & Hpool & Hnext).
  pose proof (book_steps_sorted _ _ Hsteps (wf_sorted _ _ _ _ Hwf)) as Hsorted'.
  set (Q' := if Order.is_fully_filled po' then upd Q os k q' else Q).
  assert (Hwf' : wf T Q' (Some a) b').
  { apply (wf_after_trade Q n s a b b' k best p q' po io' po' l'); try assumption;
      try reflexivity.
    - exists io. repeat split. exact Ha.
    - rewrite Hfp. change (Order.quantity po') with (Order.quantity po). lia.
    - rewrite Hfi. change (Order.quantity io') with (Order.quantity io). lia.
    - destruct (Order.is_fully_filled po').
      + rewrite remove_first_head in Hcase. exact Hcase.
      + destruct Hcase as (H1 & _ & H3). split; assumption. }
  assert (HQs : forall k', Q' s k' = Q s k').
  { intros k'. subst Q'. destruct (Order.is_fully_filled po'); [|reflexivity].
    apply upd_other. left. subst os. intros E. symmetry in E. exact (opposite_neq _ E). }
  assert (HQo : forall k', Q' os k' <> [] -> Q os k' <> []).
  { intros k'. subst Q'. destruct (Order.is_fully_filled po'); [|tauto].
    destruct (upd_cases Q os k q' os k') as [(_ & -> & ->)|(_ & ->)]; [|tauto].
    intros _. rewrite HQ. discriminate. }
  assert (Hfair : Forall (fair_trade s pr)
                    [TradeEvent
                       (Trade.mk
                          (if Side_eqb (Order.side po) BUY then Order.id po else Order.id io)
                          (if Side_eqb (Order.side po) SELL then Order.id po else Order.id io)
                          k qty);
                     OrderEvent po'; OrderEvent io']).
  { constructor; [|repeat constructor].
    cbn. split; [lia|]. destruct s; cbn in Hnc; lia. }
  (* the loop stops on an order of type IOC or FOK that has quantity left *)
  assert (Hhalt : forall st,
            ty = IOC /\ st = CANCELLED \/ ty = FOK /\ st = REJECTED ->
            Order.is_fully_filled io' = false ->
            let io'' := Order.with_status st io' in
            let b'' := OrderBook.with_cells (<[a := io'']> (OrderBook.cells b')) b' in
            pass_result T Q s pr ty a b io false b'' Q' io'').
  { intros st Hst Hnf io'' b''.
    assert (Hio'' : OrderBook.cells b'' !! a = Some io'')
      by (subst b''; rewrite cells_with_cells; apply lookup_insert_eq).
    split.
    { apply (wf_inc_write Q' a b' io' io'' Hwf' Hio'); [reflexivity|].
      change (Order.filled_quantity io'') with (Order.filled_quantity io').
      change (Order.quantity io'') with (Order.quantity io). rewrite Hfi. lia. }
    assert (Hh : halted ty b'' a io'').
    { split; [exact Hio''|]. split; [exact Hnf|]. split.
      - change (Order.id io'') with (Order.id io).
        subst b''. destruct b'; cbn in *. rewrite Hord. exact Hidx.
      - destruct Hst as [[-> ->]|[-> ->]]; [left|right]; split; reflexivity. }
    split; [right; split; [reflexivity|exact Hh]|].
    split; [reflexivity|]. split; [reflexivity|].
    split; [subst b''; rewrite levels_with_cells; exact Hown|].
    split; [exact HQs|]. split; [exact HQo|]. split; [discriminate|].
    split; [intros _; right; right; exact Hh|].
    eexists. split; [subst b''; rewrite events_with_cells; exact Hev|exact Hfair]. }
  unfold set_status.
  destruct (OrderType_eqb ty IOC && negb (Order.is_fully_filled io')) eqn:Hioc.
  { apply andb_prop in Hioc. destruct Hioc as [Et Ef].
    rewrite (store_ok _ _ _ _ Hio'). cbn [rbind].
    exists false. eexists. exists Q'. eexists. split; [reflexivity|].
    apply (Hhalt CANCELLED).
    - left. split; [destruct ty; try discriminate; reflexivity|reflexivity].
    - destruct (Order.is_fully_filled io'); [discriminate|reflexivity]. }
  destruct (OrderType_eqb ty FOK && negb (Order.is_fully_filled io')) eqn:Hfok.
  { apply andb_prop in Hfok. destruct Hfok as [Et Ef].
    rewrite (store_ok _ _ _ _ Hio'). cbn [rbind].
    exists false. eexists. exists Q'. eexists. split; [reflexivity|].
    apply (Hhalt REJECTED).
    - right. split; [destruct ty; try discriminate; reflexivity|reflexivity].
    - destruct (Order.is_fully_filled io'); [discriminate|reflexivity]. }
  clear Hhalt.
  exists true, b', Q', io'.
  split; [reflexivity|]. split; [exact Hwf'|]. split.
  { left. unfold inc_ok. rewrite Hord. split; [exact Hio'|].
    change (Order.side io') with (Order.side io).
    change (Order.price io') with (Order.price io).
    change (Order.type io') with (Order.type io).
    change (Order.quantity io') with (Order.quantity io).
    change (Order.id io') with (Order.id io).
    rewrite Hfi. repeat split; try assumption; try lia.
    - cbn. unfold OrderBook.fill_status. destruct (Order.is_fully_filled io1); discriminate.
    - cbn. unfold OrderBook.fill_status. destruct (Order.is_fully_filled io1); discriminate. }
  split; [reflexivity|]. split; [reflexivity|]. split; [exact Hown|].
  split; [exact HQs|]. split; [exact HQo|].
  split.
  { intros _. unfold potential. fold os.
    pose proof (wf_count _ _ _ _ Hwf n _ _ _ Hids Hn Hfind) as (Hcnt & Hcnt').
    pose proof (wf_resting_count_pos _ _ _ _ Hwf n _ _ _ Hids Hn Hfind) as Hrc.
    assert (Order.is_fully_filled io = false) as ->
      by (unfold Order.is_fully_filled; apply Z.leb_gt; lia).
    destruct (Order.is_fully_filled po') eqn:Hfullp.
    - destruct Hcase as (_ & Hc' & Hlev').
      rewrite u32_small in Hc' by lia.
      assert (resting_count (OrderBook.levels os b')
              = resting_count (OrderBook.levels os b) - 1) as ->.
      { rewrite Hlev'. destruct (PriceLevel.is_empty l') eqn:Hemp.
        - rewrite (resting_count_erase _ _ _ Hfind).
          unfold PriceLevel.is_empty in Hemp. apply Z.eqb_eq in Hemp. lia.
        - rewrite (resting_count_set _ _ _ _ Hfind). lia. }
      destruct (Order.is_fully_filled io'); lia.
    - destruct Hcase as (_ & Hc' & Hlev').
      assert (resting_count (OrderBook.levels os b')
              = resting_count (OrderBook.levels os b)) as ->.
      { rewrite Hlev'. rewrite (resting_count_set _ _ _ _ Hfind). lia. }
      assert (Order.is_fully_filled io' = true) as ->; [|lia].
      unfold Order.is_fully_filled in *. apply Z.leb_gt in Hfullp. apply Z.leb_le.
      rewrite Hfp in Hfullp. rewrite Hfi.
      change (Order.quantity po') with (Order.quantity po) in Hfullp.
      change (Order.quantity io') with (Order.quantity io). lia. }
  split; [discriminate|].
  eexists. split; [exact Hev|exact Hfair].
Qed.

Lemma ids_below_frame n b b' :
  OrderBook.orders_ b' = OrderBook.orders_ b ->
  OrderBook.next_order_id b' = OrderBook.next_order_id b ->
  ids_below n b -> ids_below n b'.
Proof. unfold ids_below. intros -> ->. trivial. Qed.

(** The matching loop on a well-formed book: with more fuel than the
    potential it returns, and the book it returns is well formed. *)
Lemma match_loop_wf {T} n s pr ty a : forall (N : nat) Q b io,
  (potential s b io <= N)%nat ->
  wf T Q (Some a) b -> ids_below n b -> 1 + n <= 2 ^ 32 ->
  inc_ok s pr ty b a io ->
  exists b' Q' io',
    (forall fuel, (N < fuel)%nat -> OrderBook.match_loop fuel s a b = Ok b') /\
    ids_below n b' /\
    pass_result T Q s pr ty a b io false b' Q' io'.
Proof.
  induction N as [|N IH]; intros Q b io HN Hwf Hids Hn Hinc;
    destruct (match_iteration_wf Q n s pr ty a b io Hwf Hids Hn Hinc)
      as (again & b1 & Q1 & io1 & Hrun & Hwf1 & Hinc1 & Eid & Eq & Hown & HQs & HQo
          & Hpot & Hexit & evs & Hev & Hfair);
    pose proof (match_iteration_steps _ _ _ _ _ Hrun) as Hsteps;
    pose proof (book_steps_frame _ _ Hsteps) as (Hord & _ & Hnext);
    pose proof (ids_below_frame n _ _ Hord Hnext Hids) as Hids1;
    destruct again.
  - specialize (Hpot eq_refl). lia.
  - exists b1, Q1, io1. split.
    { intros [|fuel] Hf; [lia|]. cbn [OrderBook.match_loop]. rewrite Hrun. reflexivity. }
    split; [exact Hids1|].
    split; [exact Hwf1|]. split; [exact Hinc1|]. split; [exact Eid|]. split; [exact Eq|].
    split; [exact Hown|]. split; [exact HQs|]. split; [exact HQo|].
    split; [exact Hpot|]. split; [exact Hexit|].
    exists evs. split; assumption.
  - specialize (Hpot eq_refl).
    destruct Hinc1 as [Hinc1|[E _]]; [|discriminate].
    destruct (IH Q1 b1 io1) as (b' & Q' & io' & Hloop & Hids' & Hwf' & Hinc' & Eid' & Eq'
                                & Hown' & HQs' & HQo' & _ & Hexit' & evs' & Hev' & Hfair');
      [lia|assumption..|].
    exists b', Q', io'. split.
    { intros [|fuel] Hf; [lia|]. cbn [OrderBook.match_loop]. rewrite Hrun. cbn [rbind].
      apply Hloop. lia. }
    split; [assumption|]. split; [assumption|]. split; [assumption|].
    split; [congruence|]. split; [congruence|]. split; [congruence|].
    split; [intros k; rewrite HQs', HQs; reflexivity|].
    split; [auto|]. split; [discriminate|]. split; [assumption|].
    exists (evs ++ evs'). rewrite Hev', Hev, app_assoc. split; [reflexivity|].
    apply Forall_app. split; assumption.
  - exists b1, Q1, io1. split.
    { intros [|fuel] Hf; [lia|]. cbn [OrderBook.match_loop]. rewrite Hrun. reflexivity. }
    split; [exact Hids1|].
    split; [exact Hwf1|]. split; [exact Hinc1|]. split; [exact Eid|]. split; [exact Eq|].
    split; [exact Hown|]. split; [exact HQs|]. split; [exact HQo|].
    split; [exact Hpot|]. split; [exact Hexit|].
    exists evs. split; assumption.
Qed.

(** The order that was matched is filled, or is not a limit order: it
    needs no place in a queue. *)
Lemma wf_done {T} Q a b io :
  wf T Q (Some a) b -> OrderBook.cells b !! a = Some io ->
  T (Order.type io) ->
  (Order.type io = LIMIT -> Order.is_fully_filled io = true) ->
  wf T Q None b.
Proof.
  intros Hwf Ha HT Hfull. split.
  - exact (wf_sorted _ _ _ _ Hwf).
  - exact (wf_level _ _ _ _ Hwf).
  - intros s k x Hx. destruct (wf_resting _ _ _ _ Hwf _ _ _ Hx) as (_ & H).
    split; [discriminate|exact H].
  - intros i x Hi. destruct (wf_index _ _ _ _ Hwf _ _ Hi) as (o & Ho & Hid & Hty & Hq).
    exists o. split; [exact Ho|]. split; [exact Hid|]. split.
    { destruct Hty as [E|Hty]; [|right; exact Hty].
      injection E as ->. rewrite Ha in Ho. injection Ho as <-. right. exact HT. }
    intros Hlim Hnf. destruct (Hq Hlim Hnf) as [E|Hin]; [|right; exact Hin].
    injection E as ->. rewrite Ha in Ho. injection Ho as <-.
    rewrite (Hfull Hlim) in Hnf. discriminate.
  - exact (wf_pool _ _ _ _ Hwf).
  - exact (wf_uncrossed _ _ _ _ Hwf).
  - exact (wf_filled _ _ _ _ Hwf).
Qed.

(** Well-formedness reads the levels, the cells, the index and the pool. *)
Lemma wf_ext {T} Q inc b b' :
  OrderBook.bid_levels_ b' = OrderBook.bid_levels_ b ->
  OrderBook.ask_levels_ b' = OrderBook.ask_levels_ b ->
  OrderBook.cells b' = OrderBook.cells b ->
  OrderBook.orders_ b' = OrderBook.orders_ b ->
  OrderBook.order_pool_ b' = OrderBook.order_pool_ b ->
  wf T Q inc b -> wf T Q inc b'.
Proof.
  intros Eb Ea Ec Eo Ep Hwf.
  assert (El : forall s, OrderBook.levels s b' = OrderBook.levels s b)
    by (intros []; assumption).
  split.
  - unfold sides_sorted. rewrite Eb, Ea. exact (wf_sorted _ _ _ _ Hwf).
  - intros s k. rewrite El, Ec. exact (wf_level _ _ _ _ Hwf s k).
  - intros s k x Hx. unfold resting_ok. rewrite Ec, Eo.
    exact (wf_resting _ _ _ _ Hwf _ _ _ Hx).
  - intros i x. rewrite Ec, Eo. exact (wf_index _ _ _ _ Hwf i x).
  - unfold pool_sound. rewrite Ec, Ep. exact (wf_pool _ _ _ _ Hwf).
  - exact (wf_uncrossed _ _ _ _ Hwf).
  - intros i x o. rewrite Ec, Eo. exact (wf_filled _ _ _ _ Hwf i x o).
Qed.

(** Callbacks do not touch the book. *)
Lemma wf_notify {T} Q inc e b : wf T Q inc b -> wf T Q inc (OrderBook.notify e b).
Proof. apply wf_ext; destruct b; reflexivity. Qed.

Lemma allocate_blocks p a p' :
  MemoryPool.allocate p = Ok (a, p') ->
  (MemoryPool.blocks_ p <= MemoryPool.blocks_ p')%N /\
  MemoryPool.block_size_ p' = MemoryPool.block_size_ p.
Proof.
  unfold MemoryPool.allocate, MemoryPool.refill.
  destruct (MemoryPool.free_list_ p) as [|y l] eqn:E.
  - unfold MemoryPool.allocate_block.
    cbn [MemoryPool.free_list_ MemoryPool.blocks_ MemoryPool.block_size_].
    destruct (_ ++ _); [discriminate|]. intros [= <- <-]. cbn. split; [lia|reflexivity].
  - rewrite E. intros [= <- <-]. cbn. split; [lia|reflexivity].
Qed.

(** The new order enters: a fresh cell, the next id. *)
Lemma wf_entered {T} Q n price quantity side ty a pool b :
  wf T Q None b -> ids_below n b -> 2 + n <= 2 ^ 32 -> in_u64 quantity ->
  MemoryPool.allocate (OrderBook.order_pool_ b) = Ok (a, pool) ->
  let b0 := entered price quantity side ty a pool b in
  wf T Q (Some a) b0 /\ ids_below (n + 1) b0 /\
  inc_ok side price ty b0 a (Order.new (OrderBook.next_order_id b) price quantity side ty).
Proof.
  intros Hwf [[Hn1 Hn2] Hidx] Hn Hq Halloc b0.
  destruct (wf_pool _ _ _ _ Hwf) as (Hsz & Hok & Hfree).
  destruct (allocate_ok _ _ _ Hok Halloc) as (Hok' & Hafree & Habound).
  destruct (allocate_origin _ _ _ Halloc) as (Ha_from & Hsub & Hsz').
  assert (Hfresh : OrderBook.cells b !! a = None) by (apply Hfree; exact Ha_from).
  assert (Hid_fresh : OrderBook.orders_ b !! OrderBook.next_order_id b = None).
  { destruct (OrderBook.orders_ b !! OrderBook.next_order_id b) eqn:E; [|reflexivity].
    assert (is_Some (OrderBook.orders_ b !! OrderBook.next_order_id b)) as Hs
      by (rewrite E; eauto).
    apply Hidx in Hs. lia. }
  assert (Hc0 : OrderBook.cells b0
                = <[a := Order.new (OrderBook.next_order_id b) price quantity side ty]>
                    (OrderBook.cells b)) by (destruct b; reflexivity).
  assert (Ho0 : OrderBook.orders_ b0
                = <[OrderBook.next_order_id b := a]> (OrderBook.orders_ b))
    by (destruct b; reflexivity).
  assert (Hl0 : forall s, OrderBook.levels s b0 = OrderBook.levels s b)
    by (intros []; destruct b; reflexivity).
  assert (Hp0 : OrderBook.order_pool_ b0 = pool) by (destruct b; reflexivity).
  assert (Hn0 : OrderBook.next_order_id b0 = u64 (OrderBook.next_order_id b + 1))
    by (destruct b; reflexivity).
  assert (Hcell : forall x o, OrderBook.cells b !! x = Some o ->
                              OrderBook.cells b0 !! x = Some o).
  { intros x o Ho. rewrite Hc0, lookup_insert_ne by congruence. exact Ho. }
  assert (Hidx0 : forall i x, OrderBook.orders_ b !! i = Some x ->
                              OrderBook.orders_ b0 !! i = Some x).
  { intros i x Hi. rewrite Ho0, lookup_insert_ne by congruence. exact Hi. }
  split; [|split].
  - split.
    + destruct (wf_sorted _ _ _ _ Hwf) as [H1 H2]. split.
      * change (OrderBook.bid_levels_ b0) with (OrderBook.levels BUY b0). rewrite Hl0. exact H1.
      * change (OrderBook.ask_levels_ b0) with (OrderBook.levels SELL b0). rewrite Hl0. exact H2.
    + intros s k. rewrite Hl0. pose proof (wf_level _ _ _ _ Hwf s k) as H.
      destruct (LevelMap.find k (OrderBook.levels s b)) as [l|]; [|exact H].
      destruct H as [H1 H2]. split; [|exact H2].
      eapply level_inv_ext; [exact H1|]. intros x Hx.
      destruct (wf_queue_cell _ _ _ _ Hwf _ _ _ Hx) as [o Ho].
      rewrite (Hcell _ _ Ho). symmetry. exact Ho.
    + intros s k x Hx.
      destruct (wf_resting _ _ _ _ Hwf _ _ _ Hx) as (_ & o & Ho & Hp & Hs & Hf & Hqq & Hi).
      split; [intros [= ->]; congruence|].
      exists o. split; [apply Hcell; exact Ho|]. repeat split; try assumption; try lia.
      apply Hidx0. exact Hi.
    + intros i x Hi. rewrite Ho0 in Hi.
      destruct (Z.eq_dec i (OrderBook.next_order_id b)) as [->|Hne].
      * rewrite lookup_insert_eq in Hi. injection Hi as <-.
        eexists. split; [rewrite Hc0; apply lookup_insert_eq|].
        split; [reflexivity|]. split; [left; reflexivity|]. intros _ _. left. reflexivity.
      * rewrite lookup_insert_ne in Hi by congruence.
        destruct (wf_index _ _ _ _ Hwf _ _ Hi) as (o & Ho & Hid & Hty & Hqq).
        exists o. split; [apply Hcell; exact Ho|]. split; [exact Hid|]. split.
        { destruct Hty as [E|Hty]; [discriminate|right; exact Hty]. }
        intros Hlim Hnf. destruct (Hqq Hlim Hnf) as [E|Hin]; [discriminate|right; exact Hin].
    + unfold pool_sound. rewrite Hp0. split; [congruence|]. split; [exact Hok'|].
      intros x Hx. rewrite Hc0.
      assert (x <> a) as Hxa.
      { intros ->. destruct Hx as [Hx|Hx]; [contradiction|lia]. }
      rewrite lookup_insert_ne by congruence. apply Hfree. apply Hsub. exact Hx.
    + exact (wf_uncrossed _ _ _ _ Hwf).
    + intros i x o Hi Ho. rewrite Ho0 in Hi. rewrite Hc0 in Ho.
      destruct (Z.eq_dec i (OrderBook.next_order_id b)) as [->|Hne].
      * rewrite lookup_insert_eq in Hi. injection Hi as <-.
        rewrite lookup_insert_eq in Ho. injection Ho as <-. cbn. unfold in_u64 in Hq. lia.
      * rewrite lookup_insert_ne in Hi by congruence.
        destruct (wf_index _ _ _ _ Hwf _ _ Hi) as (o' & Ho' & _).
        rewrite lookup_insert_ne in Ho by congruence.
        exact (wf_filled _ _ _ _ Hwf _ _ _ Hi Ho).
  - unfold ids_below. rewrite Hn0, u64_small by (unfold in_u64; lia). split; [lia|].
    intros j Hj. rewrite Ho0 in Hj.
    destruct (Z.eq_dec j (OrderBook.next_order_id b)) as [->|Hne]; [lia|].
    rewrite lookup_insert_ne in Hj by congruence. apply Hidx in Hj. lia.
  - unfold inc_ok. rewrite Hc0, Ho0. cbn [Order.new Order.side Order.price Order.type
      Order.filled_quantity Order.quantity Order.status Order.id].
    rewrite !lookup_insert_eq. unfold in_u64 in Hq.
    repeat split; try reflexivity; try lia; try discriminate.
Qed.

Lemma pool_with_levels s v b :
  OrderBook.order_pool_ (OrderBook.with_levels s v b) = OrderBook.order_pool_ b.
Proof. destruct s, b; reflexivity. Qed.

Lemma next_id_with_levels s v b :
  OrderBook.next_order_id (OrderBook.with_levels s v b) = OrderBook.next_order_id b.
Proof. destruct s, b; reflexivity. Qed.

Lemma sides_sorted_put s lv b b' :
  sides_sorted b ->
  side_sorted (OrderBook.before s) lv ->
  OrderBook.levels s b' = lv ->
  OrderBook.levels (OrderBook.opposite s) b' = OrderBook.levels (OrderBook.opposite s) b ->
  sides_sorted b'.
Proof.
  intros Hs Hlv E1 E2. apply sides_sorted_levels. intros s'.
  destruct (side_cases s' s) as [->|Hne].
  - rewrite E1. exact Hlv.
  - assert (s' = OrderBook.opposite s) as -> by (destruct s, s'; cbn; congruence).
    rewrite E2. apply sides_sorted_levels. exact Hs.
Qed.

(** The level that [get_or_create_level] leaves under the price. *)
Lemma get_or_create_level_wf {T} Q inc s pr b :
  wf T Q inc b ->
  let b1 := OrderBook.get_or_create_level pr s b in
  exists l0,
    LevelMap.find pr (OrderBook.levels s b1) = Some l0 /\
    level_inv (OrderBook.cells b) l0 (Q s pr) /\
    (forall k', k' <> pr ->
                LevelMap.find k' (OrderBook.levels s b1)
                = LevelMap.find k' (OrderBook.levels s b)) /\
    side_sorted (OrderBook.before s) (OrderBook.levels s b1) /\
    OrderBook.levels (OrderBook.opposite s) b1 = OrderBook.levels (OrderBook.opposite s) b /\
    OrderBook.cells b1 = OrderBook.cells b /\
    OrderBook.orders_ b1 = OrderBook.orders_ b /\
    OrderBook.order_pool_ b1 = OrderBook.order_pool_ b /\
    OrderBook.events b1 = OrderBook.events b.
Proof.
  intros Hwf. cbv zeta. unfold OrderBook.get_or_create_level.
  pose proof (proj1 (sides_sorted_levels b) (wf_sorted _ _ _ _ Hwf) s) as Hsorted.
  pose proof (wf_level _ _ _ _ Hwf s pr) as Hlev.
  destruct (LevelMap.find pr (OrderBook.levels s b)) as [l|] eqn:Hf.
  - exists l. destruct Hlev as [H1 _].
    split; [exact Hf|]. split; [exact H1|]. split; [reflexivity|].
    split; [exact Hsorted|]. repeat split.
  - exists (PriceLevel.new pr).
    rewrite levels_with_levels, levels_opposite_with_levels, cells_with_levels,
      orders_with_levels, pool_with_levels, events_with_levels.
    split; [rewrite (find_insert _ _ _ _ _ Hf), Z.eqb_refl; reflexivity|].
    split.
    { rewrite Hlev. split; [split; reflexivity|]. split; [constructor|]. split; reflexivity. }
    split.
    { intros k' Hk'. rewrite (find_insert _ _ _ _ _ Hf).
      destruct (Z.eqb_spec k' pr); [contradiction|reflexivity]. }
    split; [apply side_sorted_insert; assumption|]. repeat split.
Qed.

(** The order that was matched has quantity left and rests. *)
Lemma rest_wf {T} Q n s pr a b io :
  wf T Q (Some a) b -> ids_below n b -> 1 + n <= 2 ^ 32 ->
  T LIMIT ->
  inc_ok s pr LIMIT b a io ->
  Order.is_fully_filled io = false ->
  (forall k, Q (OrderBook.opposite s) k <> [] -> OrderBook.no_cross s pr k = true) ->
  exists b' o,
    OrderBook.rest_or_release (Order.id io) pr s LIMIT a b = Ok b' /\
    wf T (upd Q s pr (Q s pr ++ [a])) None b' /\
    OrderBook.orders_ b' = OrderBook.orders_ b /\
    OrderBook.events b' = OrderBook.events b ++ [OrderEvent o] /\
    OrderBook.cells b' !! a = Some o /\ strip o = strip io.
Proof.
  intros Hwf Hids Hn HT Hinc Hnf Hexit.
  pose proof Hinc as (Ha & Hs & Hpr & Hty & Hfill & Hq & Hst1 & Hst2 & Hidx).
  set (os := OrderBook.opposite s) in *.
  unfold OrderBook.rest_or_release. rewrite (load_ok _ _ _ Ha). cbn [rbind].
  rewrite Hnf.
  assert (OrderStatus_eqb (Order.status io) CANCELLED = false) as ->
    by (destruct (Order.status io); try reflexivity; congruence).
  assert (OrderStatus_eqb (Order.status io) REJECTED = false) as ->
    by (destruct (Order.status io); try reflexivity; congruence).
  cbn [negb andb OrderType_eqb].
  destruct (get_or_create_level_wf Q (Some a) s pr b Hwf)
    as (l0 & Hf1 & Hinv0 & Hother1 & Hsorted1 & Hopp1 & Hc1 & Ho1 & Hp1 & He1).
  set (b1 := OrderBook.get_or_create_level pr s b) in *. clearbody b1.
  assert (Hna : ~ In a (Q s pr)).
  { intros Hin. destruct (wf_resting _ _ _ _ Hwf _ _ _ Hin) as (Hx & _). congruence. }
  destruct (add_order_full (OrderBook.cells b) l0 (Q s pr) a Hinv0)
    as (l' & m' & Hrun & Hinv' & Hprice' & Hcnt' & Hstrip & Hframe); [eauto|exact Hna|].
  rewrite (on_level_run pr s _ b1 l0 l' m' Hf1) by (rewrite Hc1; exact Hrun).
  cbn [rbind]. rewrite cells_with_cells.
  destruct (strip_lookup _ _ _ _ (Hstrip a) Ha) as (io' & Hio' & Estrip).
  rewrite (load_ok _ _ _ Hio'). cbn [rbind].
  set (b2 := OrderBook.with_cells m'
               (OrderBook.with_levels s (LevelMap.set pr l' (OrderBook.levels s b1)) b1)).
  assert (Hl2 : OrderBook.levels s b2 = LevelMap.set pr l' (OrderBook.levels s b1))
    by (subst b2; rewrite levels_with_cells, levels_with_levels; reflexivity).
  assert (Hopp2 : OrderBook.levels os b2 = OrderBook.levels os b).
  { subst b2 os. rewrite levels_with_cells, levels_opposite_with_levels. exact Hopp1. }
  assert (Hc2 : OrderBook.cells b2 = m') by (subst b2; apply cells_with_cells).
  assert (Ho2 : OrderBook.orders_ b2 = OrderBook.orders_ b).
  { subst b2. destruct s, b1; exact Ho1. }
  assert (Hp2 : OrderBook.order_pool_ b2 = OrderBook.order_pool_ b).
  { subst b2. destruct s, b1; exact Hp1. }
  assert (He2 : OrderBook.events b2 = OrderBook.events b).
  { subst b2. rewrite events_with_cells, events_with_levels. exact He1. }
  assert (Hf2 : LevelMap.find pr (OrderBook.levels s b2) = Some l')
    by (rewrite Hl2, find_set, Z.eqb_refl, Hf1; reflexivity).
  assert (Hother2 : forall k', k' <> pr ->
             LevelMap.find k' (OrderBook.levels s b2)
             = LevelMap.find k' (OrderBook.levels s b)).
  { intros k' Hk'. rewrite Hl2, find_set.
    destruct (Z.eqb_spec k' pr); [contradiction|]. apply Hother1. exact Hk'. }
  assert (Hsorted2 : sides_sorted b2).
  { eapply (sides_sorted_put s); [exact (wf_sorted _ _ _ _ Hwf)| |exact Hl2|exact Hopp2].
    eapply side_sorted_set; eauto. }
  clearbody b2. clear Hl2 Hf1 Hother1 Hsorted1 Hopp1 Hc1 Ho1 Hp1 He1 b1.
  exists (OrderBook.notify_order_update io' b2), io'.
  split; [reflexivity|]. split; [|split; [|split; [|split]]].
  2: { unfold OrderBook.notify_order_update. destruct b2; exact Ho2. }
  2: { unfold OrderBook.notify_order_update. rewrite events_notify, He2. reflexivity. }
  2: { unfold OrderBook.notify_order_update. rewrite cells_notify, Hc2. exact Hio'. }
  2: { exact Estrip. }
  apply wf_notify.
  set (Q2 := upd Q s pr (Q s pr ++ [a])).
  assert (HQ2 : forall s' k' x, In x (Q s' k') -> In x (Q2 s' k')).
  { intros s' k' x Hx. subst Q2.
    destruct (upd_cases Q s pr (Q s pr ++ [a]) s' k') as [(-> & -> & ->)|(_ & ->)];
      [apply in_or_app; left|]; exact Hx. }
  assert (HQ2' : forall s' k' x, In x (Q2 s' k') ->
                                 In x (Q s' k') \/ (s' = s /\ k' = pr /\ x = a)).
  { intros s' k' x. subst Q2.
    destruct (upd_cases Q s pr (Q s pr ++ [a]) s' k') as [(-> & -> & ->)|(_ & ->)]; [|tauto].
    intros Hx. apply in_app_or in Hx. destruct Hx as [Hx|[<-|[]]]; auto. }
  assert (Hsame : forall s' k' x, In x (Q s' k') -> (s' <> s \/ k' <> pr) ->
                                  m' !! x = OrderBook.cells b !! x).
  { intros s' k' x Hx Hsk. apply Hframe.
    - intros Hx'. destruct (wf_disjoint _ _ _ _ Hwf _ _ _ _ _ Hx Hx') as [-> ->].
      destruct Hsk; congruence.
    - destruct (wf_resting _ _ _ _ Hwf _ _ _ Hx) as (Hxa & _). congruence. }
  apply strip_fields in Estrip. destruct Estrip as (Ei & Ep & Eq & Ef & Es & Et & _).
  unfold Order.is_fully_filled in Hnf. apply Z.leb_gt in Hnf.
  split.
  - exact Hsorted2.
  - intros s' k'. rewrite Hc2.
    destruct (side_cases s' s) as [->|Hs'].
    + destruct (Z.eq_dec k' pr) as [->|Hk'].
      * rewrite Hf2. subst Q2. rewrite upd_same. split; [exact Hinv'|].
        destruct (Q s pr); discriminate.
      * rewrite Hother2 by exact Hk'. subst Q2. rewrite upd_other by auto.
        pose proof (wf_level _ _ _ _ Hwf s k') as H.
        destruct (LevelMap.find k' (OrderBook.levels s b)) as [l|]; [|exact H].
        destruct H as [H1 H2]. split; [|exact H2].
        eapply level_inv_ext; [exact H1|]. intros x Hx. eapply Hsame; eauto.
    + assert (s' = os) as -> by (subst os; destruct s, s'; cbn in *; congruence).
      rewrite Hopp2. subst Q2. rewrite upd_other by auto.
      pose proof (wf_level _ _ _ _ Hwf os k') as H.
      destruct (LevelMap.find k' (OrderBook.levels os b)) as [l|]; [|exact H].
      destruct H as [H1 H2]. split; [|exact H2].
      eapply level_inv_ext; [exact H1|]. intros x Hx. eapply Hsame; eauto.
  - intros s' k' x Hx. unfold resting_ok. rewrite Hc2, Ho2. split; [discriminate|].
    destruct (HQ2' _ _ _ Hx) as [Hx0|(-> & -> & ->)].
    + destruct (wf_resting _ _ _ _ Hwf _ _ _ Hx0) as (_ & o & Ho & Hop & Hos & Hof & Hoq & Hoi).
      destruct (strip_lookup _ _ _ _ (Hstrip x) Ho) as (o' & Ho' & Eo).
      apply strip_fields in Eo. destruct Eo as (Ei' & Ep' & Eq' & Ef' & Es' & Et' & _).
      exists o'. rewrite Ei', Ep', Eq', Ef', Es'. repeat split; try assumption; lia.
    + exists io'. rewrite Ei, Ep, Eq, Ef, Es. repeat split; try assumption; lia.
  - intros i x Hi. rewrite Ho2 in Hi. rewrite Hc2.
    destruct (wf_index _ _ _ _ Hwf _ _ Hi) as (o & Ho & Hoid & Hoty & Hoq).
    destruct (strip_lookup _ _ _ _ (Hstrip x) Ho) as (o' & Ho' & Eo).
    pose proof (strip_full _ _ Eo) as Efull.
    apply strip_fields in Eo. destruct Eo as (Ei' & Ep' & Eq' & Ef' & Es' & Et' & _).
    exists o'. split; [exact Ho'|]. split; [congruence|]. split.
    { right. destruct Hoty as [E|Hoty]; [|rewrite Et'; exact Hoty].
      injection E as ->. rewrite Ha in Ho. injection Ho as <-. rewrite Et', Hty. exact HT. }
    rewrite Efull, Es', Ep', Et'. intros Hlim Hnf'. right.
    destruct (Hoq Hlim Hnf') as [E|Hin].
    + injection E as ->. rewrite Ha in Ho. injection Ho as <-.
      rewrite Hs, Hpr. subst Q2. rewrite upd_same. apply in_or_app. right. left. reflexivity.
    + apply HQ2. exact Hin.
  - destruct (wf_pool _ _ _ _ Hwf) as (Hsz & Hok & Hfree).
    unfold pool_sound. rewrite Hp2, Hc2. split; [exact Hsz|]. split; [exact Hok|].
    intros x Hx. pose proof (Hfree x Hx) as Hnone.
    pose proof (Hstrip x) as E. rewrite Hnone in E.
    destruct (m' !! x); [discriminate|reflexivity].
  - intros kb ka Hb Hka. subst Q2 os. clear HQ2 HQ2' Hsame. destruct s; cbn [OrderBook.opposite] in *.
    + rewrite (upd_other _ BUY pr _ SELL ka) in Hka by (left; discriminate).
      destruct (Z.eq_dec kb pr) as [->|Hk].
      * specialize (Hexit ka Hka). cbn in Hexit. lia.
      * rewrite upd_other in Hb by auto. exact (wf_uncrossed _ _ _ _ Hwf kb ka Hb Hka).
    + rewrite (upd_other _ SELL pr _ BUY kb) in Hb by (left; discriminate).
      destruct (Z.eq_dec ka pr) as [->|Hk].
      * specialize (Hexit kb Hb). cbn in Hexit. lia.
      * rewrite upd_other in Hka by auto. exact (wf_uncrossed _ _ _ _ Hwf kb ka Hb Hka).
  - intros i x o' Hi Ho'. rewrite Ho2 in Hi. rewrite Hc2 in Ho'.
    destruct (wf_index _ _ _ _ Hwf _ _ Hi) as (o & Ho & _).
    destruct (strip_lookup _ _ _ _ (Hstrip x) Ho) as (o'' & Ho'' & Eo).
    rewrite Ho' in Ho''. injection Ho'' as <-.
    apply strip_fields in Eo. destruct Eo as (_ & _ & Eq' & Ef' & _).
    rewrite Eq', Ef'. exact (wf_filled _ _ _ _ Hwf _ _ _ Hi Ho).
Qed.

Lemma rest_or_release_next id price side type a b b' :
  OrderBook.rest_or_release id price side type a b = Ok b' ->
  OrderBook.next_order_id b' = OrderBook.next_order_id b.
Proof.
  intros H. destruct (rest_or_release_shape _ _ _ _ _ _ _ H) as [S| ->].
  - apply book_steps_frame in S. apply S.
  - destruct b; reflexivity.
Qed.

Lemma market_state_notify e b :
  OrderBook.get_market_state (OrderBook.notify e b) = OrderBook.get_market_state b.
Proof. destruct b; reflexivity. Qed.

(** An order leaves the index and its cell returns to the pool. *)
Lemma release_core {T} Q i a b b' o :
  wf T Q (Some a) b -> OrderBook.orders_ b !! i = Some a ->
  OrderBook.cells b !! a = Some o ->
  OrderBook.cells b' = delete a (OrderBook.cells b) ->
  OrderBook.orders_ b' = delete i (OrderBook.orders_ b) ->
  OrderBook.order_pool_ b' = MemoryPool.deallocate a (OrderBook.order_pool_ b) ->
  (forall s, OrderBook.levels s b' = OrderBook.levels s b) ->
  wf T Q None b'.
Proof.
  intros Hwf Hi Ha Hc Ho Hp Hl.
  assert (Hq : forall s k x, In x (Q s k) -> x <> a).
  { intros s k x Hx. destruct (wf_resting _ _ _ _ Hwf _ _ _ Hx) as (H & _). congruence. }
  assert (Hida : Order.id o = i).
  { destruct (wf_index _ _ _ _ Hwf _ _ Hi) as (o' & Ho' & Hid & _). congruence. }
  assert (Hinj : forall j x, OrderBook.orders_ b !! j = Some x -> j <> i -> x <> a).
  { intros j x Hj Hne ->. destruct (wf_index _ _ _ _ Hwf _ _ Hj) as (o' & Ho' & Hid & _).
    congruence. }
  split.
  - destruct (wf_sorted _ _ _ _ Hwf) as [H1 H2]. split.
    + change (OrderBook.bid_levels_ b') with (OrderBook.levels BUY b'). rewrite Hl. exact H1.
    + change (OrderBook.ask_levels_ b') with (OrderBook.levels SELL b'). rewrite Hl. exact H2.
  - intros s k. rewrite Hl, Hc. pose proof (wf_level _ _ _ _ Hwf s k) as H.
    destruct (LevelMap.find k (OrderBook.levels s b)) as [l|]; [|exact H].
    destruct H as [H1 H2]. split; [|exact H2].
    eapply level_inv_ext; [exact H1|]. intros x Hx.
    apply lookup_delete_ne. intros ->. exact (Hq _ _ _ Hx eq_refl).
  - intros s k x Hx. unfold resting_ok. rewrite Hc, Ho.
    destruct (wf_resting _ _ _ _ Hwf _ _ _ Hx) as (Hxa & ox & Hox & Hop & Hos & Hof & Hoq & Hoi).
    split; [discriminate|]. exists ox.
    rewrite lookup_delete_ne by congruence.
    repeat split; try assumption; try lia.
    rewrite lookup_delete_ne; [exact Hoi|].
    intros E. rewrite <- E in Hoi. congruence.
  - intros j x Hj. rewrite Ho in Hj. rewrite Hc.
    destruct (Z.eq_dec j i) as [->|Hne]; [rewrite lookup_delete_eq in Hj; discriminate|].
    rewrite lookup_delete_ne in Hj by congruence.
    destruct (wf_index _ _ _ _ Hwf _ _ Hj) as (ox & Hox & Hid & Hty & Hqq).
    exists ox. rewrite lookup_delete_ne by (intros E; exact (Hinj _ _ Hj Hne (eq_sym E))).
    split; [exact Hox|]. split; [exact Hid|]. split.
    { destruct Hty as [E|Hty]; [|right; exact Hty].
      injection E as ->. exfalso. exact (Hinj _ _ Hj Hne eq_refl). }
    intros Hlim Hnf. destruct (Hqq Hlim Hnf) as [E|Hin]; [|right; exact Hin].
    injection E as ->. exfalso. exact (Hinj _ _ Hj Hne eq_refl).
  - destruct (wf_pool _ _ _ _ Hwf) as (Hsz & Hok & Hfree).
    unfold pool_sound. rewrite Hp, Hc. split; [exact Hsz|]. split.
    + apply pool_reuses_freed_cell_ok; [exact Hok| |].
      * intros Hin. assert (OrderBook.cells b !! a = None) by (apply Hfree; left; exact Hin).
        congruence.
      * destruct (N.lt_ge_cases a (MemoryPool.blocks_ (OrderBook.order_pool_ b)
                                   * MemoryPool.block_size_ (OrderBook.order_pool_ b)))
          as [Hlt|Hge]; [exact Hlt|].
        assert (OrderBook.cells b !! a = None) by (apply Hfree; right; exact Hge).
        congruence.
    + intros x [[<-|Hx]|Hx].
      * apply lookup_delete_eq.
      * rewrite lookup_delete_None. right. apply Hfree. left. exact Hx.
      * rewrite lookup_delete_None. right. apply Hfree. right. exact Hx.
  - exact (wf_uncrossed _ _ _ _ Hwf).
  - intros j x ox Hj Hox. rewrite Ho in Hj. rewrite Hc in Hox.
    apply lookup_delete_Some in Hj. destruct Hj as [_ Hj].
    apply lookup_delete_Some in Hox. destruct Hox as [_ Hox].
    exact (wf_filled _ _ _ _ Hwf _ _ _ Hj Hox).
Qed.

(** The block under "market orders always match" on a well-formed book. *)
Lemma use_best_price_wf {T} Q n side ty price a b io :
  wf T Q (Some a) b -> ids_below n b -> inc_ok side price ty b a io ->
  exists b' io',
    OrderBook.use_best_price side ty a b = Ok b' /\
    wf T Q (Some a) b' /\ ids_below n b' /\
    inc_ok side (taken_price side ty price b) ty b' a io' /\
    Order.id io' = Order.id io /\ Order.quantity io' = Order.quantity io /\
    Order.is_fully_filled io' = Order.is_fully_filled io /\
    (forall s, OrderBook.levels s b' = OrderBook.levels s b) /\
    OrderBook.orders_ b' = OrderBook.orders_ b /\
    OrderBook.events b' = OrderBook.events b.
Proof.
  intros Hwf Hids Hinc.
  pose proof Hinc as (Ha & Hs & Hpr & Hty & Hfill & Hq & Hst1 & Hst2 & Hidx).
  assert (Hsame : OrderBook.use_best_price side ty a b = Ok b ->
                  taken_price side ty price b = price ->
                  exists b' io',
                    OrderBook.use_best_price side ty a b = Ok b' /\
                    wf T Q (Some a) b' /\ ids_below n b' /\
                    inc_ok side (taken_price side ty price b) ty b' a io' /\
                    Order.id io' = Order.id io /\ Order.quantity io' = Order.quantity io /\
                    Order.is_fully_filled io' = Order.is_fully_filled io /\
                    (forall s, OrderBook.levels s b' = OrderBook.levels s b) /\
                    OrderBook.orders_ b' = OrderBook.orders_ b /\
                    OrderBook.events b' = OrderBook.events b).
  { intros E1 E2. exists b, io. rewrite E2. split; [exact E1|]. split; [exact Hwf|].
    split; [exact Hids|]. split; [exact Hinc|]. repeat split. }
  assert (Hset : forall p,
            OrderBook.use_best_price side ty a b
            = (let* m := set_price a p (OrderBook.cells b) in Ok (OrderBook.with_cells m b)) ->
            taken_price side ty price b = p ->
            exists b' io',
              OrderBook.use_best_price side ty a b = Ok b' /\
              wf T Q (Some a) b' /\ ids_below n b' /\
              inc_ok side (taken_price side ty price b) ty b' a io' /\
              Order.id io' = Order.id io /\ Order.quantity io' = Order.quantity io /\
              Order.is_fully_filled io' = Order.is_fully_filled io /\
              (forall s, OrderBook.levels s b' = OrderBook.levels s b) /\
              OrderBook.orders_ b' = OrderBook.orders_ b /\
              OrderBook.events b' = OrderBook.events b).
  { intros p E1 E2. rewrite E1, E2. unfold set_price.
    rewrite (store_ok _ _ _ _ Ha). cbn [rbind].
    exists (OrderBook.with_cells (<[a := Order.with_price p io]> (OrderBook.cells b)) b),
      (Order.with_price p io).
    split; [reflexivity|]. split.
    { apply (wf_inc_write Q a b io _ Hwf Ha); [reflexivity|exact Hfill]. }
    split; [eapply ids_below_frame; [| |exact Hids]; destruct b; reflexivity|].
    split.
    { unfold inc_ok. rewrite cells_with_cells, lookup_insert_eq.
      split; [reflexivity|]. split; [exact Hs|]. split; [reflexivity|].
      split; [exact Hty|]. split; [exact Hfill|]. split; [exact Hq|].
      split; [exact Hst1|]. split; [exact Hst2|]. destruct b; exact Hidx. }
    split; [reflexivity|]. split; [reflexivity|]. split; [reflexivity|].
    split; [intros s0; apply levels_with_cells|]. split; destruct b; reflexivity. }
  unfold OrderBook.use_best_price, taken_price in *.
  destruct ty; try (apply Hsame; [destruct side|]; reflexivity).
  destruct side; cbn [OrderBook.opposite OrderBook.levels] in *.
  - destruct (OrderBook.ask_levels_ b) as [|[p l] rest].
    + apply Hsame; [destruct (OrderBook.bid_levels_ b)|]; reflexivity.
    + apply (Hset p); reflexivity.
  - destruct (OrderBook.bid_levels_ b) as [|[p l] rest].
    + apply Hsame; [destruct (OrderBook.ask_levels_ b)|]; reflexivity.
    + apply (Hset p); [destruct (OrderBook.ask_levels_ b)|]; reflexivity.
Qed.

(** [add_order] on a well-formed book, for an order of any type that the
    index may hold: with more fuel than the number of orders resting on
    the opposite side plus one it returns the next id, and the book stays
    well formed.  The order is in the index afterwards, unless it is an IOC
    or FOK order that the loop has stopped on. *)
Lemma add_order_wf {T} Q n price quantity side ty b :
  wf T Q None b -> ids_below n b -> 2 + n <= 2 ^ 32 -> in_u64 quantity -> T ty ->
  exists (N : nat) b' Q',
    (forall fuel, (N < fuel)%nat ->
       OrderBook.add_order fuel price quantity side ty b
       = Ok (OrderBook.next_order_id b, b')) /\
    (N <= Z.to_nat (resting_count (OrderBook.levels (OrderBook.opposite side) b)) + 1)%nat /\
    wf T Q' None b' /\ ids_below (n + 1) b' /\
    ((exists a o,
        OrderBook.orders_ b' = <[OrderBook.next_order_id b := a]> (OrderBook.orders_ b) /\
        OrderBook.cells b' !! a = Some o /\
        Order.id o = OrderBook.next_order_id b /\
        Order.price o = taken_price side ty price b /\
        Order.side o = side /\ Order.type o = ty /\ Order.quantity o = quantity /\
        0 <= Order.filled_quantity o <= quantity /\
        Order.status o <> CANCELLED /\ Order.status o <> REJECTED) \/
     (ty = IOC \/ ty = FOK) /\ OrderBook.orders_ b' = OrderBook.orders_ b) /\
    exists evs,
      OrderBook.events b'
      = OrderBook.events b ++ evs ++ [StateEvent (OrderBook.get_market_state b')] /\
      Forall (fair_trade side (taken_price side ty price b)) evs.
Proof.
  intros Hwf Hids Hn Hq HT.
  destruct (wf_pool _ _ _ _ Hwf) as (Hsz & _).
  destruct (allocate_total _ Hsz) as (a & pool & Halloc).
  pose proof (wf_entered Q n price quantity side ty a pool b Hwf Hids Hn Hq Halloc) as H0.
  cbv zeta in H0. destruct H0 as (Hwf00 & Hids00 & Hinc00).
  set (b00 := entered price quantity side ty a pool b) in *.
  set (io00 := Order.new (OrderBook.next_order_id b) price quantity side ty) in *.
  assert (Hfresh : OrderBook.orders_ b !! OrderBook.next_order_id b = None).
  { destruct Hids as [Hb Hidx].
    destruct (OrderBook.orders_ b !! OrderBook.next_order_id b) eqn:E; [|reflexivity].
    assert (is_Some (OrderBook.orders_ b !! OrderBook.next_order_id b)) as Hs
      by (rewrite E; eauto).
    apply Hidx in Hs. lia. }
  assert (Hl00 : forall s, OrderBook.levels s b00 = OrderBook.levels s b)
    by (intros []; subst b00; destruct b; reflexivity).
  assert (Hpr00 : taken_price side ty price b00 = taken_price side ty price b)
    by (unfold taken_price; rewrite Hl00; reflexivity).
  destruct (use_best_price_wf Q (n + 1) side ty price a b00 io00 Hwf00 Hids00 Hinc00)
    as (b0 & io0 & Hbest & Hwf0 & Hids0 & Hinc0 & Eid0 & Eq0 & Ef0 & Hl0 & Ho0 & He00).
  rewrite Hpr00 in Hinc0.
  set (pr := taken_price side ty price b) in *.
  assert (He0 : OrderBook.events b0 = OrderBook.events b)
    by (rewrite He00; subst b00; destruct b; reflexivity).
  destruct (@match_loop_wf T (n + 1) side pr ty a (potential side b0 io0) Q b0 io0)
    as (b1 & Q1 & io1 & Hloop & Hids1 & Hwf1 & Hinc1 & Eid & Eq & Hown & HQs & HQo
        & _ & Hexit & evs & Hev & Hfair); [lia|exact Hwf0|exact Hids0|lia|exact Hinc0|].
  specialize (Hexit eq_refl).
  assert (Hrun : forall fuel, (potential side b0 io0 < fuel)%nat ->
            OrderBook.add_order fuel price quantity side ty b
            = let* b2 := OrderBook.rest_or_release (OrderBook.next_order_id b) price side
                           ty a b1 in
              Ok (OrderBook.next_order_id b,
                  OrderBook.notify (StateEvent (OrderBook.get_market_state b2)) b2)).
  { intros fuel Hf. unfold OrderBook.add_order.
    assert (MemoryPool.allocate
              (OrderBook.order_pool_
                 (OrderBook.with_next_id (u64 (OrderBook.next_order_id b + 1)) b))
            = Ok (a, pool)) as -> by (destruct b; exact Halloc).
    cbn [rbind].
    change (OrderBook.with_orders _ _) with b00.
    rewrite Hbest. cbn [rbind].
    unfold OrderBook.match_order.
    destruct Hinc0 as (Ha0 & Hs0 & _). rewrite (load_ok _ _ _ Ha0). cbn [rbind].
    rewrite Hs0, (Hloop fuel Hf). reflexivity. }
  assert (Eid1 : Order.id io1 = OrderBook.next_order_id b)
    by (rewrite Eid, Eid0; reflexivity).
  assert (Hord1 : OrderBook.orders_ b1
                  = <[OrderBook.next_order_id b := a]> (OrderBook.orders_ b)).
  { pose proof (match_loop_steps _ _ _ _ _ (Hloop (S (potential side b0 io0)) ltac:(lia)))
      as Hsteps.
    apply book_steps_frame in Hsteps. destruct Hsteps as (-> & _).
    rewrite Ho0. subst b00. destruct b; reflexivity. }
  assert (Hq1' : Order.quantity io1 = quantity) by (rewrite Eq, Eq0; reflexivity).
  assert (HN : (potential side b0 io0
                <= Z.to_nat (resting_count (OrderBook.levels (OrderBook.opposite side) b)) + 1)%nat).
  { unfold potential. rewrite Hl0, Hl00. destruct (Order.is_fully_filled io0); lia. }
  (* the order stays in the index and does not rest *)
  assert (Hstay : forall (Hinc : inc_ok side pr ty b1 a io1),
            (Order.is_fully_filled io1 = false -> ty <> LIMIT) ->
            exists (N : nat) b' Q',
              (forall fuel, (N < fuel)%nat ->
                 OrderBook.add_order fuel price quantity side ty b
                 = Ok (OrderBook.next_order_id b, b')) /\
              (N <= Z.to_nat (resting_count (OrderBook.levels (OrderBook.opposite side) b)) + 1)%nat /\
              wf T Q' None b' /\ ids_below (n + 1) b' /\
              ((exists a o,
                  OrderBook.orders_ b' = <[OrderBook.next_order_id b := a]> (OrderBook.orders_ b) /\
                  OrderBook.cells b' !! a = Some o /\
                  Order.id o = OrderBook.next_order_id b /\
                  Order.price o = pr /\
                  Order.side o = side /\ Order.type o = ty /\ Order.quantity o = quantity /\
                  0 <= Order.filled_quantity o <= quantity /\
                  Order.status o <> CANCELLED /\ Order.status o <> REJECTED) \/
               (ty = IOC \/ ty = FOK) /\ OrderBook.orders_ b' = OrderBook.orders_ b) /\
              exists evs,
                OrderBook.events b'
                = OrderBook.events b ++ evs ++ [StateEvent (OrderBook.get_market_state b')] /\
                Forall (fair_trade side pr) evs).
  { intros (Ha1 & Hs1 & Hpr1 & Hty1 & Hfill1 & Hq1 & Hst1 & Hst2 & Hidx1) Hnl.
    assert (Hrest : OrderBook.rest_or_release (OrderBook.next_order_id b) price side
                      ty a b1 = Ok b1).
    { unfold OrderBook.rest_or_release. rewrite (load_ok _ _ _ Ha1). cbn [rbind].
      assert (OrderStatus_eqb (Order.status io1) CANCELLED = false) as ->
        by (destruct (Order.status io1); try reflexivity; congruence).
      assert (OrderStatus_eqb (Order.status io1) REJECTED = false) as ->
        by (destruct (Order.status io1); try reflexivity; congruence).
      destruct (Order.is_fully_filled io1) eqn:Hfull; cbn [negb andb orb]; [reflexivity|].
      assert (OrderType_eqb ty LIMIT = false) as ->
        by (specialize (Hnl eq_refl); destruct ty; try reflexivity; congruence).
      reflexivity. }
    exists (potential side b0 io0),
      (OrderBook.notify (StateEvent (OrderBook.get_market_state b1)) b1), Q1.
    split; [intros fuel Hf; rewrite (Hrun fuel Hf), Hrest; reflexivity|].
    split; [exact HN|].
    split.
    { apply wf_notify. apply (wf_done Q1 a b1 io1 Hwf1 Ha1); [rewrite Hty1; exact HT|].
      rewrite Hty1. intros Hlim. destruct (Order.is_fully_filled io1); [reflexivity|].
      exfalso. exact (Hnl eq_refl Hlim). }
    split; [eapply ids_below_frame; [| |exact Hids1]; destruct b1; reflexivity|].
    split.
    { left. exists a, io1. split; [rewrite <- Hord1; destruct b1; reflexivity|].
      split; [rewrite cells_notify; exact Ha1|]. rewrite <- Hq1'.
      repeat split; assumption || lia. }
    exists evs. split; [|exact Hfair].
    rewrite market_state_notify, events_notify, Hev, He0, <- app_assoc. reflexivity. }
  destruct Hinc1 as [Hinc1|[_ Hhalt]].
  - pose proof Hinc1 as (Ha1 & Hs1 & Hpr1 & Hty1 & Hfill1 & Hq1 & Hst1 & Hst2 & Hidx1).
    destruct (Order.is_fully_filled io1) eqn:Hfull; [apply (Hstay Hinc1); discriminate|].
    destruct ty; try (apply (Hstay Hinc1); discriminate).
    (* a limit order with quantity left rests *)
    clear Hstay.
    assert (Epr : pr = price) by reflexivity.
    destruct Hexit as [Hx|[Hexit|(Hc & _ & _ & [[_ E]|[_ E]])]];
      [congruence| |congruence|congruence].
    destruct (rest_wf Q1 (n + 1) side pr a b1 io1 Hwf1 Hids1 ltac:(lia) HT Hinc1 Hfull Hexit)
      as (b2 & o & Hrest & Hwf2 & Hord2 & Hev2 & Ha2 & Estrip).
    rewrite Eid1, Epr in Hrest.
    exists (potential side b0 io0),
      (OrderBook.notify (StateEvent (OrderBook.get_market_state b2)) b2),
      (upd Q1 side pr (Q1 side pr ++ [a])).
    split; [intros fuel Hf; rewrite (Hrun fuel Hf), Hrest; reflexivity|].
    split; [exact HN|].
    split; [apply wf_notify; exact Hwf2|].
    split.
    { eapply ids_below_frame; [| |exact Hids1].
      - rewrite <- Hord2. destruct b2; reflexivity.
      - rewrite <- (rest_or_release_next _ _ _ _ _ _ _ Hrest). destruct b2; reflexivity. }
    split.
    { left. exists a, o. split; [rewrite <- Hord1, <- Hord2; destruct b2; reflexivity|].
      split; [rewrite cells_notify; exact Ha2|].
      apply strip_fields in Estrip. destruct Estrip as (Ei & Ep & Eq' & Ef & Es & Et & Est).
      rewrite Ei, Ep, Eq', Ef, Es, Et, Est, <- Hq1'. repeat split; assumption || lia. }
    exists (evs ++ [OrderEvent o]). split.
    + rewrite market_state_notify, events_notify, Hev2, Hev, He0, <- !app_assoc. reflexivity.
    + apply Forall_app. split; [exact Hfair|]. repeat constructor.
  - (* the loop has stopped on an IOC or FOK order: it is released *)
    clear Hstay. destruct Hhalt as (Ha1 & Hnf & Hidx1 & Hst).
    rewrite Eid1 in Hidx1.
    set (b2 := released (OrderBook.next_order_id b) a b1).
    assert (Hrest : OrderBook.rest_or_release (OrderBook.next_order_id b) price side
                      ty a b1 = Ok b2).
    { unfold OrderBook.rest_or_release. rewrite (load_ok _ _ _ Ha1). cbn [rbind].
      rewrite Hnf.
      destruct Hst as [[-> ->]|[-> ->]]; reflexivity. }
    exists (potential side b0 io0),
      (OrderBook.notify (StateEvent (OrderBook.get_market_state b2)) b2), Q1.
    split; [intros fuel Hf; rewrite (Hrun fuel Hf), Hrest; reflexivity|].
    split; [exact HN|].
    split.
    { apply wf_notify.
      apply (release_core Q1 (OrderBook.next_order_id b) a b1 b2 io1 Hwf1 Hidx1 Ha1);
        try (subst b2; destruct b1; reflexivity).
      all: intros []; subst b2; destruct b1; reflexivity. }
    assert (Hord2 : OrderBook.orders_ b2 = OrderBook.orders_ b).
    { transitivity (delete (OrderBook.next_order_id b) (OrderBook.orders_ b1));
        [subst b2; destruct b1; reflexivity|].
      rewrite Hord1, delete_insert_eq. apply delete_id. exact Hfresh. }
    split.
    { destruct Hids1 as [Hb1 Hidx1']. unfold ids_below.
      assert (OrderBook.next_order_id
                (OrderBook.notify (StateEvent (OrderBook.get_market_state b2)) b2)
              = OrderBook.next_order_id b1) as -> by (subst b2; destruct b1; reflexivity).
      assert (OrderBook.orders_
                (OrderBook.notify (StateEvent (OrderBook.get_market_state b2)) b2)
              = delete (OrderBook.next_order_id b) (OrderBook.orders_ b1)) as ->
        by (subst b2; destruct b1; reflexivity).
      split; [exact Hb1|]. intros j [x Hj]. apply Hidx1'.
      apply lookup_delete_Some in Hj. destruct Hj as [_ Hj]. eauto. }
    split.
    { right. split; [destruct Hst as [[-> _]|[-> _]]; auto|].
      rewrite <- Hord2. destruct b2; reflexivity. }
    exists evs. split; [|exact Hfair].
    rewrite market_state_notify, events_notify.
    assert (OrderBook.events b2 = OrderBook.events b1) as ->
      by (subst b2; destruct b1; reflexivity).
    rewrite Hev, He0, <- app_assoc. reflexivity.
Qed.

(** A resting order leaves its queue (the first part of [cancel_order]). *)
Lemma unqueue_wf {T} Q n a b o :
  wf T Q None b -> ids_below n b -> 1 + n <= 2 ^ 32 ->
  OrderBook.cells b !! a = Some o ->
  In a (Q (Order.side o) (Order.price o)) ->
  let s := Order.side o in
  let k := Order.price o in
  exists b2,
    (let b := OrderBook.get_or_create_level k s b in
     let* b := OrderBook.on_level k s (PriceLevel.remove_order a) b in
     let* o := load (OrderBook.cells b) a in
     Ok (OrderBook.remove_level_if_empty (Order.price o) (Order.side o) b)) = Ok b2 /\
    wf T (upd Q s k (remove_first a (Q s k))) (Some a) b2 /\
    OrderBook.cells b2 !! a = Some (strip o) /\
    OrderBook.orders_ b2 = OrderBook.orders_ b /\
    OrderBook.next_order_id b2 = OrderBook.next_order_id b /\
    OrderBook.events b2 = OrderBook.events b.
Proof.
  intros Hwf Hids Hn Ha Hin s k.
  destruct (wf_queue_level _ _ _ _ Hwf _ _ ltac:(intros E; rewrite E in Hin; destruct Hin))
    as (l & Hfind & Hinv).
  fold s k in Hfind, Hinv, Hin.
  pose proof (wf_count _ _ _ _ Hwf n _ _ _ Hids Hn Hfind) as (Hcnt & Hcnt').
  rewrite (get_or_create_level_present k s b l Hfind). cbv zeta.
  destruct (remove_order_full (OrderBook.cells b) l (Q s k) a o Hinv Hin Ha)
    as (l' & m' & Hrun & Hinv' & Hprice' & Hc' & Hm'a & Hstrip & Hframe).
  rewrite (on_level_run k s _ b l l' m' Hfind Hrun). cbn [rbind].
  rewrite cells_with_cells, (load_ok _ _ _ Hm'a). cbn [rbind].
  change (Order.price (strip o)) with k. change (Order.side (strip o)) with s.
  set (lv := OrderBook.levels s b) in *.
  set (b1 := OrderBook.with_cells m' (OrderBook.with_levels s (LevelMap.set k l' lv) b)).
  assert (Hl1 : OrderBook.levels s b1 = LevelMap.set k l' lv)
    by (subst b1; rewrite levels_with_cells, levels_with_levels; reflexivity).
  unfold OrderBook.remove_level_if_empty. rewrite Hl1, find_set, Z.eqb_refl.
  subst lv. rewrite Hfind. rewrite erase_set.
  set (os := OrderBook.opposite s).
  set (lv' := if PriceLevel.is_empty l'
              then LevelMap.erase k (OrderBook.levels s b)
              else LevelMap.set k l' (OrderBook.levels s b)).
  set (b2 := if PriceLevel.is_empty l'
             then OrderBook.with_levels s (LevelMap.erase k (OrderBook.levels s b)) b1
             else b1).
  assert (Hl2 : OrderBook.levels s b2 = lv').
  { subst b2 lv'. destruct (PriceLevel.is_empty l');
      [apply levels_with_levels|exact Hl1]. }
  assert (Hopp2 : OrderBook.levels os b2 = OrderBook.levels os b).
  { subst b2 os. destruct (PriceLevel.is_empty l');
      rewrite ?levels_opposite_with_levels; subst b1;
      rewrite levels_with_cells, levels_opposite_with_levels; reflexivity. }
  assert (Hc2 : OrderBook.cells b2 = m').
  { subst b2. destruct (PriceLevel.is_empty l'); rewrite ?cells_with_levels;
      subst b1; apply cells_with_cells. }
  assert (Ho2 : OrderBook.orders_ b2 = OrderBook.orders_ b).
  { subst b2 b1. destruct (PriceLevel.is_empty l'), s, b; reflexivity. }
  assert (Hp2 : OrderBook.order_pool_ b2 = OrderBook.order_pool_ b).
  { subst b2 b1. destruct (PriceLevel.is_empty l'), s, b; reflexivity. }
  assert (Hn2 : OrderBook.next_order_id b2 = OrderBook.next_order_id b).
  { subst b2 b1. destruct (PriceLevel.is_empty l'), s, b; reflexivity. }
  assert (He2 : OrderBook.events b2 = OrderBook.events b).
  { subst b2 b1. destruct (PriceLevel.is_empty l'), s, b; reflexivity. }
  exists b2. split; [subst b2; destruct (PriceLevel.is_empty l'); reflexivity|].
  split; [|rewrite Hc2; auto].
  clearbody b2. clear Hl1 b1.
  pose proof (proj1 (sides_sorted_levels b) (wf_sorted _ _ _ _ Hwf) s) as Hsorted.
  set (q := Q s k) in *. set (q' := remove_first a q) in *.
  pose proof (wf_NoDup _ _ _ _ Hwf s k) as Hnd. fold q in Hnd.
  assert (Hlen : (length q = S (length q'))%nat).
  { subst q'. destruct (in_split_first _ _ Hin) as (q1 & q2 & E & Hq1). rewrite E.
    rewrite (remove_first_split _ _ _ Hq1), !length_app. cbn [length]. lia. }
  rewrite u32_small in Hc' by lia.
  assert (Hemp : PriceLevel.is_empty l' = true <-> q' = []).
  { unfold PriceLevel.is_empty. rewrite Hc', Hcnt, Hlen. rewrite Z.eqb_eq.
    destruct q'; cbn [length]; split; intros H; try reflexivity; try discriminate; lia. }
  set (Q' := upd Q s k q').
  assert (HQ'sub : forall s' k' x, In x (Q' s' k') -> In x (Q s' k')).
  { intros s' k' x. subst Q'.
    destruct (upd_cases Q s k q' s' k') as [(-> & -> & ->)|(_ & ->)]; [|tauto].
    apply remove_first_sub. }
  assert (Hsame : forall s' k' x, In x (Q s' k') -> (s' <> s \/ k' <> k) ->
                                  m' !! x = OrderBook.cells b !! x).
  { intros s' k' x Hx Hsk. apply Hframe. intros Hx'.
    destruct (wf_disjoint _ _ _ _ Hwf _ _ _ _ _ Hx Hx') as [-> ->]. destruct Hsk; congruence. }
  assert (Hstrip' : forall x, strip <$> m' !! x = strip <$> OrderBook.cells b !! x).
  { intros x. destruct (N.eq_dec x a) as [->|Hxa]; [|apply Hstrip; exact Hxa].
    rewrite Hm'a, Ha. destruct o; reflexivity. }
  split.
  - eapply (sides_sorted_put s); [exact (wf_sorted _ _ _ _ Hwf)| |exact Hl2|exact Hopp2].
    subst lv'. destruct (PriceLevel.is_empty l').
    + apply side_sorted_erase. exact Hsorted.
    + eapply side_sorted_set; eauto.
  - intros s' k'. rewrite Hc2.
    destruct (side_cases s' s) as [->|Hs'].
    + rewrite Hl2. destruct (Z.eq_dec k' k) as [->|Hk'].
      * subst Q' lv'. rewrite upd_same. destruct (PriceLevel.is_empty l') eqn:E.
        -- rewrite (find_erase s) by exact Hsorted. rewrite Z.eqb_refl.
           apply Hemp. reflexivity.
        -- rewrite find_set, Z.eqb_refl, Hfind. split; [exact Hinv'|].
           intros Hq'. apply Hemp in Hq'. congruence.
      * subst Q'. rewrite upd_other by auto.
        assert (LevelMap.find k' lv' = LevelMap.find k' (OrderBook.levels s b)) as ->.
        { subst lv'. destruct (PriceLevel.is_empty l').
          - rewrite (find_erase s) by exact Hsorted.
            destruct (Z.eqb_spec k' k); [contradiction|reflexivity].
          - rewrite find_set. destruct (Z.eqb_spec k' k); [contradiction|reflexivity]. }
        pose proof (wf_level _ _ _ _ Hwf s k') as H.
        destruct (LevelMap.find k' (OrderBook.levels s b)) as [l0|]; [|exact H].
        destruct H as [H1 H2]. split; [|exact H2].
        eapply level_inv_ext; [exact H1|]. intros x Hx. eapply Hsame; eauto.
    + assert (s' = os) as -> by (subst os; destruct s, s'; cbn in *; congruence).
      rewrite Hopp2. subst Q'. rewrite upd_other by auto.
      pose proof (wf_level _ _ _ _ Hwf os k') as H.
      destruct (LevelMap.find k' (OrderBook.levels os b)) as [l0|]; [|exact H].
      destruct H as [H1 H2]. split; [|exact H2].
      eapply level_inv_ext; [exact H1|]. intros x Hx. eapply Hsame; eauto.
  - intros s' k' x Hx. unfold resting_ok. rewrite Hc2, Ho2.
    pose proof (HQ'sub _ _ _ Hx) as Hx0.
    destruct (wf_resting _ _ _ _ Hwf _ _ _ Hx0) as (_ & ox & Hox & Hop & Hos & Hof & Hoq & Hoi).
    split.
    + intros [= ->]. subst Q'.
      destruct (wf_disjoint _ _ _ _ Hwf _ _ _ _ _ Hx0 Hin) as [-> ->].
      rewrite upd_same in Hx. subst q'. exact (remove_first_gone _ _ Hnd Hx).
    + destruct (strip_lookup _ _ _ _ (Hstrip' x) Hox) as (o' & Ho' & Eo).
      apply strip_fields in Eo. destruct Eo as (Ei' & Ep' & Eq' & Ef' & Es' & Et' & _).
      exists o'. rewrite Ei', Ep', Eq', Ef', Es'. repeat split; try assumption; lia.
  - intros i x Hi. rewrite Ho2 in Hi. rewrite Hc2.
    destruct (wf_index _ _ _ _ Hwf _ _ Hi) as (ox & Hox & Hoid & Hoty & Hoq).
    destruct (strip_lookup _ _ _ _ (Hstrip' x) Hox) as (o' & Ho' & Eo).
    pose proof (strip_full _ _ Eo) as Efull.
    apply strip_fields in Eo. destruct Eo as (Ei' & Ep' & Eq' & Ef' & Es' & Et' & _).
    exists o'. split; [exact Ho'|]. split; [congruence|]. split.
    { destruct Hoty as [E|Hoty]; [discriminate|]. right. rewrite Et'. exact Hoty. }
    rewrite Efull, Es', Ep', Et'. intros Hlim Hnf'.
    destruct (Hoq Hlim Hnf') as [E|Hx]; [discriminate|].
    destruct (N.eq_dec x a) as [->|Hxa]; [left; reflexivity|right].
    subst Q'.
    destruct (upd_cases Q s k q' (Order.side ox) (Order.price ox))
      as [(E1 & E2 & ->)|(_ & ->)]; [|exact Hx].
    rewrite E1, E2 in Hx. subst q'. apply remove_first_keeps; assumption.
  - destruct (wf_pool _ _ _ _ Hwf) as (Hsz & Hok & Hfree).
    unfold pool_sound. rewrite Hp2, Hc2. split; [exact Hsz|]. split; [exact Hok|].
    intros x Hx. pose proof (Hfree x Hx) as Hnone.
    pose proof (Hstrip' x) as E. rewrite Hnone in E.
    destruct (m' !! x); [discriminate|reflexivity].
  - intros kb ka Hb Hka. apply (wf_uncrossed _ _ _ _ Hwf).
    + destruct (Q' BUY kb) as [|x r] eqn:E; [contradiction|].
      assert (In x (Q BUY kb)) as Hx by (apply HQ'sub; rewrite E; left; reflexivity).
      intros E0. rewrite E0 in Hx. destruct Hx.
    + destruct (Q' SELL ka) as [|x r] eqn:E; [contradiction|].
      assert (In x (Q SELL ka)) as Hx by (apply HQ'sub; rewrite E; left; reflexivity).
      intros E0. rewrite E0 in Hx. destruct Hx.
  - intros i x o' Hi Ho'. rewrite Ho2 in Hi. rewrite Hc2 in Ho'.
    destruct (wf_index _ _ _ _ Hwf _ _ Hi) as (ox & Hox & _).
    destruct (strip_lookup _ _ _ _ (Hstrip' x) Hox) as (o'' & Ho'' & Eo).
    rewrite Ho' in Ho''. injection Ho'' as <-.
    apply strip_fields in Eo. destruct Eo as (_ & _ & Eq' & Ef' & _).
    rewrite Eq', Ef'. exact (wf_filled _ _ _ _ Hwf _ _ _ Hi Hox).
Qed.

(** A filled order is in no queue: it can be singled out. *)
Lemma wf_single {T} Q a b o :
  wf T Q None b -> OrderBook.cells b !! a = Some o ->
  Order.is_fully_filled o = true -> wf T Q (Some a) b.
Proof.
  intros Hwf Ha Hfull. split.
  - exact (wf_sorted _ _ _ _ Hwf).
  - exact (wf_level _ _ _ _ Hwf).
  - intros s k x Hx. destruct (wf_resting _ _ _ _ Hwf _ _ _ Hx) as (_ & H).
    split; [|exact H]. intros [= ->].
    destruct H as (o' & Ho' & _ & _ & Hf & _). rewrite Ha in Ho'. injection Ho' as <-.
    unfold Order.is_fully_filled in Hfull. apply Z.leb_le in Hfull. lia.
  - intros i x Hi. destruct (wf_index _ _ _ _ Hwf _ _ Hi) as (ox & Hox & Hid & Hty & Hq).
    exists ox. split; [exact Hox|]. split; [exact Hid|]. split.
    { destruct Hty as [E|Hty]; [discriminate|right; exact Hty]. }
    intros Hlim Hnf. destruct (Hq Hlim Hnf) as [E|Hin]; [discriminate|right; exact Hin].
  - exact (wf_pool _ _ _ _ Hwf).
  - exact (wf_uncrossed _ _ _ _ Hwf).
  - exact (wf_filled _ _ _ _ Hwf).
Qed.

(** The order that was singled out leaves the index and its cell returns
    to the pool (the last part of [cancel_order]). *)
Lemma release_wf {T} Q i a b o e :
  wf T Q (Some a) b -> OrderBook.orders_ b !! i = Some a ->
  OrderBook.cells b !! a = Some o ->
  wf T Q None
    (released i a
       (OrderBook.notify e
          (OrderBook.with_cells (<[a := Order.with_status CANCELLED o]> (OrderBook.cells b))
             b))).
Proof.
  intros Hwf Hi Ha.
  apply (release_core Q i a b _ o Hwf Hi Ha).
  - destruct b; cbn. apply delete_insert_eq.
  - destruct b; reflexivity.
  - destruct b; reflexivity.
  - intros []; destruct b; reflexivity.
Qed.

(** [cancel_order] on a well-formed book, of an order that is a limit order
    or is filled, or of an id that is not in the index. *)
Lemma cancel_order_wf {T} Q n i b :
  wf T Q None b -> ids_below n b -> 1 + n <= 2 ^ 32 -> rests_or_filled i b ->
  exists r b' Q',
    OrderBook.cancel_order i b = Ok (r, b') /\ wf T Q' None b' /\ ids_below n b'.
Proof.
  intros Hwf Hids Hn Hsafe. unfold OrderBook.cancel_order.
  destruct (OrderBook.orders_ b !! i) as [a|] eqn:Hi.
  2: { exists false, b, Q. split; [reflexivity|]. split; assumption. }
  destruct (wf_index _ _ _ _ Hwf _ _ Hi) as (o & Ha & Hid & Hty & Hq).
  rewrite (load_ok _ _ _ Ha). cbn [rbind].
  assert (Hidsfinal : forall b2 e o2,
            OrderBook.orders_ b2 = OrderBook.orders_ b ->
            OrderBook.next_order_id b2 = OrderBook.next_order_id b ->
            ids_below n
              (released i a
                 (OrderBook.notify e
                    (OrderBook.with_cells
                       (<[a := Order.with_status CANCELLED o2]> (OrderBook.cells b2)) b2)))).
  { intros b2 e o2 Eo En. set (bf := released _ _ _).
    assert (Enf : OrderBook.next_order_id bf = OrderBook.next_order_id b)
      by (subst bf; rewrite <- En; destruct b2; reflexivity).
    assert (Eof : OrderBook.orders_ bf = delete i (OrderBook.orders_ b))
      by (subst bf; rewrite <- Eo; destruct b2; reflexivity).
    clearbody bf. destruct Hids as [Hn12 Hidx]. unfold ids_below. rewrite Enf, Eof.
    split; [exact Hn12|]. intros j [x Hx]. apply Hidx.
    apply lookup_delete_Some in Hx. destruct Hx as [_ Hx]. eauto. }
  destruct (Order.is_fully_filled o) eqn:Hfull; cbn [negb].
  - cbn [rbind]. unfold set_status. rewrite (store_ok _ _ _ _ Ha). cbn [rbind].
    rewrite cells_with_cells, (load_ok _ _ (Order.with_status CANCELLED o))
      by apply lookup_insert_eq.
    cbn [rbind]. eexists true, _, Q. split; [reflexivity|]. split.
    + apply release_wf; [eapply wf_single; eauto|exact Hi|exact Ha].
    + apply Hidsfinal; reflexivity.
  - destruct (Hsafe _ _ Hi Ha) as [Hlim|Hf]; [|congruence].
    destruct (Hq Hlim eq_refl) as [E|Hin]; [discriminate|].
    pose proof (unqueue_wf Q n a b o Hwf Hids Hn Ha Hin) as H. cbv zeta in H.
    destruct H as (b2 & Hrun & Hwf2 & Ha2 & Ho2 & Hn2 & He2).
    cbv zeta in Hrun. rewrite Hrun. cbn [rbind].
    unfold set_status. rewrite (store_ok _ _ _ _ Ha2). cbn [rbind].
    rewrite cells_with_cells, (load_ok _ _ (Order.with_status CANCELLED (strip o)))
      by apply lookup_insert_eq.
    cbn [rbind]. eexists true, _, _. split; [reflexivity|]. split.
    + apply release_wf; [exact Hwf2|rewrite Ho2; exact Hi|exact Ha2].
    + apply Hidsfinal; assumption.
Qed.

(** *** More fuel, the same result *)

Lemma match_loop_mono s a : forall fuel fuel' b x,
  OrderBook.match_loop fuel s a b = Ok x -> (fuel <= fuel')%nat ->
  OrderBook.match_loop fuel' s a b = Ok x.
Proof.
  induction fuel as [|fuel IH]; intros fuel' b x H Hle; cbn [OrderBook.match_loop] in H;
    [discriminate|].
  destruct fuel' as [|fuel']; [lia|]. cbn [OrderBook.match_loop].
  res_inv H as r Hr. rewrite Hr. cbn [rbind]. destruct r as [again b1].
  destruct again; [|exact H]. apply IH with (fuel' := fuel') in H; [exact H|lia].
Qed.

Lemma add_order_mono fuel fuel' p q s ty b x :
  OrderBook.add_order fuel p q s ty b = Ok x -> (fuel <= fuel')%nat ->
  OrderBook.add_order fuel' p q s ty b = Ok x.
Proof.
  unfold OrderBook.add_order. intros H Hle.
  res_inv H as ap Hap. rewrite Hap. cbn [rbind]. destruct ap as [a pool].
  res_inv H as b1 Hb1. rewrite Hb1. cbn [rbind].
  res_inv H as b2 Hb2.
  assert (OrderBook.match_order fuel' a b1 = Ok b2) as ->; [|exact H].
  unfold OrderBook.match_order in *. res_inv Hb2 as o Ho. rewrite Ho. cbn [rbind].
  eapply match_loop_mono; eauto.
Qed.

Lemma step_mono fuel fuel' op b x :
  step fuel op b = Ok x -> (fuel <= fuel')%nat -> step fuel' op b = Ok x.
Proof.
  destruct op as [p q s ty|i|i p q]; cbn [step]; intros H Hle.
  - res_inv H as r Hr. rewrite (add_order_mono _ _ _ _ _ _ _ _ Hr Hle). exact H.
  - exact H.
  - res_inv H as r Hr.
    assert (OrderBook.modify_order fuel' i p q b = Ok r) as ->; [|exact H].
    unfold OrderBook.modify_order in *.
    destruct (OrderBook.orders_ b !! i); [|exact Hr].
    res_inv Hr as o Ho. rewrite Ho. cbn [rbind].
    res_inv Hr as c Hc. rewrite Hc. cbn [rbind]. destruct c as [rc b1].
    res_inv Hr as d Hd. rewrite (add_order_mono _ _ _ _ _ _ _ _ Hd Hle). exact Hr.
Qed.

Lemma run_mono fuel fuel' ops : forall b x,
  run fuel ops b = Ok x -> (fuel <= fuel')%nat -> run fuel' ops b = Ok x.
Proof.
  induction ops as [|op ops IH]; intros b x H Hle; cbn [run] in *; [exact H|].
  res_inv H as b1 Hb1. rewrite (step_mono _ _ _ _ _ Hb1 Hle). cbn [rbind]. eauto.
Qed.

(** *** Sessions of limit orders *)

Lemma wf_new {T} : wf T (fun _ _ => []) None OrderBook.new.
Proof.
  split.
  - split; exact I.
  - intros [] k; reflexivity.
  - intros s k a [].
  - intros i a H. cbn in H. rewrite lookup_empty in H. discriminate.
  - split; [|split].
    + change (OrderBook.order_pool_ OrderBook.new) with (MemoryPool.new 4096 10).
      rewrite block_size_new. discriminate.
    + apply pool_new_ok.
    + intros x _. apply lookup_empty.
  - intros kb ka H. contradiction.
  - intros i a o H. cbn in H. rewrite lookup_empty in H. discriminate.
Qed.

Lemma ids_below_new : ids_below 0 OrderBook.new.
Proof.
  split; [cbn; lia|]. intros j [x H]. cbn in H. rewrite lookup_empty in H. discriminate.
Qed.

Lemma wf_any {T} Q inc b : wf T Q inc b -> wf any_type Q inc b.
Proof.
  intros Hwf. split; try apply Hwf.
  intros i a Hi. destruct (wf_index _ _ _ _ Hwf _ _ Hi) as (o & Ho & Hid & _ & Hq).
  exists o. split; [exact Ho|]. split; [exact Hid|]. split; [right; exact I|exact Hq].
Qed.

Lemma limit_only_cancellable Q b i : wf limit_only Q None b -> rests_or_filled i b.
Proof.
  intros Hwf a o Hi Ha.
  destruct (wf_index _ _ _ _ Hwf _ _ Hi) as (o' & Ho' & _ & [E|Hty] & _); [discriminate|].
  left. unfold limit_only in Hty. congruence.
Qed.

Lemma run_wf ops : forall Q n b,
  Forall limit_op ops ->
  wf limit_only Q None b -> ids_below n b -> 0 <= n ->
  n + Z.of_nat (length ops) + 1 <= 2 ^ 32 ->
  exists (N : nat) b' Q',
    (forall fuel, (N < fuel)%nat -> run fuel ops b = Ok b') /\
    wf limit_only Q' None b' /\ ids_below (n + Z.of_nat (length ops)) b'.
Proof.
  induction ops as [|op ops IH]; intros Q n b Hops Hwf Hids Hn0 Hn.
  - exists O, b, Q. split; [reflexivity|]. split; [exact Hwf|].
    cbn [length]. replace (n + Z.of_nat 0) with n by lia. exact Hids.
  - inversion Hops as [|? ? Hop Hrest]; subst. cbn [length] in Hn.
    assert (Hone : exists (N1 : nat) b1 Q1,
               (forall fuel, (N1 < fuel)%nat -> step fuel op b = Ok b1) /\
               wf limit_only Q1 None b1 /\ ids_below (n + 1) b1).
    { destruct op as [p q s ty|i|i p q]; cbn [limit_op step] in *.
      - destruct Hop as [-> Hq].
        destruct (add_order_wf Q n p q s LIMIT b Hwf Hids ltac:(lia) Hq eq_refl)
          as (N1 & b1 & Q1 & Hrun & _ & Hwf1 & Hids1 & _).
        exists N1, b1, Q1. split; [|split; assumption].
        intros fuel Hf. rewrite (Hrun fuel Hf). reflexivity.
      - destruct (cancel_order_wf Q n i b Hwf Hids ltac:(lia)
                    (limit_only_cancellable Q b i Hwf))
          as (r & b1 & Q1 & Hrun & Hwf1 & Hids1).
        exists O, b1, Q1. split; [intros fuel _; rewrite Hrun; reflexivity|].
        split; [exact Hwf1|]. eapply ids_below_mono; [|exact Hids1]. lia.
      - unfold OrderBook.modify_order.
        destruct (OrderBook.orders_ b !! i) as [a|] eqn:Hi.
        + destruct (wf_index _ _ _ _ Hwf _ _ Hi) as (o & Ha & _ & [E|Hty] & _);
            [discriminate|].
          rewrite (load_ok _ _ _ Ha). cbn [rbind]. rewrite Hty.
          destruct (cancel_order_wf Q n i b Hwf Hids ltac:(lia)
                      (limit_only_cancellable Q b i Hwf))
            as (r & b1 & Q1 & Hrun & Hwf1 & Hids1).
          rewrite Hrun. cbn [rbind].
          destruct (add_order_wf Q1 n p q (Order.side o) LIMIT b1 Hwf1 Hids1 ltac:(lia) Hop
                      eq_refl)
            as (N2 & b2 & Q2 & Hrun2 & _ & Hwf2 & Hids2 & _).
          exists N2, b2, Q2. split; [|split; assumption].
          intros fuel Hf. rewrite (Hrun2 fuel Hf). reflexivity.
        + exists O, b, Q. split; [reflexivity|]. split; [exact Hwf|].
          eapply ids_below_mono; [|exact Hids]. lia. }
    destruct Hone as (N1 & b1 & Q1 & Hrun1 & Hwf1 & Hids1).
    destruct (IH Q1 (n + 1) b1 Hrest Hwf1 Hids1 ltac:(lia) ltac:(lia))
      as (N2 & b2 & Q2 & Hrun2 & Hwf2 & Hids2).
    exists (N1 + N2)%nat, b2, Q2. split; [|split; [exact Hwf2|]].
    + intros fuel Hf. cbn [run]. rewrite (Hrun1 fuel) by lia. cbn [rbind].
      apply Hrun2. lia.
    + cbn [length]. replace (n + Z.of_nat (S (length ops))) with (n + 1 + Z.of_nat (length ops)) by lia.
      exact Hids2.
Qed.

Lemma run_limit_wf fuel ops b :
  Forall limit_op ops -> Z.of_nat (length ops) < 2 ^ 32 ->
  run fuel ops OrderBook.new = Ok b ->
  exists Q, wf limit_only Q None b /\ ids_below (Z.of_nat (length ops)) b.
Proof.
  intros Hops Hlen Hrun.
  destruct (run_wf ops _ 0 OrderBook.new Hops wf_new ids_below_new ltac:(lia) ltac:(lia))
    as (N & b' & Q & Hrun' & Hwf & Hids).
  exists Q.
  assert (b' = b) as <-; [|split; assumption].
  pose proof (run_mono fuel (Nat.max fuel (S N)) ops _ _ Hrun ltac:(lia)) as H1.
  rewrite (Hrun' (Nat.max fuel (S N))) in H1 by lia. congruence.
Qed.

(** X11.  a session of fewer than 2^32 calls in which every order is a limit
    order with a quantity of 64 bits never dereferences a null or dangling
    pointer, and its matching loops end: with enough fuel the session
    returns.  The book it returns is well formed as [wf] has it: its sides
    are sorted and do not cross; every level is a non-empty, doubly linked
    queue whose aggregate is the sum of the quantities left of its orders
    modulo 2^64 and whose counter is their number modulo 2^32; the index
    holds limit orders only, each in its cell, and those with quantity left
    are in the queue of their side and price; no cell in use is free. *)
Theorem limit_sessions_return (ops : list Op) :
  Forall limit_op ops -> Z.of_nat (length ops) < 2 ^ 32 ->
  exists (N : nat) b Q,
    (forall fuel, (N < fuel)%nat -> run fuel ops OrderBook.new = Ok b) /\
    wf limit_only Q None b.
Proof.
  intros Hops Hlen.
  destruct (run_wf ops _ 0 OrderBook.new Hops wf_new ids_below_new ltac:(lia) ltac:(lia))
    as (N & b & Q & Hrun & Hwf & _).
  exists N, b, Q. split; assumption.
Qed.

Lemma wf_best {T} Q inc b s best :
  wf T Q inc b ->
  match s with BUY => OrderBook.get_best_bid b | SELL => OrderBook.get_best_ask b end
  = Some best ->
  Q s best <> [].
Proof.
  intros Hwf H.
  assert (exists l rest, OrderBook.levels s b = (best, l) :: rest) as (l & rest & E).
  { destruct s; cbn [OrderBook.levels];
      unfold OrderBook.get_best_bid, OrderBook.get_best_ask in H;
      [destruct (OrderBook.bid_levels_ b) as [|[k l] rest]
      |destruct (OrderBook.ask_levels_ b) as [|[k l] rest]];
      try discriminate; injection H as ->; eauto. }
  pose proof (wf_level _ _ _ _ Hwf s best) as Hl. rewrite E, find_head in Hl. apply Hl.
Qed.

(** X12.  a session of limit orders never leaves a crossed book: where both
    sides have a level, the best bid is below the best ask. *)
Theorem limit_sessions_uncrossed (fuel : nat) (ops : list Op) (b : OrderBook.t)
    (bid ask : Z) :
  Forall limit_op ops -> Z.of_nat (length ops) < 2 ^ 32 ->
  run fuel ops OrderBook.new = Ok b ->
  OrderBook.get_best_bid b = Some bid ->
  OrderBook.get_best_ask b = Some ask ->
  bid < ask.
Proof.
  intros Hops Hlen Hrun Hbid Hask.
  destruct (run_limit_wf fuel ops b Hops Hlen Hrun) as (Q & Hwf & _).
  apply (wf_uncrossed _ _ _ _ Hwf).
  - exact (wf_best Q None b BUY bid Hwf Hbid).
  - exact (wf_best Q None b SELL ask Hwf Hask).
Qed.


Lemma wf_live Q b s pr x :
  wf limit_only Q None b -> (In x (Q s pr) <-> live_at b s pr x).
Proof.
  intros Hwf. split.
  - intros Hx. destruct (wf_resting _ _ _ _ Hwf _ _ _ Hx) as (_ & o & Ho & Hp & Hs & Hf & _ & Hi).
    exists o. repeat split; try assumption.
    unfold Order.is_fully_filled. apply Z.leb_gt. lia.
  - intros (o & Ho & Hi & Hs & Hp & Hnf).
    destruct (wf_index _ _ _ _ Hwf _ _ Hi) as (o' & Ho' & _ & [E|Hty] & Hq);
      [discriminate|].
    rewrite Ho in Ho'. injection Ho' as <-.
    destruct (Hq Hty Hnf) as [E|Hin]; [discriminate|]. rewrite Hs, Hp in Hin. exact Hin.
Qed.

(** X13.  after a session of limit orders, the volume at a price is the sum,
    modulo 2^64, of the quantities left of the orders of that side and
    price that are in the index and not filled; the level at the price
    links exactly these orders, each once. *)
Theorem limit_sessions_volume (fuel : nat) (ops : list Op) (b : OrderBook.t)
    (s : Side) (pr : Z) :
  Forall limit_op ops -> Z.of_nat (length ops) < 2 ^ 32 ->
  run fuel ops OrderBook.new = Ok b ->
  exists q,
    NoDup q /\ (forall x, In x q <-> live_at b s pr x) /\
    OrderBook.get_volume_at_price pr s b = u64 (sum_remaining (OrderBook.cells b) q) /\
    (q = [] <-> LevelMap.find pr (OrderBook.levels s b) = None).
Proof.
  intros Hops Hlen Hrun.
  destruct (run_limit_wf fuel ops b Hops Hlen Hrun) as (Q & Hwf & _).
  exists (Q s pr). split; [exact (wf_NoDup _ _ _ _ Hwf s pr)|].
  split; [intros x; apply wf_live; exact Hwf|].
  unfold OrderBook.get_volume_at_price.
  pose proof (wf_level _ _ _ _ Hwf s pr) as Hl.
  destruct (LevelMap.find pr (OrderBook.levels s b)) as [l|].
  - destruct Hl as [(_ & _ & Htot & _) Hne]. split; [exact Htot|].
    split; [contradiction|discriminate].
  - rewrite Hl. split; [reflexivity|]. split; reflexivity.
Qed.

(** *** Single calls on a well-formed book *)

(** X15.  Take a book that is well formed as [wf] has it (sides sorted and
    not crossed; every level a non-empty doubly linked queue with its
    aggregate and counter equal to the sum and number of its orders modulo
    2^64 and 2^32; every order of the index in its cell, of a type that [T]
    admits, and queued if it is a limit order with quantity left; no cell in
    use free), in which every id of the index is at least 1 and below the id
    counter, and the counter is at most [n + 1] with [n + 2 <= 2^32].  On
    such a book a limit order with a quantity of 64 bits is taken: with
    more fuel than the number of orders resting on the opposite side plus
    one, [add_order] returns the value of the counter; the book it leaves
    is well formed again, with its ids below the counter, now at most
    [n + 2]; and every trade the call reports has a quantity above zero
    and a price within the limit of the order (at most its price for a buy,
    at least its price for a sell). *)
Theorem limit_order_on_wf_book (T : OrderType -> Prop) (Q : queues) (n price quantity : Z)
    (side : Side) (b : OrderBook.t) :
  T LIMIT -> wf T Q None b -> ids_below n b -> 2 + n <= 2 ^ 32 -> in_u64 quantity ->
  exists b' Q',
    (forall fuel,
       (Z.to_nat (resting_count (OrderBook.levels (OrderBook.opposite side) b)) + 1
        < fuel)%nat ->
       OrderBook.add_order fuel price quantity side LIMIT b
       = Ok (OrderBook.next_order_id b, b')) /\
    wf T Q' None b' /\ ids_below (n + 1) b' /\
    exists evs,
      OrderBook.events b'
      = OrderBook.events b ++ evs ++ [StateEvent (OrderBook.get_market_state b')] /\
      Forall (fair_trade side price) evs.
Proof.
  intros HT Hwf Hids Hn Hq.
  destruct (add_order_wf Q n price quantity side LIMIT b Hwf Hids Hn Hq HT)
    as (N & b' & Q' & Hrun & HN & Hwf' & Hids' & _ & Hev).
  exists b', Q'. split; [|split; [exact Hwf'|split; [exact Hids'|exact Hev]]].
  intros fuel Hf. apply Hrun. lia.
Qed.

(** X16.  Take a book that is well formed as [wf] has it, for any policy
    [T] on the order types of its index, in
    which every id of the index is at least 1 and below the id counter, and
    the counter is at most [n + 1] with [n + 1 <= 2^32]; and an id under
    which the index holds no order of another type than limit with quantity
    left ([rests_or_filled]).  Then [cancel_order] returns, true exactly
    if the id is in the index, and the book it leaves is well formed again,
    with its ids below the counter. *)
Theorem cancel_on_wf_book (T : OrderType -> Prop) (Q : queues) (n order_id : Z)
    (b : OrderBook.t) :
  wf T Q None b -> ids_below n b -> 1 + n <= 2 ^ 32 -> rests_or_filled order_id b ->
  exists r b' Q',
    OrderBook.cancel_order order_id b = Ok (r, b') /\
    (r = true <-> is_Some (OrderBook.orders_ b !! order_id)) /\
    wf T Q' None b' /\ ids_below n b'.
Proof.
  intros Hwf Hids Hn Hsafe.
  destruct (cancel_order_wf Q n order_id b Hwf Hids Hn Hsafe)
    as (r & b' & Q' & Hrun & Hwf' & Hids').
  exists r, b', Q'. split; [exact Hrun|]. split; [|split; [exact Hwf'|exact Hids']].
  destruct (cancel_order_shape _ _ _ _ Hrun) as [(E & -> & _)|(a & _ & _ & E & -> & _)];
    rewrite E; split; intros H; try reflexivity; try discriminate; eauto.
  destruct H; discriminate.
Qed.

(** X1.  Take a book that is well formed as [wf] has it (its index may
    hold orders of any type), in which every id of the index is at
    least 1 and below the id counter, and the counter is at most [n + 1]
    with [n + 2 <= 2^32].  On such a book [add_order] with a quantity of 64
    bits, for an order of any type and with more fuel than the number of
    orders resting on the opposite side plus one, returns the value of the
    id counter, and the counter is one more after the call; no other entry
    of the index changes.  The new id is in the index, in a cell that holds
    the order with its id, side, type and quantity and with the price it
    was matched at (for a market order the best price of the opposite
    side, if it has one), so that an order that the call fills stays in
    the index, and [get_order_count] is one more; unless the order is IOC
    or FOK and the loop stopped on it, in which case the index is as it
    was before the call. *)
Theorem add_order_index (Q : queues) (n price quantity : Z) (side : Side) (type : OrderType)
    (b : OrderBook.t) :
  wf any_type Q None b -> ids_below n b -> 2 + n <= 2 ^ 32 -> in_u64 quantity ->
  exists b',
    (forall fuel,
       (Z.to_nat (resting_count (OrderBook.levels (OrderBook.opposite side) b)) + 1
        < fuel)%nat ->
       OrderBook.add_order fuel price quantity side type b
       = Ok (OrderBook.next_order_id b, b')) /\
    OrderBook.next_order_id b' = OrderBook.next_order_id b + 1 /\
    (forall j, j <> OrderBook.next_order_id b ->
               OrderBook.orders_ b' !! j = OrderBook.orders_ b !! j) /\
    ((exists a o,
        OrderBook.orders_ b' !! OrderBook.next_order_id b = Some a /\
        OrderBook.cells b' !! a = Some o /\
        Order.id o = OrderBook.next_order_id b /\
        Order.side o = side /\ Order.type o = type /\ Order.quantity o = quantity /\
        Order.price o = taken_price side type price b /\
        OrderBook.get_order_count b' = S (OrderBook.get_order_count b)) \/
     (type = IOC \/ type = FOK) /\
     OrderBook.orders_ b' = OrderBook.orders_ b /\
     OrderBook.orders_ b' !! OrderBook.next_order_id b = None).
Proof.
  intros Hwf Hids Hn Hq.
  destruct (add_order_wf Q n price quantity side type b Hwf Hids Hn Hq I)
    as (N & b' & Q' & Hrun & HN & _ & _ & Hidx & _).
  assert (Hfresh : OrderBook.orders_ b !! OrderBook.next_order_id b = None).
  { destruct (OrderBook.orders_ b !! OrderBook.next_order_id b) as [a|] eqn:E;
      [|reflexivity].
    destruct Hids as (_ & Hb). specialize (Hb _ (ex_intro _ a E)). lia. }
  pose proof (Hrun (S N) ltac:(lia)) as Hone.
  pose proof (add_order_frame _ _ _ _ _ _ _ _ Hone) as (_ & Hnext & _).
  exists b'. split; [intros fuel Hf; apply Hrun; lia|].
  split.
  { rewrite Hnext. apply u64_small. destruct Hids as (Hb & _). unfold in_u64. lia. }
  split; [intros j Hj; exact (add_order_others _ _ _ _ _ _ _ _ j Hone Hj)|].
  destruct Hidx as [(a & o & Eo & Ho & Hid & Hp & Hs & Hty & Hqo & _)|(Hty & Eo)].
  - left. exists a, o. rewrite Eo. split; [apply lookup_insert_eq|].
    repeat (split; [assumption|]).
    unfold OrderBook.get_order_count. rewrite Eo.
    apply map_size_insert_None. exact Hfresh.
  - right. split; [exact Hty|]. split; [exact Eo|]. rewrite Eo. exact Hfresh.
Qed.

(** X2.  Take a book that is well formed as [wf] has it (its index may
    hold orders of any type), in which every id of the index is at least 1
    and below the id counter, and the counter is at most [n + 1] with
    [n + 2 <= 2^32].  On such a book, for an order of any type with a
    quantity of 64 bits, [add_order] with more fuel than the number of
    orders resting on the opposite side plus one returns, and the callbacks
    it calls come after the ones called before; the last of them is one state
    callback, with the snapshot of the book that the call leaves, and the
    ones before it are trade and order callbacks, each trade with a
    quantity above zero and a price within the price the order was matched
    at (for a market order the best price of the opposite side, if it has
    one; the price given otherwise). *)
Theorem add_order_events (Q : queues) (n price quantity : Z) (side : Side)
    (type : OrderType) (b : OrderBook.t) :
  wf any_type Q None b -> ids_below n b -> 2 + n <= 2 ^ 32 -> in_u64 quantity ->
  exists b' evs,
    (forall fuel,
       (Z.to_nat (resting_count (OrderBook.levels (OrderBook.opposite side) b)) + 1
        < fuel)%nat ->
       OrderBook.add_order fuel price quantity side type b
       = Ok (OrderBook.next_order_id b, b')) /\
    OrderBook.events b'
    = OrderBook.events b ++ evs ++ [StateEvent (OrderBook.get_market_state b')] /\
    Forall no_state_event evs /\
    Forall (fair_trade side (taken_price side type price b)) evs.
Proof.
  intros Hwf Hids Hn Hq.
  destruct (add_order_wf Q n price quantity side type b Hwf Hids Hn Hq I)
    as (N & b' & Q' & Hrun & HN & _ & _ & _ & evs & Hev & Hfair).
  exists b', evs. split; [intros fuel Hf; apply Hrun; lia|].
  split; [exact Hev|]. split; [|exact Hfair].
  eapply Forall_impl; [exact Hfair|]. intros [t|o|m]; cbn; auto.
Qed.

(** X5.  Take a book that is well formed as [wf] has it (its index may
    hold orders of any type), in which every id of the index is at least 1
    and below the id counter, and the counter is at most [n + 1] with
    [n + 2 <= 2^32]; a new quantity of 64 bits; and an id under which the
    index holds no order of another type than limit with quantity left
    ([rests_or_filled]).  With enough fuel [modify_order] returns.  On
    an id that is not in the index it returns false and leaves the book as
    it is.  On an id in the index it returns true; the id counter is one
    more; the old id has left the index; the entries of the index under
    other ids than the old one and the value of the counter before the call
    are as before; and under that value the index holds the replacement, an
    order of the side and type of the old one with the new quantity (and,
    for a limit order, the new price), unless the order is IOC or FOK and
    the loop stopped on it, in which case the index has nothing there. *)
Theorem modify_order_replaces (Q : queues) (n order_id new_price new_quantity : Z)
    (b : OrderBook.t) :
  wf any_type Q None b -> ids_below n b -> 2 + n <= 2 ^ 32 -> in_u64 new_quantity ->
  rests_or_filled order_id b ->
  exists (N : nat) r b',
    (forall fuel, (N < fuel)%nat ->
       OrderBook.modify_order fuel order_id new_price new_quantity b = Ok (r, b')) /\
    match OrderBook.orders_ b !! order_id with
    | None => r = false /\ b' = b
    | Some a =>
        r = true /\
        OrderBook.next_order_id b' = OrderBook.next_order_id b + 1 /\
        OrderBook.orders_ b' !! order_id = None /\
        (forall j, j <> order_id -> j <> OrderBook.next_order_id b ->
                   OrderBook.orders_ b' !! j = OrderBook.orders_ b !! j) /\
        exists o,
          OrderBook.cells b !! a = Some o /\
          ((exists a' o',
              OrderBook.orders_ b' !! OrderBook.next_order_id b = Some a' /\
              OrderBook.cells b' !! a' = Some o' /\
              Order.id o' = OrderBook.next_order_id b /\
              Order.side o' = Order.side o /\ Order.type o' = Order.type o /\
              Order.quantity o' = new_quantity /\
              (Order.type o = LIMIT -> Order.price o' = new_price)) \/
           (Order.type o = IOC \/ Order.type o = FOK) /\
           OrderBook.orders_ b' !! OrderBook.next_order_id b = None)
    end.
Proof.
  intros Hwf Hids Hn Hq Hsafe.
  destruct (cancel_order_wf Q n order_id b Hwf Hids ltac:(lia) Hsafe)
    as (r1 & b1 & Q1 & Hc & Hwf1 & Hids1).
  pose proof (cancel_order_gone _ _ _ _ Hc) as Hgone.
  pose proof (cancel_order_frame _ _ _ _ Hc) as (Hother & Hnext1).
  assert (Hbound : 1 <= OrderBook.next_order_id b <= 1 + n) by (destruct Hids; assumption).
  assert (Hbelow : forall j, is_Some (OrderBook.orders_ b !! j) ->
                             1 <= j < OrderBook.next_order_id b)
    by (destruct Hids; assumption).
  clear Hsafe.
  unfold OrderBook.modify_order.
  destruct (OrderBook.orders_ b !! order_id) as [a|] eqn:Hi.
  - destruct (wf_index _ _ _ _ Hwf _ _ Hi) as (o & Ha & _).
    rewrite (load_ok _ _ _ Ha). cbn [rbind]. rewrite Hc. cbn [rbind].
    destruct (add_order_wf Q1 n new_price new_quantity (Order.side o) (Order.type o) b1
                Hwf1 Hids1 Hn Hq I)
      as (N & b2 & Q2 & Hrun & _ & _ & _ & Hidx & _).
    pose proof (Hrun (S N) ltac:(lia)) as Hone.
    pose proof (add_order_frame _ _ _ _ _ _ _ _ Hone) as (_ & Hnext2 & _).
    assert (Hne : order_id <> OrderBook.next_order_id b).
    { intros ->. specialize (Hbelow _ (ex_intro _ a Hi)). lia. }
    exists N, true, b2. split.
    { intros fuel Hf. rewrite (Hrun fuel Hf). reflexivity. }
    split; [reflexivity|]. split.
    { rewrite Hnext2, Hnext1. apply u64_small. unfold in_u64. lia. }
    split.
    { rewrite (add_order_others _ _ _ _ _ _ _ _ order_id Hone) by (rewrite Hnext1; exact Hne).
      exact Hgone. }
    split.
    { intros j Hj1 Hj2.
      rewrite (add_order_others _ _ _ _ _ _ _ _ j Hone) by (rewrite Hnext1; exact Hj2).
      apply Hother. exact Hj1. }
    exists o. split; [exact Ha|].
    rewrite Hnext1 in Hidx.
    destruct Hidx as [(a' & o' & Eo & Ho & Hid & Hp & Hs & Hty & Hqo & _)|(Hty & Eo)].
    + left. exists a', o'. rewrite Eo. split; [apply lookup_insert_eq|].
      repeat (split; [assumption|]).
      intros Hl. rewrite Hp, Hl. reflexivity.
    + right. split; [exact Hty|]. rewrite Eo.
      rewrite Hother by (exact (not_eq_sym Hne)).
      destruct (OrderBook.orders_ b !! OrderBook.next_order_id b) as [x|] eqn:E;
        [|reflexivity].
      specialize (Hbelow _ (ex_intro _ x E)). lia.
  - exists O, false, b. split; [reflexivity|]. split; reflexivity.
Qed.

Lemma wf_index_closed {T} Q inc b : wf T Q inc b -> index_closed b.
Proof.
  intros Hwf i a Hi. destruct (wf_index _ _ _ _ Hwf _ _ Hi) as (o & Ho & _). eauto.
Qed.

(** X14.  after a session of limit orders [get_order] returns for every id,
    with an order exactly for the ids in the index; the order it returns
    has the id asked for, is a limit order, is not filled beyond its
    quantity, and, while it has quantity left, its side has a level at its
    price. *)
Theorem limit_sessions_orders (fuel : nat) (ops : list Op) (b : OrderBook.t) (order_id : Z) :
  Forall limit_op ops -> Z.of_nat (length ops) < 2 ^ 32 ->
  run fuel ops OrderBook.new = Ok b ->
  exists r,
    OrderBook.get_order order_id b = Ok r /\
    (r = None <-> OrderBook.orders_ b !! order_id = None) /\
    forall o, r = Some o ->
      Order.id o = order_id /\ Order.type o = LIMIT /\
      0 <= Order.filled_quantity o <= Order.quantity o /\
      (Order.is_fully_filled o = false ->
       LevelMap.find (Order.price o) (OrderBook.levels (Order.side o) b) <> None).
Proof.
  intros Hops Hlen Hrun.
  destruct (run_limit_wf fuel ops b Hops Hlen Hrun) as (Q & Hwf & _).
  unfold OrderBook.get_order.
  destruct (OrderBook.orders_ b !! order_id) as [a|] eqn:Hi.
  - destruct (wf_index _ _ _ _ Hwf _ _ Hi) as (o & Ho & Hid & [E|Hty] & Hq);
      [discriminate|].
    rewrite (load_ok _ _ _ Ho). cbn [rbind]. exists (Some o).
    split; [reflexivity|]. split; [split; discriminate|].
    intros o' [= <-]. split; [exact Hid|]. split; [exact Hty|].
    split; [exact (wf_filled _ _ _ _ Hwf _ _ _ Hi Ho)|].
    intros Hnf. destruct (Hq Hty Hnf) as [E|Hin]; [discriminate|].
    destruct (wf_queue_level _ _ _ _ Hwf (Order.side o) (Order.price o)) as (l & Hf & _).
    + intros E. rewrite E in Hin. destruct Hin.
    + rewrite Hf. discriminate.
  - exists None. split; [reflexivity|]. split; [split; reflexivity|]. discriminate.
Qed.

(** ** The properties on concrete inputs *)

Lemma returns_ok {A} (d : A) (r : res A) : returns r = true -> r = Ok (result_of d r).
Proof. destruct r; cbn; intros H; try discriminate. reflexivity. Qed.

Lemma returns_pair {A B} (d : A * B) (r : res (A * B)) :
  returns r = true -> r = Ok (fst (result_of d r), snd (result_of d r)).
Proof. destruct r as [[x y]| |]; cbn; intros H; try discriminate. reflexivity. Qed.

Lemma returns_with {A B} (d : A * B) (r : res (A * B)) (x : A) :
  returns r = true -> fst (result_of d r) = x -> r = Ok (x, snd (result_of d r)).
Proof. intros H <-. apply returns_pair. exact H. Qed.

Lemma session_returns ops :
  returns (session ops) = true -> run 64 ops OrderBook.new = Ok (book_of (session ops)).
Proof. unfold session. destruct (run 64 ops OrderBook.new); cbn; intros H; try discriminate. reflexivity. Qed.

Lemma session_wf ops :
  Forall limit_op ops -> Z.of_nat (length ops) < 2 ^ 32 -> returns (session ops) = true ->
  exists Q, wf limit_only Q None (book_of (session ops)) /\
            ids_below (Z.of_nat (length ops)) (book_of (session ops)).
Proof.
  intros Hops Hlen Hret.
  exact (run_limit_wf 64 ops _ Hops Hlen (session_returns ops Hret)).
Qed.

Lemma session_sides_sorted_witness :
  sides_sorted
    (book_of (session [Add 9995 100 BUY LIMIT; Add 10005 100 SELL LIMIT;
                       Add 9990 50 BUY LIMIT; Add 10005 30 BUY MARKET])).
Proof.
  apply (session_sides_sorted 64
           [Add 9995 100 BUY LIMIT; Add 10005 100 SELL LIMIT;
            Add 9990 50 BUY LIMIT; Add 10005 30 BUY MARKET]).
  apply session_returns. vm_compute. reflexivity.
Defined.

Lemma best_prices_extremal_witness :
  let b := OrderBook.with_bids
             [(100, PriceLevel.mk 100 5 1 None None); (99, PriceLevel.mk 99 7 1 None None)]
             OrderBook.new in
  OrderBook.get_volume_at_price 99 BUY b = 7 /\
  exists best, OrderBook.get_best_bid b = Some best /\ 99 <= best.
Proof.
  intros b.
  apply (best_prices_extremal b BUY 99 (PriceLevel.mk 99 7 1 None None)).
  - split; [|exact I]. cbn. repeat split; repeat constructor.
  - right. left. reflexivity.
Defined.

Lemma cancel_order_forgets_witness :
  let b := book_of (session [Add 9995 100 BUY LIMIT]) in
  let b' := snd (result_of (false, b) (OrderBook.cancel_order 1 b)) in
  OrderBook.orders_ b' !! 1 = None /\
  OrderBook.get_order 1 b' = Ok None /\
  OrderBook.cancel_order 1 b' = Ok (false, b').
Proof.
  intros b b'.
  apply (cancel_order_forgets 1 b b' (fst (result_of (false, b) (OrderBook.cancel_order 1 b)))).
  apply (returns_pair (false, b) (OrderBook.cancel_order 1 b)). vm_compute. reflexivity.
Defined.

Lemma cancel_order_reports_witness :
  let b := book_of (session [Add 9995 100 BUY LIMIT]) in
  let b' := snd (result_of (false, b) (OrderBook.cancel_order 1 b)) in
  (exists o, OrderBook.events b' = OrderBook.events b ++ [OrderEvent o] /\
             Order.status o = CANCELLED) /\
  (forall j, j <> 1 -> OrderBook.orders_ b' !! j = OrderBook.orders_ b !! j) /\
  OrderBook.next_order_id b' = OrderBook.next_order_id b /\
  S (OrderBook.get_order_count b') = OrderBook.get_order_count b.
Proof.
  intros b b'.
  apply (cancel_order_reports 1 b b').
  apply (returns_with (false, b) (OrderBook.cancel_order 1 b) true); vm_compute; reflexivity.
Defined.

Lemma session_ids_fresh_witness :
  let b0 := OrderBook.create 3 in
  let b1 := result_of b0 (step 64 (Add 9995 100 BUY LIMIT) b0) in
  let b2 := OrderBook.elsewhere 2 b1 in
  let b3 := result_of b2 (step 64 (Add 9990 50 BUY LIMIT) b2) in
  let b4 := result_of b3 (step 64 (Modify 3 9997 10) b3) in
  3 <= OrderBook.next_order_id b4 <= 3 + 5 /\
  (forall j, is_Some (OrderBook.orders_ b4 !! j) -> 3 <= j < OrderBook.next_order_id b4) /\
  OrderBook.orders_ b4 !! OrderBook.next_order_id b4 = None.
Proof.
  intros b0 b1 b2 b3 b4.
  apply (session_ids_fresh 5 3 b4); [|lia|lia].
  apply (shared_call 4 64 (Add 9995 100 BUY LIMIT) b0 b1 b4).
  { apply (returns_ok b0 (step 64 (Add 9995 100 BUY LIMIT) b0)). vm_compute. reflexivity. }
  apply (shared_other 2 2 b1 b4); [lia|].
  apply (shared_call 1 64 (Add 9990 50 BUY LIMIT) b2 b3 b4).
  { apply (returns_ok b2 (step 64 (Add 9990 50 BUY LIMIT) b2)). vm_compute. reflexivity. }
  apply (shared_call 0 64 (Modify 3 9997 10) b3 b4 b4).
  { apply (returns_ok b3 (step 64 (Modify 3 9997 10) b3)). vm_compute. reflexivity. }
  apply shared_done.
Defined.

Lemma session_trade_window_witness :
  let ops := [Add 10005 100 SELL LIMIT; Add 10005 30 BUY LIMIT; Add 10005 20 BUY LIMIT] in
  let b := book_of (session ops) in
  window_ok b /\
  (length (OrderBook.recent_trade_prices_ b) <= MAX_RECENT_TRADES)%nat /\
  MarketState.last_trade_price (OrderBook.get_market_state b)
  = List.last (map Trade.price (OrderBook.trades b)) 0.
Proof.
  intros ops b. apply (session_trade_window 64 ops b).
  apply (session_returns ops). vm_compute. reflexivity.
Defined.

Lemma pool_reuses_freed_cell_witness :
  let p := MemoryPool.mk [1%N; 2%N; 3%N] 1 4 in
  pool_ok (MemoryPool.deallocate 0%N p) /\
  MemoryPool.allocate (MemoryPool.deallocate 0%N p) = Ok (0%N, p) /\
  (forall a' p', MemoryPool.allocate p = Ok (a', p') -> a' <> 0%N).
Proof.
  intros p. apply (pool_reuses_freed_cell 0%N p).
  - split; cbn [MemoryPool.free_list_ MemoryPool.blocks_ MemoryPool.block_size_ p].
    + repeat (apply NoDup_cons; split;
              [rewrite list_elem_of_In; cbn; lia|]).
      apply NoDup_nil_2.
    + repeat constructor.
  - cbn. lia.
  - reflexivity.
Defined.

Lemma level_best_is_earliest_witness :
  let m : gmap N Order.t :=
    <[0%N := Order.new 1 100 50 BUY LIMIT]> (<[1%N := Order.new 2 100 30 BUY LIMIT]> ∅) in
  let ops := [LAdd 0%N; LAdd 1%N; LFill 0%N 20; LRemove 0%N] in
  exists l m',
    level_run ops (PriceLevel.new 100, m) = Ok (l, m') /\
    PriceLevel.get_best_order l = List.head (fifo_run ops []) /\
    (Z.of_nat (length (fifo_run ops [])) < 2 ^ 32 ->
     (PriceLevel.is_empty l = true <-> fifo_run ops [] = [])).
Proof.
  intros m ops. apply level_best_is_earliest.
  cbn [legal legal_step fifo_step ops app remove_first N.eqb].
  repeat split.
  - exists (Order.new 1 100 50 BUY LIMIT). vm_compute. reflexivity.
  - intros [].
  - exists (Order.new 2 100 30 BUY LIMIT). vm_compute. reflexivity.
  - intros [H|[]]. discriminate H.
  - left. reflexivity.
  - left. reflexivity.
Defined.

Lemma aggressive_price_between_witness :
  9995 <= RLAgent.aggressive_price 9995 9996 < 9996 /\
  OrderBook.no_cross BUY (RLAgent.aggressive_price 9995 9996) 9996 = true /\
  (OrderBook.no_cross SELL (RLAgent.aggressive_price 9995 9996) 9995 = false
   <-> 9996 = 9995 + 1).
Proof.
  apply (aggressive_price_between 9995 9996).
  - unfold in_s64. lia.
  - lia.
Defined.

Lemma cleanup_keeps_active_witness :
  let ops := [Add 10005 100 SELL LIMIT; Add 10005 100 BUY LIMIT; Add 9990 10 BUY LIMIT] in
  let b := book_of (session ops) in
  RLAgent.cleanup [1; 2; 3; 7] b = Ok (filter (active_in b) [1; 2; 3; 7]).
Proof.
  intros ops b. apply cleanup_keeps_active.
  destruct (run_limit_wf 64 ops b) as (Q & Hwf & _).
  - repeat constructor; unfold in_u64; lia.
  - cbn. lia.
  - apply (session_returns ops). vm_compute. reflexivity.
  - eapply wf_index_closed. exact Hwf.
Defined.

Lemma cancel_all_clears_witness :
  let b := book_of (session [Add 9995 100 BUY LIMIT; Add 9990 100 BUY LIMIT]) in
  let ag := RLAgent.mk b [1; 2] 0 0 0 in
  let ag' := result_of ag (RLAgent.execute_action 64 RLAgent.CANCEL_ALL 0 ag) in
  RLAgent.active_orders_ ag' = [] /\
  (forall id, In id (RLAgent.active_orders_ ag) ->
              OrderBook.orders_ (RLAgent.orderbook_ ag') !! id = None) /\
  (forall j, ~ In j (RLAgent.active_orders_ ag) ->
             OrderBook.orders_ (RLAgent.orderbook_ ag') !! j
             = OrderBook.orders_ (RLAgent.orderbook_ ag) !! j) /\
  RLAgent.action_count_ ag' = u64 (RLAgent.action_count_ ag + 1).
Proof.
  intros b ag ag'. apply (cancel_all_clears 64 0 ag ag').
  apply (returns_ok ag (RLAgent.execute_action 64 RLAgent.CANCEL_ALL 0 ag)).
  vm_compute. reflexivity.
Defined.

Lemma execute_action_without_quote_witness :
  let b := book_of (session [Add 9995 100 BUY LIMIT; Add 9990 50 BUY LIMIT]) in
  let ag := RLAgent.mk b [1; 7] 9 5 2 in
  let ag' := result_of ag (RLAgent.execute_action 64 RLAgent.BUY_MARKET 10 ag) in
  RLAgent.orderbook_ ag' = RLAgent.orderbook_ ag /\
  RLAgent.position_quantity ag' = RLAgent.position_quantity ag /\
  RLAgent.total_trades_ ag' = RLAgent.total_trades_ ag /\
  (forall id, In id (RLAgent.active_orders_ ag') -> In id (RLAgent.active_orders_ ag)) /\
  (u64 (RLAgent.action_count_ ag + 1) mod 10 <> 0 ->
   RLAgent.active_orders_ ag' = RLAgent.active_orders_ ag) /\
  RLAgent.action_count_ ag' = u64 (RLAgent.action_count_ ag + 1).
Proof.
  intros b ag ag'. apply (execute_action_without_quote 64 RLAgent.BUY_MARKET 10 ag ag').
  - vm_compute. reflexivity.
  - apply (returns_ok ag (RLAgent.execute_action 64 RLAgent.BUY_MARKET 10 ag)).
    vm_compute. reflexivity.
Defined.

Lemma limit_sessions_return_witness :
  let ops := [Add 9995 100 BUY LIMIT; Add 10005 100 SELL LIMIT; Add 10005 150 BUY LIMIT;
              Cancel 1; Modify 3 10001 20] in
  exists (N : nat) b Q,
    (forall fuel, (N < fuel)%nat -> run fuel ops OrderBook.new = Ok b) /\
    wf limit_only Q None b.
Proof.
  intros ops. apply limit_sessions_return.
  - repeat constructor; unfold in_u64; lia.
  - cbn. lia.
Defined.

Lemma limit_sessions_uncrossed_witness :
  let ops := [Add 9995 100 BUY LIMIT; Add 10005 100 SELL LIMIT; Add 10005 30 BUY LIMIT;
              Add 10000 10 BUY LIMIT] in
  let b := book_of (session ops) in
  OrderBook.get_best_bid b = Some 10000 /\ OrderBook.get_best_ask b = Some 10005 /\
  10000 < 10005.
Proof.
  intros ops b.
  assert (Hb : OrderBook.get_best_bid b = Some 10000) by (vm_compute; reflexivity).
  assert (Ha : OrderBook.get_best_ask b = Some 10005) by (vm_compute; reflexivity).
  split; [exact Hb|]. split; [exact Ha|].
  apply (limit_sessions_uncrossed 64 ops b 10000 10005).
  - repeat constructor; unfold in_u64; lia.
  - cbn. lia.
  - apply (session_returns ops). vm_compute. reflexivity.
  - exact Hb.
  - exact Ha.
Defined.

Lemma limit_sessions_volume_witness :
  let ops := [Add 9995 100 BUY LIMIT; Add 9995 40 BUY LIMIT; Add 9995 30 SELL LIMIT] in
  let b := book_of (session ops) in
  exists q,
    NoDup q /\ (forall x, In x q <-> live_at b BUY 9995 x) /\
    OrderBook.get_volume_at_price 9995 BUY b = u64 (sum_remaining (OrderBook.cells b) q) /\
    (q = [] <-> LevelMap.find 9995 (OrderBook.levels BUY b) = None).
Proof.
  intros ops b. apply (limit_sessions_volume 64 ops b BUY 9995).
  - repeat constructor; unfold in_u64; lia.
  - cbn. lia.
  - apply (session_returns ops). vm_compute. reflexivity.
Defined.

Lemma limit_sessions_orders_witness :
  let ops := [Add 9995 100 BUY LIMIT; Add 9995 40 SELL LIMIT] in
  let b := book_of (session ops) in
  exists r,
    OrderBook.get_order 1 b = Ok r /\
    (r = None <-> OrderBook.orders_ b !! 1 = None) /\
    forall o, r = Some o ->
      Order.id o = 1 /\ Order.type o = LIMIT /\
      0 <= Order.filled_quantity o <= Order.quantity o /\
      (Order.is_fully_filled o = false ->
       LevelMap.find (Order.price o) (OrderBook.levels (Order.side o) b) <> None).
Proof.
  intros ops b. apply (limit_sessions_orders 64 ops b 1).
  - repeat constructor; unfold in_u64; lia.
  - cbn. lia.
  - apply (session_returns ops). vm_compute. reflexivity.
Defined.

Lemma limit_order_on_wf_book_witness :
  let ops := [Add 10005 100 SELL LIMIT; Add 10005 30 SELL LIMIT; Add 9990 10 BUY LIMIT] in
  let b := book_of (session ops) in
  resting_count (OrderBook.levels (OrderBook.opposite BUY) b) = 2 /\
  exists b' Q',
    (forall fuel,
       (Z.to_nat (resting_count (OrderBook.levels (OrderBook.opposite BUY) b)) + 1
        < fuel)%nat ->
       OrderBook.add_order fuel 10005 120 BUY LIMIT b
       = Ok (OrderBook.next_order_id b, b')) /\
    wf limit_only Q' None b' /\ ids_below (3 + 1) b' /\
    exists evs,
      OrderBook.events b'
      = OrderBook.events b ++ evs ++ [StateEvent (OrderBook.get_market_state b')] /\
      Forall (fair_trade BUY 10005) evs.
Proof.
  intros ops b. split; [vm_compute; reflexivity|].
  destruct (session_wf ops) as (Q & Hwf & Hids).
  - repeat constructor; unfold in_u64; lia.
  - cbn. lia.
  - vm_compute. reflexivity.
  - apply (limit_order_on_wf_book limit_only Q 3 10005 120 BUY b).
    + reflexivity.
    + exact Hwf.
    + exact Hids.
    + lia.
    + unfold in_u64. lia.
Defined.

Lemma cancel_on_wf_book_witness :
  let ops := [Add 9995 100 BUY LIMIT; Add 9995 50 BUY LIMIT; Add 10005 10 SELL LIMIT] in
  let b := book_of (session ops) in
  is_Some (OrderBook.orders_ b !! 1) /\
  exists r b' Q',
    OrderBook.cancel_order 1 b = Ok (r, b') /\
    (r = true <-> is_Some (OrderBook.orders_ b !! 1)) /\
    wf limit_only Q' None b' /\ ids_below 3 b'.
Proof.
  intros ops b. split; [exists 36864%N; vm_compute; reflexivity|].
  destruct (session_wf ops) as (Q & Hwf & Hids).
  - repeat constructor; unfold in_u64; lia.
  - cbn. lia.
  - vm_compute. reflexivity.
  - apply (cancel_on_wf_book limit_only Q 3 1 b).
    + exact Hwf.
    + exact Hids.
    + lia.
    + exact (limit_only_cancellable Q b 1 Hwf).
Defined.

Lemma add_order_index_witness :
  let ops := [Add 10005 100 SELL LIMIT; Add 10010 50 SELL LIMIT; Add 9990 10 BUY LIMIT] in
  let b := book_of (session ops) in
  taken_price BUY MARKET 0 b = 10005 /\
  exists b',
    (forall fuel,
       (Z.to_nat (resting_count (OrderBook.levels (OrderBook.opposite BUY) b)) + 1
        < fuel)%nat ->
       OrderBook.add_order fuel 0 120 BUY MARKET b = Ok (OrderBook.next_order_id b, b')) /\
    OrderBook.next_order_id b' = OrderBook.next_order_id b + 1 /\
    (forall j, j <> OrderBook.next_order_id b ->
               OrderBook.orders_ b' !! j = OrderBook.orders_ b !! j) /\
    ((exists a o,
        OrderBook.orders_ b' !! OrderBook.next_order_id b = Some a /\
        OrderBook.cells b' !! a = Some o /\
        Order.id o = OrderBook.next_order_id b /\
        Order.side o = BUY /\ Order.type o = MARKET /\ Order.quantity o = 120 /\
        Order.price o = taken_price BUY MARKET 0 b /\
        OrderBook.get_order_count b' = S (OrderBook.get_order_count b)) \/
     (MARKET = IOC \/ MARKET = FOK) /\
     OrderBook.orders_ b' = OrderBook.orders_ b /\
     OrderBook.orders_ b' !! OrderBook.next_order_id b = None).
Proof.
  intros ops b. split; [vm_compute; reflexivity|].
  destruct (session_wf ops) as (Q & Hwf & Hids).
  - repeat constructor; unfold in_u64; lia.
  - cbn. lia.
  - vm_compute. reflexivity.
  - apply (add_order_index Q 3 0 120 BUY MARKET b).
    + exact (wf_any Q None b Hwf).
    + exact Hids.
    + lia.
    + unfold in_u64. lia.
Defined.

Lemma add_order_events_witness :
  let ops := [Add 10005 100 SELL LIMIT; Add 10010 50 SELL LIMIT] in
  let b := book_of (session ops) in
  exists b' evs,
    (forall fuel,
       (Z.to_nat (resting_count (OrderBook.levels (OrderBook.opposite BUY) b)) + 1
        < fuel)%nat ->
       OrderBook.add_order fuel 10010 200 BUY IOC b = Ok (OrderBook.next_order_id b, b')) /\
    OrderBook.events b'
    = OrderBook.events b ++ evs ++ [StateEvent (OrderBook.get_market_state b')] /\
    Forall no_state_event evs /\
    Forall (fair_trade BUY (taken_price BUY IOC 10010 b)) evs.
Proof.
  intros ops b.
  destruct (session_wf ops) as (Q & Hwf & Hids).
  - repeat constructor; unfold in_u64; lia.
  - cbn. lia.
  - vm_compute. reflexivity.
  - apply (add_order_events Q 2 10010 200 BUY IOC b).
    + exact (wf_any Q None b Hwf).
    + exact Hids.
    + lia.
    + unfold in_u64. lia.
Defined.

Lemma modify_order_replaces_witness :
  let ops := [Add 9995 100 BUY LIMIT; Add 10005 50 SELL LIMIT] in
  let b := book_of (session ops) in
  exists (N : nat) b',
    (forall fuel, (N < fuel)%nat ->
       OrderBook.modify_order fuel 1 10005 70 b = Ok (true, b')) /\
    OrderBook.next_order_id b' = OrderBook.next_order_id b + 1 /\
    OrderBook.orders_ b' !! 1 = None /\
    (forall j, j <> 1 -> j <> OrderBook.next_order_id b ->
               OrderBook.orders_ b' !! j = OrderBook.orders_ b !! j) /\
    exists a' o',
      OrderBook.orders_ b' !! OrderBook.next_order_id b = Some a' /\
      OrderBook.cells b' !! a' = Some o' /\
      Order.id o' = OrderBook.next_order_id b /\
      Order.side o' = BUY /\ Order.type o' = LIMIT /\
      Order.quantity o' = 70 /\ Order.price o' = 10005.
Proof.
  intros ops b.
  destruct (session_wf ops) as (Q & Hwf & Hids).
  - repeat constructor; unfold in_u64; lia.
  - cbn. lia.
  - vm_compute. reflexivity.
  - destruct (modify_order_replaces Q 2 1 10005 70 b) as (N & r & b' & Hrun & Hm).
    + exact (wf_any Q None b Hwf).
    + exact Hids.
    + lia.
    + unfold in_u64. lia.
    + exact (limit_only_cancellable Q b 1 Hwf).
    + assert (E : OrderBook.orders_ b !! 1 = Some 36864%N) by (vm_compute; reflexivity).
      assert (Ec : OrderBook.cells b !! 36864%N = Some (Order.mk 1 9995 100 0 BUY LIMIT NEW None None))
        by (vm_compute; reflexivity).
      rewrite E in Hm.
      destruct Hm as (-> & Hnext & Hgone & Hother & o & Ho & Hnew).
      rewrite Ec in Ho. injection Ho as <-.
      exists N, b'. split; [exact Hrun|]. split; [exact Hnext|]. split; [exact Hgone|].
      split; [exact Hother|].
      destruct Hnew as [(a' & o' & H1 & H2 & H3 & H4 & H5 & H6 & H7)|([H|H] & _)];
        [|discriminate H|discriminate H].
      exists a', o'. repeat (split; [assumption|]). apply H7. reflexivity.
Defined.

(** *** The position of the agent *)

Lemma moved_exact is_buy tq q :
  0 <= tq < 2 ^ 62 -> - 2 ^ 62 < q < 2 ^ 62 ->
  RLAgent.moved is_buy tq q = if is_buy then q + tq else q - tq.
Proof.
  intros Ht Hq. unfold RLAgent.moved.
  assert (Hs : forall z, - 2 ^ 63 <= z < 2 ^ 63 -> s64 z = z)
    by (intros z Hz; apply s64_small; exact Hz).
  assert (Hu : forall z, 0 <= z < 2 ^ 64 -> u64 z = z)
    by (intros z Hz; apply u64_small; exact Hz).
  destruct is_buy.
  - destruct (Z.ltb_spec q 0) as [Hneg|Hpos]; [|apply Hs; lia].
    rewrite (Hs tq), (Hs (- q)) by lia.
    set (c := Z.min tq (- q)). assert (0 <= c <= tq /\ c <= - q /\ (c = tq \/ c = - q)) by lia.
    rewrite (Hs (q + c)), (Hu c) by lia.
    destruct (Z.gtb_spec tq c) as [Hgt|Hle].
    + rewrite (Hu (tq - c)), (Hs (tq - c)), Hs by lia. lia.
    + lia.
  - destruct (Z.gtb_spec q 0) as [Hpos|Hneg]; [|apply Hs; lia].
    rewrite (Hs tq) by lia.
    set (c := Z.min tq q). assert (0 <= c <= tq /\ c <= q /\ (c = tq \/ c = q)) by lia.
    rewrite (Hs (q - c)), (Hu c) by lia.
    destruct (Z.gtb_spec tq c) as [Hgt|Hle].
    + rewrite (Hu (tq - c)), (Hs (tq - c)), Hs by lia. lia.
    + lia.
Qed.

(** X24.  [update_position] on a trade that involves no order of the
    agent's list changes nothing.  On a trade that involves one, with the
    quantities below 2^62 in magnitude, the quantity of the position moves
    by exactly the quantity of the trade, up if the first order of the list
    involved is the buyer and down if it is the seller, and the number of
    trades grows by one; the book and the list are not touched. *)
Theorem update_position_moves (trade : Trade.t) (ag : RLAgent.t) :
  0 <= Trade.quantity trade < 2 ^ 62 ->
  - 2 ^ 62 < RLAgent.position_quantity ag < 2 ^ 62 ->
  let ag' := RLAgent.update_position trade ag in
  RLAgent.position_quantity ag'
  = match RLAgent.involved (RLAgent.active_orders_ ag) trade with
    | Some true => RLAgent.position_quantity ag + Trade.quantity trade
    | Some false => RLAgent.position_quantity ag - Trade.quantity trade
    | None => RLAgent.position_quantity ag
    end /\
  RLAgent.total_trades_ ag'
  = match RLAgent.involved (RLAgent.active_orders_ ag) trade with
    | Some _ => u64 (RLAgent.total_trades_ ag + 1)
    | None => RLAgent.total_trades_ ag
    end /\
  RLAgent.orderbook_ ag' = RLAgent.orderbook_ ag /\
  RLAgent.active_orders_ ag' = RLAgent.active_orders_ ag /\
  RLAgent.action_count_ ag' = RLAgent.action_count_ ag.
Proof.
  intros Ht Hq. cbv zeta. unfold RLAgent.update_position.
  destruct (RLAgent.involved (RLAgent.active_orders_ ag) trade) as [is_buy|];
    [|repeat split].
  cbn [RLAgent.position_quantity RLAgent.total_trades_ RLAgent.orderbook_
       RLAgent.active_orders_ RLAgent.action_count_].
  rewrite (moved_exact is_buy _ _ Ht Hq). destruct is_buy; repeat split.
Qed.

Lemma update_position_moves_witness :
  let ag := RLAgent.mk OrderBook.new [7; 9] 0 (-30) 4 in
  let ag' := RLAgent.update_position (Trade.mk 9 3 10005 50) ag in
  RLAgent.position_quantity ag' = 20 /\ RLAgent.total_trades_ ag' = 5 /\
  RLAgent.orderbook_ ag' = OrderBook.new /\
  RLAgent.active_orders_ ag' = [7; 9] /\ RLAgent.action_count_ ag' = 0.
Proof.
  cbv zeta.
  exact (update_position_moves (Trade.mk 9 3 10005 50)
           (RLAgent.mk OrderBook.new [7; 9] 0 (-30) 4)
           ltac:(cbn; lia) ltac:(cbn; lia)).
Defined.

Lemma on_trades_untracked b b' ag :
  (forall trade,
     In trade (skipn (length (OrderBook.trades b)) (OrderBook.trades b')) ->
     RLAgent.involved (RLAgent.active_orders_ ag) trade = None) ->
  RLAgent.on_trades b b' ag = ag.
Proof.
  unfold RLAgent.on_trades.
  generalize (skipn (length (OrderBook.trades b)) (OrderBook.trades b')). intros l.
  induction l as [|trade l IH]; intros H; cbn [fold_left]; [reflexivity|].
  assert (RLAgent.update_position trade ag = ag) as ->.
  { unfold RLAgent.update_position. rewrite (H trade) by (left; reflexivity). reflexivity. }
  apply IH. intros t Ht. apply H. right. exact Ht.
Qed.

(** X25.  The trade callback runs inside [add_order], before the id of
    the order being placed is in the agent's list: where the trades that a
    call of [execute_action] causes involve no order of the list as it
    was before the call, the quantity of the position and the number of
    trades stay as they were, whatever the order placed has traded. *)
Theorem placing_skips_untracked_trades (fuel : nat) (action : RLAgent.Action)
    (quantity : Z) (ag ag' : RLAgent.t) :
  RLAgent.execute_action fuel action quantity ag = Ok ag' ->
  (forall trade,
     In trade (skipn (length (OrderBook.trades (RLAgent.orderbook_ ag)))
                     (OrderBook.trades (RLAgent.orderbook_ ag'))) ->
     RLAgent.involved (RLAgent.active_orders_ ag) trade = None) ->
  RLAgent.position_quantity ag' = RLAgent.position_quantity ag /\
  RLAgent.total_trades_ ag' = RLAgent.total_trades_ ag.
Proof.
  unfold RLAgent.execute_action. intros H Hun. res_inv H as ag1 Hag1.
  assert (Hfinal : RLAgent.orderbook_ ag' = RLAgent.orderbook_ ag1 /\
                   RLAgent.position_quantity ag' = RLAgent.position_quantity ag1 /\
                   RLAgent.total_trades_ ag' = RLAgent.total_trades_ ag1).
  { destruct (_ =? 0).
    - res_inv H as v Hv. injection H as <-. repeat split.
    - injection H as <-. repeat split. }
  destruct Hfinal as (Eb & -> & ->). rewrite Eb in Hun. clear H Eb ag'.
  assert (Hplace : forall price side type,
            RLAgent.place fuel price quantity side type ag = Ok ag1 ->
            RLAgent.position_quantity ag1 = RLAgent.position_quantity ag /\
            RLAgent.total_trades_ ag1 = RLAgent.total_trades_ ag).
  { intros price side type Hp. unfold RLAgent.place in Hp.
    res_inv Hp as r Hr. destruct r as [id b1]. injection Hp as <-.
    cbn [RLAgent.orderbook_] in Hun.
    cbn [RLAgent.position_quantity RLAgent.total_trades_].
    rewrite (on_trades_untracked _ _ _ Hun). split; reflexivity. }
  destruct action, (OrderBook.get_best_bid (RLAgent.orderbook_ ag)) as [bid|],
    (OrderBook.get_best_ask (RLAgent.orderbook_ ag)) as [ask|];
    try (injection Hag1 as <-; split; reflexivity);
    try (exact (Hplace _ _ _ Hag1));
    (res_inv Hag1 as b1 Hb1; injection Hag1 as <-; split; reflexivity).
Qed.

Lemma placing_skips_untracked_trades_witness :
  let b := book_of (session [Add 10005 100 SELL LIMIT]) in
  let ag := RLAgent.mk b [] 0 0 0 in
  let ag' := result_of ag (RLAgent.execute_action 64 RLAgent.BUY_MARKET 50 ag) in
  OrderBook.trades (RLAgent.orderbook_ ag') = [Trade.mk 2 1 10005 50] /\
  RLAgent.active_orders_ ag' = [2] /\
  RLAgent.position_quantity ag' = RLAgent.position_quantity ag /\
  RLAgent.total_trades_ ag' = RLAgent.total_trades_ ag.
Proof.
  cbv zeta. split; [vm_compute; reflexivity|]. split; [vm_compute; reflexivity|].
  apply (placing_skips_untracked_trades 64 RLAgent.BUY_MARKET 50
           (RLAgent.mk (book_of (session [Add 10005 100 SELL LIMIT])) [] 0 0 0)).
  - apply (returns_ok (RLAgent.mk (book_of (session [Add 10005 100 SELL LIMIT])) [] 0 0 0)
             (RLAgent.execute_action 64 RLAgent.BUY_MARKET 50
                (RLAgent.mk (book_of (session [Add 10005 100 SELL LIMIT])) [] 0 0 0))).
    vm_compute. reflexivity.
  - intros trade _. reflexivity.
Defined.
